(** * ai-cowork CLI: a shallow embedding of the stack detector, the
      format converter and the init / add / sync commands, with the
      properties the specification states about them.

    Sources embedded here:
    - [src/cli/src/commands/sync.ts]: convertSkillToOpenCode,
      convertAgentToOpenCode, generateCommands, generateOpenCodeConfig,
      generateAgentsMd, generatePluginTemplate, syncOpenCode,
      syncClaude, registerSyncCommand;
    - [src/unnamed/part_000], lines 1-108 (utils/detector): detectStack,
      isValidStack; lines 109-223 (commands/init): init;
    - [src/unnamed/part_001] (commands/add): add, addStack, addSkill;
    - [src/README.md], lines 196-276 (utils/paths): getTargetAiDir,
      AVAILABLE_STACKS, AI_BRIDGES, directoryExists, fileExists.
    utils/copy is not among the sources. *)

From Stdlib Require Import ZArith NArith List String Ascii Lia Bool DecimalString.
From Stdlib Require QArith.
From stdpp Require Import gmap strings list fin_maps.

#[local] Set Warnings "-register-all".
Local Open Scope N_scope.

(** * JavaScript strings

    A JavaScript string is a sequence of UTF-16 code units; regular
    expressions without the [u] flag work on code units. *)

Module Js.

Abbreviation jsstring := (list N).

(** Source text is UTF-8; a string literal of the program denotes the
    UTF-16 code units of the decoded text. *)
Definition utf16 (cp : N) : jsstring :=
  if cp <? 65536 then [cp]
  else [55296 + (cp - 65536) / 1024; 56320 + (cp - 65536) mod 1024].

Fixpoint decodeUtf8 (bs : list N) : jsstring :=
  match bs with
  | [] => []
  | b :: bs1 =>
      if b <? 192 then b :: decodeUtf8 bs1
      else
        match bs1 with
        | [] => [65533]
        | b1 :: bs2 =>
            if b <? 224 then
              utf16 ((b - 192) * 64 + (b1 - 128)) ++ decodeUtf8 bs2
            else
              match bs2 with
              | [] => [65533]
              | b2 :: bs3 =>
                  if b <? 240 then
                    utf16 ((b - 224) * 4096 + (b1 - 128) * 64 + (b2 - 128))
                    ++ decodeUtf8 bs3
                  else
                    match bs3 with
                    | [] => [65533]
                    | b3 :: bs4 =>
                        utf16 ((b - 240) * 262144 + (b1 - 128) * 4096
                               + (b2 - 128) * 64 + (b3 - 128))
                        ++ decodeUtf8 bs4
                    end
              end
        end
  end.

Definition str (s : string) : jsstring :=
  decodeUtf8 (map N_of_ascii (list_ascii_of_string s)).

(** A literal that contains double quotes, written here with [~] in
    their place. *)
Definition strq (s : string) : jsstring :=
  map (fun c => if c =? 126 then 34 else c) (str s).

(** [String(n)] for a length or an index. *)
Definition numToString (n : nat) : jsstring :=
  str (NilZero.string_of_uint (Nat.to_uint n)).

(** ECMAScript LineTerminator: LF, CR, LS, PS. *)
Definition isLineTerminator (c : N) : bool :=
  (c =? 10) || (c =? 13) || (c =? 8232) || (c =? 8233).

(** ECMAScript WhiteSpace: TAB, VT, FF, ZWNBSP and the Unicode
    space separators. *)
Definition isWhiteSpace (c : N) : bool :=
  (c =? 9) || (c =? 11) || (c =? 12) || (c =? 32) || (c =? 160)
  || (c =? 5760) || ((8192 <=? c) && (c <=? 8202))
  || (c =? 8239) || (c =? 8287) || (c =? 12288) || (c =? 65279).

(** The class [\s]: WhiteSpace or LineTerminator. *)
Definition isSpace (c : N) : bool := isWhiteSpace c || isLineTerminator c.

(** The class [.] (no [s] flag): anything but a LineTerminator. *)
Definition isDot (c : N) : bool := negb (isLineTerminator c).

(** [String.prototype.startsWith], [endsWith] and [includes]. *)
Fixpoint startsWith (s p : jsstring) {struct p} : bool :=
  match p, s with
  | [], _ => true
  | a :: p', b :: s' => (a =? b) && startsWith s' p'
  | _ :: _, [] => false
  end.

Definition endsWith (s p : jsstring) : bool :=
  startsWith (rev s) (rev p).

Fixpoint includes (s p : jsstring) : bool :=
  startsWith s p ||
  match s with
  | [] => false
  | _ :: s' => includes s' p
  end.

(** [s.replace(pat, rep)] with a string pattern: the first occurrence
    only. *)
Fixpoint replaceFirst (s pat rep : jsstring) : jsstring :=
  if startsWith s pat then rep ++ drop (length pat) s
  else
    match s with
    | [] => []
    | c :: s' => c :: replaceFirst s' pat rep
    end.

End Js.

Export Js.

(** * Regular expressions

    A backtracking matcher for the fragment of ECMAScript patterns that
    the converter uses: the assertions [^] and [$] under the [m] flag,
    a literal character, the classes [\s] and [.], the greedy
    quantifiers [*] and [+] on a class, and a capturing group.  A
    matcher returns its outcomes in the order in which the backtracking
    engine tries them, so the match is the first outcome. *)

Module Regex.

Inductive cclass : Type :=
| CChar (c : N)      (* a literal code unit *)
| CSpace             (* \s *)
| CAny.              (* . *)

Inductive node : Type :=
| Bol                          (* ^ with the m flag *)
| Eol                          (* $ with the m flag *)
| One (c : cclass)
| Star (c : cclass)            (* greedy c* *)
| Plus (c : cclass)            (* greedy c+ *)
| Group (r : list node).       (* ( r ) *)

Definition inClass (k : cclass) (c : N) : bool :=
  match k with
  | CChar a => a =? c
  | CSpace => isSpace c
  | CAny => isDot c
  end.

(** The position of the matcher: the code unit before it, what is
    left of the input, and the groups captured so far. *)
Record mstate : Type := MState {
  prev : option N;
  rest : jsstring;
  caps : list jsstring
}.

Definition atLineStart (p : option N) : bool :=
  match p with
  | None => true
  | Some c => isLineTerminator c
  end.

Definition atLineEnd (s : jsstring) : bool :=
  match s with
  | [] => true
  | c :: _ => isLineTerminator c
  end.

(** Greedy repetition of a class: the longest run first, then the
    shorter ones, down to the empty run. *)
Fixpoint starRun (k : cclass) (p : option N) (s : jsstring)
  : list (option N * jsstring) :=
  match s with
  | c :: s' =>
      if inClass k c then starRun k (Some c) s' ++ [(p, s)] else [(p, s)]
  | [] => [(p, s)]
  end.

Definition setPos (st : mstate) (ps : option N * jsstring) : mstate :=
  MState ps.1 ps.2 (caps st).

Definition consumed (from to : jsstring) : jsstring :=
  take (length from - length to)%nat from.

Fixpoint runNode (n : node) (st : mstate) : list mstate :=
  match n with
  | Bol => if atLineStart (prev st) then [st] else []
  | Eol => if atLineEnd (rest st) then [st] else []
  | One k =>
      match rest st with
      | c :: s' => if inClass k c then [setPos st (Some c, s')] else []
      | [] => []
      end
  | Star k => map (setPos st) (starRun k (prev st) (rest st))
  | Plus k =>
      match rest st with
      | c :: s' =>
          if inClass k c then map (setPos st) (starRun k (Some c) s') else []
      | [] => []
      end
  | Group r =>
      map (fun st' =>
             MState (prev st') (rest st')
                    (caps st' ++ [consumed (rest st) (rest st')]))
          ((fix runSeq (r : list node) (st : mstate) : list mstate :=
              match r with
              | [] => [st]
              | n :: r' => flat_map (runSeq r') (runNode n st)
              end) r st)
  end.

Fixpoint runSeq (r : list node) (st : mstate) : list mstate :=
  match r with
  | [] => [st]
  | n :: r' => flat_map (runSeq r') (runNode n st)
  end.

(** One attempt of the pattern at the current index: the array
    [whole; group 1; ...] of the first outcome. *)
Definition matchAt (r : list node) (p : option N) (s : jsstring)
  : option (list jsstring) :=
  match runSeq r (MState p s []) with
  | st :: _ => Some (consumed s (rest st) :: caps st)
  | [] => None
  end.

(** [RegExp.prototype.exec] without the [g] flag: the attempt is made
    at index 0, 1, ... up to the length of the input. *)
Fixpoint execFrom (r : list node) (p : option N) (s : jsstring)
  : option (list jsstring) :=
  match matchAt r p s with
  | Some m => Some m
  | None =>
      match s with
      | [] => None
      | c :: s' => execFrom r (Some c) s'
      end
  end.

(** [String.prototype.match] with a pattern that has no [g] flag. *)
Definition smatch (s : jsstring) (r : list node) : option (list jsstring) :=
  execFrom r None s.

End Regex.

Export Regex.

(** * The format converter: the text it emits *)

Module Convert.

(** [/^#\s+(.+)$/m] *)
Definition headingPattern : list node :=
  [Bol; One (CChar 35); Plus CSpace; Group [Plus CAny]; Eol].

(** [/^>\s*(.+)$/m] *)
Definition quotePattern : list node :=
  [Bol; One (CChar 62); Star CSpace; Group [Plus CAny]; Eol].

(** [m[1]] of a successful match. *)
Definition group1 (m : list jsstring) : jsstring := nth 1 m [].

Definition nl : jsstring := [10].

(** The lines of a template literal, each followed by a line feed. *)
Definition template (ls : list jsstring) : jsstring :=
  flat_map (fun l => l ++ nl) ls.

(** The title and the description of a skill
    (convertSkillToOpenCode, sync.ts lines 30-34). *)
Definition skillTitle (skillName content : jsstring) : jsstring :=
  match smatch content headingPattern with
  | Some titleMatch => group1 titleMatch
  | None => skillName
  end.

Definition skillDescription (skillName content : jsstring) : jsstring :=
  let title := skillTitle skillName content in
  match smatch content quotePattern with
  | Some descMatch => group1 descMatch
  | None => title ++ str " skill"
  end.

(** The YAML frontmatter of a converted skill: the template literal of
    sync.ts lines 37-44, up to and including the closing delimiter. *)
Definition skillFrontmatter (skillName description : jsstring) : jsstring :=
  template
    [ str "---";
      str "name: " ++ skillName;
      str "description: " ++ description;
      str "license: MIT";
      str "compatibility: opencode";
      str "metadata:";
      str "  source: ai-dev-system";
      str "---" ].

(** [openCodeContent] of convertSkillToOpenCode (lines 37-47): the
    frontmatter, an empty line, the source text and a line feed. *)
Definition skillOpenCodeContent (skillName content : jsstring) : jsstring :=
  skillFrontmatter skillName (skillDescription skillName content)
  ++ nl ++ content ++ nl.

(** The description of an agent (convertAgentToOpenCode, lines 65-66):
    the heading pattern is tried first, the quote pattern only when
    the heading pattern yields [null]. *)
Definition agentDescription (agentName content : jsstring) : jsstring :=
  let descMatch :=
    match smatch content headingPattern with
    | Some m => Some m
    | None => smatch content quotePattern
    end in
  match descMatch with
  | Some m => group1 m
  | None => agentName ++ str " agent"
  end.

Definition agentFrontmatter (description : jsstring) : jsstring :=
  template
    [ str "---";
      str "description: " ++ description;
      str "model: anthropic/claude-sonnet-4-5";
      str "---" ].

Definition agentOpenCodeContent (agentName content : jsstring) : jsstring :=
  agentFrontmatter (agentDescription agentName content)
  ++ nl ++ content ++ nl.

End Convert.

Export Convert.

(** * Paths and the file system

    A path is absolute and normalized: the list of its components from
    the root.  [path.join] appends segments and normalizes the result
    the way the POSIX implementation does: segments are split at [/],
    empty parts and [.] are dropped and [..] removes the last
    component. *)

Module Fs.

Abbreviation path := (list jsstring).

Definition slash : N := 47.
Definition dot : jsstring := [46].
Definition dotdot : jsstring := [46; 46].

(** Splitting a segment at [/]. *)
Fixpoint splitSlash (acc s : jsstring) : list jsstring :=
  match s with
  | [] => [rev acc]
  | c :: s' =>
      if c =? slash then rev acc :: splitSlash [] s'
      else splitSlash (c :: acc) s'
  end.

Definition pushPart (p : path) (part : jsstring) : path :=
  if decide (part = []) then p
  else if decide (part = dot) then p
  else if decide (part = dotdot) then removelast p
  else p ++ [part].

Definition joinSeg (p : path) (seg : jsstring) : path :=
  fold_left pushPart (splitSlash [] seg) p.

(** [path.join(p, seg1, ..., segn)]. *)
Definition pathJoin (p : path) (segs : list jsstring) : path :=
  fold_left joinSeg segs p.

(** [path.dirname] and [path.basename] of a normalized path. *)
Definition dirname (p : path) : path := removelast p.
Definition basename (p : path) : jsstring := default [] (last p).

(** A name that can be a directory entry. *)
Definition validName (n : jsstring) : Prop :=
  n ≠ [] ∧ n ≠ dot ∧ n ≠ dotdot ∧ slash ∉ n.

Inductive entry : Type :=
| File (content : jsstring)
| Dir.

#[global] Instance entry_eq_dec : EqDecision entry.
Proof. solve_decision. Defined.

Inductive errno : Type :=
| ENOENT | ENOTDIR | EISDIR | EEXIST | TypeError | SyntaxError.

(** What the process writes to the terminal: [console.log] lines and
    the final states of an [ora] spinner. *)
Inductive event : Type :=
| Log (s : jsstring)
| SpinStart (s : jsstring)
| SpinSucceed (s : jsstring)
| SpinWarn (s : jsstring)
| SpinFail (s : jsstring).

Record world : Type := World {
  files : gmap path entry;
  console : list event
}.

(** The root directory always exists. *)
Definition entryAt (w : world) (p : path) : option entry :=
  match p with
  | [] => Some Dir
  | _ => files w !! p
  end.

Definition setFiles (w : world) (f : gmap path entry) : world :=
  World f (console w).

(** ** Computations that read and write the world and may throw *)

Inductive outcome (A : Type) : Type :=
| Ok (a : A)
| Throw (e : errno).
Arguments Ok {A} a.
Arguments Throw {A} e.

Definition M (A : Type) : Type := world → outcome A * world.

Definition ret {A} (a : A) : M A := fun w => (Ok a, w).

Definition bind {A B} (m : M A) (k : A → M B) : M B :=
  fun w =>
    match m w with
    | (Ok a, w') => k a w'
    | (Throw e, w') => (Throw e, w')
    end.

Definition throw {A} (e : errno) : M A := fun w => (Throw e, w).

(** [try { m } catch (e) { h e }] *)
Definition tryCatch {A} (m : M A) (h : errno → M A) : M A :=
  fun w =>
    match m w with
    | (Ok a, w') => (Ok a, w')
    | (Throw e, w') => h e w'
    end.

Notation "'do' x <- m ; k" := (bind m (fun x => k))
  (at level 10, x name, m at level 100, k at level 200).
Notation "m ;; k" := (bind m (fun _ => k))
  (at level 100, k at level 200, right associativity).

(** [for (const x of xs) { body x }] *)
Fixpoint forOf {A} (xs : list A) (body : A → M unit) : M unit :=
  match xs with
  | [] => ret tt
  | x :: xs' => body x ;; forOf xs' body
  end.

(** [xs.filter(f)] where the predicate may throw. *)
Fixpoint filterM {A} (f : A → M bool) (xs : list A) : M (list A) :=
  match xs with
  | [] => ret []
  | x :: xs' =>
      do b <- f x;
      do r <- filterM f xs';
      ret (if b then x :: r else r)
  end.

Definition emit (e : event) : M unit :=
  fun w => (Ok tt, World (files w) (console w ++ [e])).

Definition consoleLog (s : jsstring) : M unit := emit (Log s).

(** ** The [fs] calls the CLI makes *)

Definition existsSync (p : path) : M bool :=
  fun w => (Ok (bool_decide (is_Some (entryAt w p))), w).

Definition readFileSync (p : path) : M jsstring :=
  fun w =>
    match entryAt w p with
    | Some (File c) => (Ok c, w)
    | Some Dir => (Throw EISDIR, w)
    | None => (Throw ENOENT, w)
    end.

(** [fs.statSync(p).isDirectory()] *)
Definition statIsDirectory (p : path) : M bool :=
  fun w =>
    match entryAt w p with
    | Some Dir => (Ok true, w)
    | Some (File _) => (Ok false, w)
    | None => (Throw ENOENT, w)
    end.

(** [fs.stat(p)] followed by [isFile()] *)
Definition statIsFile (p : path) : M bool :=
  fun w =>
    match entryAt w p with
    | Some (File _) => (Ok true, w)
    | Some Dir => (Ok false, w)
    | None => (Throw ENOENT, w)
    end.

(** The name of [q] inside the directory [p], when [q] is one of its
    entries. *)
Definition childName (p q : path) : option jsstring :=
  match drop (length p) q with
  | [n] => if decide (take (length p) q = p) then Some n else None
  | _ => None
  end.

Definition children (f : gmap path entry) (p : path) : list jsstring :=
  omap (childName p) (elements (dom f)).

Definition readdirSync (p : path) : M (list jsstring) :=
  fun w =>
    match entryAt w p with
    | Some Dir => (Ok (children (files w) p), w)
    | Some (File _) => (Throw ENOTDIR, w)
    | None => (Throw ENOENT, w)
    end.

(** [fs.mkdirSync(p, { recursive: true })]: the missing directories
    along [p] are created from the root down; a file in the way makes
    the call throw, with the directories created so far left in
    place. *)
Fixpoint mkdirFrom (base : path) (comps : list jsstring) : M unit :=
  match comps with
  | [] => ret tt
  | n :: comps' =>
      let q := base ++ [n] in
      fun w =>
        match files w !! q with
        | Some Dir => mkdirFrom q comps' w
        | Some (File _) =>
            (Throw (match comps' with [] => EEXIST | _ => ENOTDIR end), w)
        | None => mkdirFrom q comps' (setFiles w (<[q := Dir]> (files w)))
        end
  end.

Definition mkdirSync (p : path) : M unit := mkdirFrom [] p.

(** [fs.writeFileSync(p, data)]: the parent must be a directory and
    [p] must not be one; an existing file is replaced. *)
Definition writeFileSync (p : path) (data : jsstring) : M unit :=
  fun w =>
    match p with
    | [] => (Throw EISDIR, w)
    | _ =>
        match entryAt w (dirname p) with
        | Some Dir =>
            match files w !! p with
            | Some Dir => (Throw EISDIR, w)
            | _ => (Ok tt, setFiles w (<[p := File data]> (files w)))
            end
        | Some (File _) => (Throw ENOTDIR, w)
        | None => (Throw ENOENT, w)
        end
    end.

End Fs.

Export Fs.

(** * The sync command (cli/src/commands/sync.ts) *)

Module Sync.

Section WithSource.

(** [getSourceAiDir()] of utils/paths.ts (src/README.md, lines
    203-222): [.ai] under the root of the package, which is found
    from the place where the package is installed. *)
Variable sourceAiDir : path.

(** convertSkillToOpenCode, lines 19-52. *)
Definition convertSkillToOpenCode
    (sourceSkillPath targetDir : path) (skillName : jsstring) : M unit :=
  let sourceFile := pathJoin sourceSkillPath [str "SKILL.md"] in
  do found <- existsSync sourceFile;
  if negb found then ret tt
  else
    do content <- readFileSync sourceFile;
    let openCodeContent := skillOpenCodeContent skillName content in
    let targetSkillDir := pathJoin targetDir [skillName] in
    mkdirSync targetSkillDir ;;
    writeFileSync (pathJoin targetSkillDir [str "SKILL.md"]) openCodeContent.

(** convertAgentToOpenCode, lines 57-79. *)
Definition convertAgentToOpenCode
    (sourceAgentPath targetDir : path) (agentName : jsstring) : M unit :=
  do content <- readFileSync sourceAgentPath;
  let openCodeContent := agentOpenCodeContent agentName content in
  mkdirSync targetDir ;;
  writeFileSync (pathJoin targetDir [agentName ++ str ".md"]) openCodeContent.

(** The directories among the entries of [dir]:
    [fs.readdirSync(dir).filter(f => fs.statSync(path.join(dir, f)).isDirectory())]. *)
Definition readSubdirs (dir : path) : M (list jsstring) :=
  do names <- readdirSync dir;
  filterM (fun f => statIsDirectory (pathJoin dir [f])) names.

Definition commandContent (skill description : jsstring) : jsstring :=
  template
    [ str "---";
      str "description: " ++ description;
      str "agent: build";
      str "---";
      str "";
      str "Load and execute the " ++ skill ++ str " skill for the current context.";
      str "";
      strq "Use the skill tool to load: skill({ name: ~" ++ skill ++ strq "~ })";
      str "";
      str "Then follow the skill instructions to complete the task.";
      str "";
      str "$ARGUMENTS" ].

(** generateCommands, lines 84-121. *)
Definition generateCommands (sourceSkillsDir targetCommandDir : path) : M unit :=
  do found <- existsSync sourceSkillsDir;
  if negb found then ret tt
  else
    mkdirSync targetCommandDir ;;
    do skills <- readSubdirs sourceSkillsDir;
    forOf skills (fun skill =>
      let skillFile := pathJoin sourceSkillsDir [skill; str "SKILL.md"] in
      do present <- existsSync skillFile;
      if negb present then ret tt
      else
        do content <- readFileSync skillFile;
        let description :=
          match smatch content quotePattern with
          | Some descMatch => group1 descMatch
          | None => str "Run " ++ skill ++ str " skill"
          end in
        writeFileSync (pathJoin targetCommandDir [skill ++ str ".md"])
                      (commandContent skill description)).

(** [JSON.stringify(config, null, 2)] of the configuration object of
    lines 127-152: no line feed after the last line. *)
Definition openCodeConfigLines : list jsstring :=
  [ str "{";
      strq "  ~$schema~: ~https://opencode.ai/config.json~,";
      strq "  ~theme~: ~opencode~,";
      strq "  ~autoupdate~: true,";
      strq "  ~share~: ~manual~,";
      strq "  ~instructions~: [";
      strq "    ~.ai/context/index.md~";
      str "  ],";
      strq "  ~permission~: {";
      strq "    ~edit~: ~allow~,";
      strq "    ~write~: ~allow~,";
      strq "    ~bash~: ~allow~,";
      strq "    ~skill~: {";
      strq "      ~*~: ~allow~";
      str "    }";
      str "  },";
      strq "  ~compaction~: {";
      strq "    ~auto~: true,";
      strq "    ~prune~: true";
      str "  },";
      strq "  ~formatter~: {";
      strq "    ~prettier~: {";
      strq "      ~disabled~: false";
      str "    }";
      str "  }";
      str "}" ].

Definition joinLines (ls : list jsstring) : jsstring :=
  match ls with
  | [] => []
  | l :: ls' => l ++ flat_map (fun x => nl ++ x) ls'
  end.

(** generateOpenCodeConfig, lines 126-158: the file is written
    whether or not it exists. *)
Definition generateOpenCodeConfig (targetDir projectDir : path) : M unit :=
  writeFileSync (pathJoin projectDir [str "opencode.json"])
                (joinLines openCodeConfigLines).

Definition agentsMdContent (projectName : jsstring) : jsstring :=
  template
    ((str "# " ++ projectName) ::
    [ str "";
      str "## Project Overview";
      str "";
      str "[Brief description of the project]";
      str "";
      str "## Tech Stack";
      str "";
      str "[List the main technologies used]";
      str "";
      str "## Development Commands";
      str "";
      str "```bash";
      str "# Install dependencies";
      str "npm install  # or bun install";
      str "";
      str "# Run development server";
      str "npm run dev";
      str "";
      str "# Run tests";
      str "npm test";
      str "";
      str "# Build for production";
      str "npm run build";
      str "```";
      str "";
      str "## Project Structure";
      str "";
      str "```";
      str "src/";
      str "├── components/    # UI components";
      str "├── lib/           # Utility functions";
      str "├── api/           # API routes/handlers";
      str "└── types/         # TypeScript types";
      str "```";
      str "";
      str "## Coding Standards";
      str "";
      str "- Follow the standards in `.ai/context/core/standards/`";
      str "- Use conventional commits for git messages";
      str "- Write tests for new features";
      str "";
      str "## Context Files";
      str "";
      str "This project uses ai-dev-system for AI-assisted development:";
      str "";
      str "- `.ai/context/` - Coding standards and workflows";
      str "- `.ai/skills/` - Reusable AI skills";
      str "- `.ai/agents/` - Specialized AI agents";
      str "- `.ai/stacks/` - Tech stack configurations";
      str "";
      str "Load context with: `@.ai/context/index.md`" ]).

(** generateAgentsMd, lines 163-222: written only when absent. *)
Definition generateAgentsMd (projectDir : path) (projectName : jsstring) : M unit :=
  let content := agentsMdContent projectName in
  let agentsMdPath := pathJoin projectDir [str "AGENTS.md"] in
  do found <- existsSync agentsMdPath;
  if negb found then writeFileSync agentsMdPath content
  else ret tt.

Definition pluginContent : jsstring :=
  template
    [ strq "import type { Plugin } from ~@opencode-ai/plugin~";
      str "";
      str "/**";
      str " * AI Dev System Plugin";
      str " * ";
      str " * Provides hooks for automatic context loading and protection.";
      str " */";
      str "export const AiDevPlugin: Plugin = async ({ project, client, $, directory }) => {";
      str "  // Log plugin initialization";
      str "  await client.app.log({";
      strq "    service: ~ai-dev-plugin~,";
      strq "    level: ~info~,";
      strq "    message: ~AI Dev System plugin loaded~,";
      str "  })";
      str "";
      str "  return {";
      str "    // Auto-load context when session starts";
      strq "    ~session.created~: async () => {";
      str "      await client.app.log({";
      strq "        service: ~ai-dev-plugin~,";
      strq "        level: ~info~,";
      strq "        message: ~Session created - context available at .ai/context/index.md~,";
      str "      })";
      str "    },";
      str "";
      str "    // Protect sensitive files";
      strq "    ~tool.execute.before~: async (input, output) => {";
      str "      const protectedPatterns = [";
      strq "        ~.env~,";
      strq "        ~credentials~,";
      strq "        ~secrets~,";
      strq "        ~.pem~,";
      strq "        ~.key~,";
      strq "        ~password~,";
      str "      ]";
      str "";
      strq "      if (input.tool === ~read~) {";
      strq "        const filePath = output.args.filePath?.toLowerCase() || ~~";
      str "        for (const pattern of protectedPatterns) {";
      str "          if (filePath.includes(pattern)) {";
      str "            throw new Error(`Protected file access denied: ${pattern}`)";
      str "          }";
      str "        }";
      str "      }";
      str "    },";
      str "";
      str "    // Notify on session completion (macOS)";
      strq "    ~session.idle~: async () => {";
      str "      try {";
      strq "        await $`osascript -e 'display notification ~Task completed!~ with title ~OpenCode~`";
      str "      } catch {";
      str "        // Notification failed, ignore (non-macOS or permission issue)";
      str "      }";
      str "    },";
      str "";
      str "    // Log file edits";
      strq "    ~file.edited~: async ({ path }) => {";
      str "      await client.app.log({";
      strq "        service: ~ai-dev-plugin~,";
      strq "        level: ~debug~,";
      str "        message: `File edited: ${path}`,";
      str "      })";
      str "    },";
      str "  }";
      str "}" ].

(** generatePluginTemplate, lines 227-299. *)
Definition generatePluginTemplate (targetDir : path) : M unit :=
  let pluginDir := pathJoin targetDir [str "plugin"] in
  mkdirSync pluginDir ;;
  writeFileSync (pathJoin pluginDir [str "ai-dev-hooks.ts"]) pluginContent.

(** The skill loop of syncOpenCode, lines 322-335. *)
Definition convertSkills (skillsDir targetSkillsDir : path)
    (skills : list jsstring) : M unit :=
  forOf skills (fun skill =>
    convertSkillToOpenCode (pathJoin skillsDir [skill]) targetSkillsDir skill).

(** The agent loop of syncOpenCode, lines 341-353. *)
Definition convertAgents (agentsDir targetAgentsDir : path)
    (agents : list jsstring) : M unit :=
  forOf agents (fun agent =>
    let agentName := replaceFirst agent (str ".md") [] in
    convertAgentToOpenCode (pathJoin agentsDir [agent]) targetAgentsDir agentName).

(** syncOpenCode, lines 304-383. *)
Definition syncOpenCode (projectDir : path) : M unit :=
  let projectAiDir := pathJoin projectDir [str ".ai"] in
  let openCodeDir := pathJoin projectDir [str ".opencode"] in
  do hasAi <- existsSync projectAiDir;
  let aiDir := if hasAi then projectAiDir else sourceAiDir in
  consoleLog (str "🔄 Syncing to OpenCode format..." ++ nl) ;;
  mkdirSync openCodeDir ;;
  consoleLog (str "📁 Created .opencode/ directory") ;;
  let skillsDir := pathJoin aiDir [str "skills"] in
  let targetSkillsDir := pathJoin openCodeDir [str "skill"] in
  do hasSkills <- existsSync skillsDir;
  (if hasSkills then
     do skills <- readSubdirs skillsDir;
     convertSkills skillsDir targetSkillsDir skills ;;
     consoleLog (str "✅ Converted " ++ numToString (length skills)
                 ++ str " skills to .opencode/skill/")
   else ret tt) ;;
  let agentsDir := pathJoin aiDir [str "agents"] in
  let targetAgentsDir := pathJoin openCodeDir [str "agent"] in
  do hasAgents <- existsSync agentsDir;
  (if hasAgents then
     do names <- readdirSync agentsDir;
     let agents := List.filter (fun f => endsWith f (str ".md")) names in
     convertAgents agentsDir targetAgentsDir agents ;;
     consoleLog (str "✅ Converted " ++ numToString (length agents)
                 ++ str " agents to .opencode/agent/")
   else ret tt) ;;
  let targetCommandDir := pathJoin openCodeDir [str "command"] in
  generateCommands skillsDir targetCommandDir ;;
  consoleLog (str "✅ Generated commands in .opencode/command/") ;;
  generatePluginTemplate openCodeDir ;;
  consoleLog (str "✅ Created plugin template .opencode/plugin/ai-dev-hooks.ts") ;;
  generateOpenCodeConfig openCodeDir projectDir ;;
  consoleLog (str "✅ Generated opencode.json") ;;
  let projectName := basename projectDir in
  generateAgentsMd projectDir projectName ;;
  consoleLog (str "✅ Generated AGENTS.md") ;;
  consoleLog (nl ++ str "🎉 OpenCode sync complete!" ++ nl) ;;
  consoleLog (str "Generated structure:") ;;
  consoleLog (str "  .opencode/") ;;
  consoleLog (str "  ├── skill/        # Converted skills") ;;
  consoleLog (str "  ├── agent/        # Converted agents") ;;
  consoleLog (str "  ├── command/      # Generated commands") ;;
  consoleLog (str "  └── plugin/       # Hook templates") ;;
  consoleLog (str "  opencode.json     # Configuration") ;;
  consoleLog (str "  AGENTS.md         # Project context") ;;
  consoleLog (nl ++ str "Run `opencode` to start using!").

End WithSource.

End Sync.

Export Sync.

(** * JSON values as [JSON.parse] builds them *)

Module Json.

(** A double that JSON text can denote: finite, or an infinity when
    the literal overflows. *)
Inductive number : Type :=
| NFinite (q : QArith_base.Q)
| NInfinity (negative : bool).

Inductive json : Type :=
| JNull
| JBool (b : bool)
| JNum (x : number)
| JStr (s : jsstring)
| JArr (l : list json)
| JObj (kvs : list (jsstring * json)).   (* members in source order *)

(** A JavaScript value read from a property: [None] is [undefined]. *)
Abbreviation jsval := (option json).

(** ToBoolean. *)
Definition truthy (v : jsval) : bool :=
  match v with
  | None => false
  | Some JNull => false
  | Some (JBool b) => b
  | Some (JNum (NFinite q)) => negb (QArith_base.Qeq_bool q (QArith_base.Qmake 0 1))
  | Some (JNum (NInfinity _)) => true
  | Some (JStr s) => negb (bool_decide (s = []))
  | Some (JArr _) => true
  | Some (JObj _) => true
  end.

(** The value of the own property [k] in a member list: of duplicate
    keys the last one counts. *)
Fixpoint objGet (kvs : list (jsstring * json)) (k : jsstring) : jsval :=
  match kvs with
  | [] => None
  | (k', v) :: kvs' =>
      match objGet kvs' k with
      | Some v' => Some v'
      | None => if decide (k' = k) then Some v else None
      end
  end.

(** [j.k] and [j[k]] for a property name that no built-in prototype
    defines and that is neither an index nor [length]: reading a
    property of [null] throws a TypeError, an object yields its own
    property, every other value yields [undefined]. *)
Definition getMember (j : json) (k : jsstring) : M jsval :=
  match j with
  | JNull => throw TypeError
  | JObj kvs => ret (objGet kvs k)
  | _ => ret None
  end.

(** The own enumerable properties that object spread copies:
    the members of an object, the indexed elements of an array, the
    indexed code units of a string, nothing for the other values and
    for [undefined]. *)
Definition ownProps (v : jsval) : list (jsstring * json) :=
  match v with
  | Some (JObj kvs) => kvs
  | Some (JArr l) => imap (fun i x => (numToString i, x)) l
  | Some (JStr s) => imap (fun i c => (numToString i, JStr [c])) s
  | _ => []
  end.

(** [{ ...a, ...b }] *)
Definition spread2 (a b : jsval) : list (jsstring * json) :=
  ownProps a ++ ownProps b.

End Json.

Export Json.

(** * Paths and constants (cli/src/utils/paths.ts, in src/README.md) *)

Module Paths.

(** getTargetAiDir, lines 227-229:
    [path.join(path.resolve(targetDir), '.ai')].  A path of the model
    is absolute and normalized, and [path.resolve] leaves such a path
    as it is. *)
Definition getTargetAiDir (targetDir : path) : path :=
  pathJoin targetDir [str ".ai"].

(** The type [Stack], line 240: the elements of AVAILABLE_STACKS. *)
Inductive Stack : Type :=
| ReactTypescript
| PhpLaravel
| NodeExpress.

#[global] Instance Stack_eq_dec : EqDecision Stack.
Proof. solve_decision. Defined.

Definition stackName (s : Stack) : jsstring :=
  match s with
  | ReactTypescript => str "react-typescript"
  | PhpLaravel => str "php-laravel"
  | NodeExpress => str "node-express"
  end.

(** AVAILABLE_STACKS, lines 234-238. *)
Definition AVAILABLE_STACKS : list Stack :=
  [ReactTypescript; PhpLaravel; NodeExpress].

(** AI_BRIDGES, lines 245-250: an object literal, the tools and their
    bridge directories. *)
Definition AI_BRIDGES : list (jsstring * jsstring) :=
  [ (str "claude", str ".claude");
    (str "cursor", str ".cursor");
    (str "opencode", str ".opencode");
    (str "agent", str ".agent") ].

(** The string-named properties of [Object.prototype], which every
    object literal inherits. *)
Definition objectPrototypeNames : list jsstring :=
  [ str "constructor";
    str "hasOwnProperty";
    str "isPrototypeOf";
    str "propertyIsEnumerable";
    str "toLocaleString";
    str "toString";
    str "valueOf";
    str "__proto__";
    str "__defineGetter__";
    str "__defineSetter__";
    str "__lookupGetter__";
    str "__lookupSetter__" ].

(** [t in AI_BRIDGES]: [t] names an own property of the object or one
    that it inherits. *)
Definition inAiBridges (t : jsstring) : bool :=
  bool_decide (t ∈ AI_BRIDGES.*1) || bool_decide (t ∈ objectPrototypeNames).

(** directoryExists, lines 257-264: [fs.stat(dir)] and [isDirectory()]
    inside [try], [false] from the [catch]. *)
Definition directoryExists (dir : path) : M bool :=
  tryCatch (statIsDirectory dir) (fun _ => ret false).

(** fileExists, lines 269-276. *)
Definition fileExists (filePath : path) : M bool :=
  tryCatch (statIsFile filePath) (fun _ => ret false).

End Paths.

Export Paths.

(** * The stack detector (cli/src/utils/detector.ts) *)

Module Detector.

Inductive Confidence : Type := High | Medium | Low.

Record DetectionResult : Type := Detection {
  stack : option Stack;
  confidence : Confidence;
  reason : jsstring
}.

Section WithParser.

(** [JSON.parse]: [None] when the text is not JSON. *)
Variable parseJson : jsstring → option json.

(** [fs.readJson] of fs-extra: read the file and parse it; a missing
    file, a directory and malformed text all make the call fail. *)
Definition readJson (p : path) : M json :=
  do text <- readFileSync p;
  match parseJson text with
  | Some j => ret j
  | None => throw SyntaxError
  end.

(** [fs.readdir(dir).catch(() => [])] *)
Definition readdirOrEmpty (dir : path) : M (list jsstring) :=
  tryCatch (readdirSync dir) (fun _ => ret []).

(** The composer.json block, lines 17-34: [Some r] is [return r],
    [None] is falling through. *)
Definition checkComposer (resolvedDir : path) : M (option DetectionResult) :=
  let composerPath := pathJoin resolvedDir [str "composer.json"] in
  do found <- fileExists composerPath;
  if found then
    tryCatch
      (do composer <- readJson composerPath;
       do require <- getMember composer (str "require");
       do requireDev <- getMember composer (str "require-dev");
       let deps := spread2 require requireDev in
       if truthy (objGet deps (str "laravel/framework")) then
         ret (Some (Detection (Some PhpLaravel) High
                      (str "Found laravel/framework in composer.json")))
       else ret None)
      (fun _ => ret None)
  else ret None.

(** The package.json block, lines 36-72. *)
Definition checkPackage (resolvedDir : path) : M (option DetectionResult) :=
  let packagePath := pathJoin resolvedDir [str "package.json"] in
  do found <- fileExists packagePath;
  if found then
    tryCatch
      (do pkg <- readJson packagePath;
       do dependencies <- getMember pkg (str "dependencies");
       do devDependencies <- getMember pkg (str "devDependencies");
       let deps := spread2 dependencies devDependencies in
       if truthy (objGet deps (str "react")) || truthy (objGet deps (str "react-dom")) then
         ret (Some (Detection (Some ReactTypescript) High
                      (str "Found react in package.json")))
       else if truthy (objGet deps (str "express")) then
         ret (Some (Detection (Some NodeExpress) High
                      (str "Found express in package.json")))
       else if truthy (objGet deps (str "typescript")) then
         ret (Some (Detection (Some ReactTypescript) Low
                      (str "Found typescript but no specific framework")))
       else ret None)
      (fun _ => ret None)
  else ret None.

(** The extension scan, lines 74-100. *)
Definition scanExtensions (resolvedDir : path) : M DetectionResult :=
  do files <- readdirOrEmpty resolvedDir;
  let hasTsx := existsb (fun f => endsWith f (str ".tsx")) files in
  let hasPhp := existsb (fun f => endsWith f (str ".php")) files in
  if hasTsx then
    ret (Detection (Some ReactTypescript) Medium
           (str "Found .tsx files in project root"))
  else if hasPhp then
    ret (Detection (Some PhpLaravel) Low
           (str "Found .php files (assuming Laravel)"))
  else
    ret (Detection None Low (str "Could not detect stack")).

(** detectStack, lines 14-101.  [projectDir] is the resolved,
    absolute directory. *)
Definition detectStack (projectDir : path) : M DetectionResult :=
  let resolvedDir := projectDir in
  do fromComposer <- checkComposer resolvedDir;
  match fromComposer with
  | Some r => ret r
  | None =>
      do fromPackage <- checkPackage resolvedDir;
      match fromPackage with
      | Some r => ret r
      | None => scanExtensions resolvedDir
      end
  end.

End WithParser.

(** isValidStack, lines 106-108. *)
Definition isValidStack (name : jsstring) : bool :=
  bool_decide (name ∈ map stackName AVAILABLE_STACKS).

End Detector.

Export Detector.

(** * The calls of fs-extra and path that add.ts makes *)

Module FsExtra.

(** The part of [q] below [p], when [q] is [p] or lies under it. *)
Definition stripPrefix (p q : path) : option path :=
  if decide (take (length p) q = p) then Some (drop (length p) q) else None.

(** [fs.copy(src, dest)] for a source and a destination that do not
    overlap: the parent of the destination is created when missing and
    every entry at or below the source is written at the same place
    below the destination, over what is there. *)
Definition copyEntries (f : gmap path entry) (src dest : path) : gmap path entry :=
  map_fold (fun q e acc =>
              match stripPrefix src q with
              | Some rel => <[dest ++ rel := e]> acc
              | None => acc
              end) f f.

Definition copy (src dest : path) : M unit :=
  fun w =>
    match entryAt w src with
    | None => (Throw ENOENT, w)
    | Some _ =>
        (mkdirSync (dirname dest) ;;
         fun w' => (Ok tt, setFiles w' (copyEntries (files w') src dest))) w
    end.

(** [fs.ensureDir] and the promise form of [fs.readdir]. *)
Definition ensureDir (p : path) : M unit := mkdirSync p.
Definition readdir (p : path) : M (list jsstring) := readdirSync p.

(** [xs.join(sep)] *)
Definition joinWith (sep : jsstring) (xs : list jsstring) : jsstring :=
  match xs with
  | [] => []
  | x :: xs' => x ++ flat_map (fun y => sep ++ y) xs'
  end.

(** [path.relative(from, to)] on normalized absolute paths. *)
Fixpoint relativeParts (from to : path) : path :=
  match from, to with
  | a :: from', b :: to' =>
      if decide (a = b) then relativeParts from' to'
      else map (fun _ => dotdot) from ++ to
  | _, _ => map (fun _ => dotdot) from ++ to
  end.

Definition relative (from to : path) : jsstring :=
  joinWith [slash] (relativeParts from to).

End FsExtra.

Export FsExtra.

(** * The add command (cli/src/commands/add.ts) *)

Module Add.

Section WithEnvironment.

(** [getSourceAiDir()] and [process.cwd()]. *)
Variable sourceDir : path.
Variable cwd : path.

(** The styles of chalk, which wrap a text in the escape codes of
    the terminal (or leave it as it is when colours are off). *)
Variables gray red bold cyan : jsstring → jsstring.

(** The text of a caught error in a template literal. *)
Variable errorText : errno → jsstring.

(** addStack, lines 45-86. *)
Definition addStack (targetAiDir : path) (name : jsstring) : M unit :=
  if negb (isValidStack name) then
    emit (SpinFail (str "Invalid stack: " ++ name)) ;;
    consoleLog (gray (str "Available stacks: "
                      ++ joinWith (str ", ") (map stackName AVAILABLE_STACKS)))
  else
    let srcPath := pathJoin sourceDir [str "stacks"; name] in
    let destPath := pathJoin targetAiDir [str "stacks"; name] in
    do inSource <- directoryExists srcPath;
    if negb inSource then
      emit (SpinFail (str "Stack not found in source: " ++ name))
    else
      do present <- directoryExists destPath;
      if present then
        emit (SpinWarn (str "Stack already exists: " ++ name)) ;;
        consoleLog (gray (str "  Use `ai-dev update --stack " ++ name
                          ++ str "` to update"))
      else
        copy srcPath destPath ;;
        emit (SpinSucceed (str "Added stack: " ++ cyan name)) ;;
        consoleLog (gray (str "  Location: .ai/stacks/" ++ name ++ str "/")) ;;
        do items <- readdir destPath;
        consoleLog (gray (str "  Contents:")) ;;
        forOf items (fun item => consoleLog (gray (str "    - " ++ item))).

(** The loop of lines 103-110: the first stack that has the skill
    replaces the two paths and ends the loop. *)
Fixpoint findInStacks (targetAiDir : path) (name : jsstring)
    (stacks : list jsstring) (current : path * path) : M (path * path) :=
  match stacks with
  | [] => ret current
  | stack :: stacks' =>
      let stackSkillPath :=
        pathJoin sourceDir [str "stacks"; stack; str "skills"; name] in
      do found <- directoryExists stackSkillPath;
      if found then
        ret (stackSkillPath,
             pathJoin targetAiDir [str "stacks"; stack; str "skills"; name])
      else findInStacks targetAiDir name stacks' current
  end.

(** The listing of lines 117-137. *)
Definition listSkills (heading : jsstring) (skills : list jsstring) : M unit :=
  if (0 <? length skills)%nat then
    consoleLog (gray heading) ;;
    forOf skills (fun s => consoleLog (gray (str "    - " ++ s)))
  else ret tt.

Definition listAvailableSkills : M unit :=
  consoleLog (gray (nl ++ str "Available skills:")) ;;
  do mainSkills <- readdirOrEmpty (pathJoin sourceDir [str "skills"]);
  listSkills (str "  Core skills:") mainSkills ;;
  do stacks <- readdirOrEmpty (pathJoin sourceDir [str "stacks"]);
  forOf stacks (fun stack =>
    let stackSkillsDir := pathJoin sourceDir [str "stacks"; stack; str "skills"] in
    do isDir <- directoryExists stackSkillsDir;
    if isDir then
      do stackSkills <- readdir stackSkillsDir;
      listSkills (str "  " ++ stack ++ str " skills:") stackSkills
    else ret tt).

(** addSkill, lines 88-154. *)
Definition addSkill (targetAiDir : path) (name : jsstring) : M unit :=
  let srcPath0 := pathJoin sourceDir [str "skills"; name] in
  let destPath0 := pathJoin targetAiDir [str "skills"; name] in
  do inMain <- directoryExists srcPath0;
  do paths <-
    (if negb inMain then
       do stacks <- readdir (pathJoin sourceDir [str "stacks"]);
       findInStacks targetAiDir name stacks (srcPath0, destPath0)
     else ret (srcPath0, destPath0));
  let srcPath := paths.1 in
  let destPath := paths.2 in
  do inSource <- directoryExists srcPath;
  if negb inSource then
    emit (SpinFail (str "Skill not found: " ++ name)) ;;
    listAvailableSkills
  else
    do present <- directoryExists destPath;
    if present then
      emit (SpinWarn (str "Skill already exists: " ++ name))
    else
      ensureDir (dirname destPath) ;;
      copy srcPath destPath ;;
      emit (SpinSucceed (str "Added skill: " ++ cyan name)) ;;
      consoleLog (gray (str "  Location: " ++ relative cwd destPath ++ str "/")).

(** add, lines 10-43. *)
Definition add (type name : jsstring) : M unit :=
  let targetDir := cwd in
  let targetAiDir := getTargetAiDir targetDir in
  consoleLog (bold (nl ++ str "➕ Adding " ++ type ++ str ": " ++ name ++ nl)) ;;
  do initialized <- directoryExists targetAiDir;
  if negb initialized then
    consoleLog (red (str "Error: .ai directory not found.")) ;;
    consoleLog (gray (str "Run `ai-dev init` first to initialize the project."))
  else if negb (bool_decide (type = str "stack"))
          && negb (bool_decide (type = str "skill")) then
    consoleLog (red (str "Invalid type: " ++ type)) ;;
    consoleLog (gray (str "Valid types: stack, skill"))
  else
    emit (SpinStart (str "Adding " ++ type ++ str "...")) ;;
    tryCatch
      (if bool_decide (type = str "stack") then addStack targetAiDir name
       else addSkill targetAiDir name)
      (fun error =>
         emit (SpinFail (str "Failed to add " ++ type)) ;;
         consoleLog (red (str "  Error: " ++ errorText error))).

End WithEnvironment.

End Add.

Export Add.

(** * The directory synchronizer *)

Module Copy.

(** The options of the call in init.ts, lines 160-164. *)
Record CopyOptions : Type := Options {
  optStack : option Stack;
  overwrite : bool
}.

Record CopyResult : Type := Result {
  copied : list path;
  skipped : list path;
  errors : list path
}.

(** Modelled from the spec: the content tree, a read-only hierarchy of
    files; here the map from the path of each file, relative to the
    source root, to its text. *)
Abbreviation tree := (gmap path jsstring).

(** Modelled from the spec: the relevant subset of the source tree
    under a stack filter; everything outside [stacks/], and below
    [stacks/] the subtree of the chosen stack.  Without a filter all
    stacks are copied. *)
Definition relevant (filter : option Stack) (rel : path) : bool :=
  match filter, rel with
  | Some s, d :: n :: _ =>
      if decide (d = str "stacks") then bool_decide (n = stackName s) else true
  | _, _ => true
  end.

Definition addCopied (r : CopyResult) (p : path) : CopyResult :=
  Result (copied r ++ [p]) (skipped r) (errors r).
Definition addSkipped (r : CopyResult) (p : path) : CopyResult :=
  Result (copied r) (skipped r ++ [p]) (errors r).
Definition addError (r : CopyResult) (p : path) : CopyResult :=
  Result (copied r) (skipped r) (errors r ++ [p]).

(** Modelled from the spec: one item of the copy; an existing target
    is left untouched unless the overwrite flag is set, and a failure
    is recorded without ending the operation. *)
Definition copyItem (targetRoot : path) (force : bool)
    (item : path * jsstring) (r : CopyResult) : M CopyResult :=
  let dest := targetRoot ++ item.1 in
  do present <- existsSync dest;
  if present && negb force then ret (addSkipped r item.1)
  else
    tryCatch
      (mkdirSync (dirname dest) ;;
       writeFileSync dest item.2 ;;
       ret (addCopied r item.1))
      (fun _ => ret (addError r item.1)).

Fixpoint copyItems (targetRoot : path) (force : bool)
    (items : list (path * jsstring)) (r : CopyResult) : M CopyResult :=
  match items with
  | [] => ret r
  | item :: items' =>
      do r' <- copyItem targetRoot force item r;
      copyItems targetRoot force items' r'
  end.

(** Modelled from the spec: copyAiDirectory of utils/copy.js, which is
    not among the sources (section 4.2 of the specification): given a
    source tree and a target root, plus an optional stack filter and
    an overwrite flag, copy the relevant subset of the source tree
    into the target and return the lists of copied, skipped and
    errored relative paths. *)
Definition copyAiDirectory (source : tree) (targetRoot : path)
    (options : CopyOptions) : M CopyResult :=
  copyItems targetRoot (overwrite options)
    (List.filter (fun item => relevant (optStack options) item.1)
                 (map_to_list source))
    (Result [] [] []).

End Copy.

Export Copy.

(** * The Claude side of the sync command (sync.ts, lines 385-499) *)

Module SyncClaude.

Section WithSource.

(** [getSourceAiDir()] of utils/paths.js. *)
Variable sourceAiDir : path.

(** The skill list of the template literal, lines 452-454. *)
Definition claudeSkillList (skillsDir : path) : M jsstring :=
  do found <- existsSync skillsDir;
  if found then
    do skills <- readSubdirs skillsDir;
    ret (joinWith nl (map (fun s => str "- " ++ s) skills))
  else ret (str "- (none)").

(** [claudeMdContent], lines 427-455. *)
Definition claudeMdContent (projectName skillList : jsstring) : jsstring :=
  template
    [ str "# " ++ projectName;
      str "";
      str "## Project Overview";
      str "";
      str "[Brief description of the project]";
      str "";
      str "## Tech Stack";
      str "";
      str "[List the main technologies used]";
      str "";
      str "## Development Commands";
      str "";
      str "```bash";
      str "npm install && npm run dev";
      str "```";
      str "";
      str "## Context";
      str "";
      str "This project uses ai-dev-system. Load context from:";
      str "- `.ai/context/index.md` - Main context index";
      str "- `.ai/stacks/` - Tech stack standards";
      str "";
      str "## Skills";
      str "";
      str "Custom skills are available in `.claude/skills/`:";
      skillList ].

(** syncClaude, lines 388-464. *)
Definition syncClaude (projectDir : path) : M unit :=
  let projectAiDir := pathJoin projectDir [str ".ai"] in
  let claudeDir := pathJoin projectDir [str ".claude"] in
  do hasAi <- existsSync projectAiDir;
  let aiDir := if hasAi then projectAiDir else sourceAiDir in
  consoleLog (str "🔄 Syncing to Claude Code format..." ++ nl) ;;
  mkdirSync (pathJoin claudeDir [str "commands"]) ;;
  mkdirSync (pathJoin claudeDir [str "skills"]) ;;
  consoleLog (str "📁 Created .claude/ directory") ;;
  let skillsDir := pathJoin aiDir [str "skills"] in
  let targetSkillsDir := pathJoin claudeDir [str "skills"] in
  do hasSkills <- existsSync skillsDir;
  (if hasSkills then
     do skills <- readSubdirs skillsDir;
     convertSkills skillsDir targetSkillsDir skills ;;
     consoleLog (str "✅ Converted " ++ numToString (length skills)
                 ++ str " skills to .claude/skills/")
   else ret tt) ;;
  generateCommands skillsDir (pathJoin claudeDir [str "commands"]) ;;
  consoleLog (str "✅ Generated commands in .claude/commands/") ;;
  let projectName := basename projectDir in
  do skillList <- claudeSkillList skillsDir;
  let claudeMdContent := claudeMdContent projectName skillList in
  let claudeMdPath := pathJoin projectDir [str "CLAUDE.md"] in
  do found <- existsSync claudeMdPath;
  (if negb found then
     writeFileSync claudeMdPath claudeMdContent ;;
     consoleLog (str "✅ Generated CLAUDE.md")
   else ret tt) ;;
  consoleLog (nl ++ str "🎉 Claude Code sync complete!" ++ nl).

(** The action of [sync all], lines 494-498. *)
Definition syncAll (projectDir : path) : M unit :=
  syncOpenCode sourceAiDir projectDir ;;
  consoleLog (nl ++ str "---" ++ nl) ;;
  syncClaude projectDir.

End WithSource.

End SyncClaude.

Export SyncClaude.

(** * The init command (cli/src/commands/init.ts) *)

Module InitCommand.

(** [InitOptions], lines 116-121.  [optDir] is the directory given
    with [--dir], resolved to an absolute path. *)
Record InitOptions : Type := InitOpts {
  optStackName : option jsstring;
  optAi : option jsstring;
  optDir : option path;
  optBridge : option bool
}.

(** The result of copyAiDirectory and createBridges, as init reads
    it. *)
Record CopyOutcome : Type := Outcome {
  success : bool;
  copiedItems : list jsstring;
  skippedItems : list jsstring;
  errorItems : list jsstring
}.

(** The options that init passes to copyAiDirectory, lines 160-164;
    for the tools [None] is ['all']. *)
Record InitCopyOptions : Type := CopyOpts {
  copyStack : option jsstring;
  copyAiTools : option (list jsstring);
  copyOverwrite : bool
}.

(** [s.split(sep)] for a separator of one code unit. *)
Fixpoint splitOn (sep : N) (acc s : jsstring) : list jsstring :=
  match s with
  | [] => [rev acc]
  | c :: s' =>
      if c =? sep then rev acc :: splitOn sep [] s'
      else splitOn sep (c :: acc) s'
  end.

Fixpoint trimStart (s : jsstring) : jsstring :=
  match s with
  | c :: s' => if isSpace c then trimStart s' else s
  | [] => []
  end.

(** [s.trim()] *)
Definition trim (s : jsstring) : jsstring :=
  rev (trimStart (rev (trimStart s))).

(** A path as text. *)
Definition pathText (p : path) : jsstring :=
  match p with
  | [] => [slash]
  | _ => flat_map (fun c => slash :: c) p
  end.

Definition confidenceText (c : Confidence) : jsstring :=
  match c with
  | High => str "high"
  | Medium => str "medium"
  | Low => str "low"
  end.

Section WithEnvironment.

(** [getSourceAiDir()] and the directory that [path.resolve('.')]
    yields. *)
Variable sourceDir : path.
Variable cwd : path.

(** The styles of chalk. *)
Variables bold gray cyan yellow green red : jsstring → jsstring.

Variable parseJson : jsstring → option json.

(** copyAiDirectory and createBridges of utils/copy.js, which is not
    among the sources. *)
Variable copyAiDirectory : path → path → InitCopyOptions → M CopyOutcome.
Variable createBridges : path → option (list jsstring) → M CopyOutcome.

(** The choice of the tools, lines 188-197: [None] is ['all']. *)
Definition selectTools (ai : option jsstring) : option (list jsstring) :=
  match ai with
  | Some text =>
      if negb (bool_decide (text = [])) && negb (bool_decide (text = str "all"))
      then
        let requestedTools := map trim (splitOn 44 [] text) in
        let validTools := List.filter inAiBridges requestedTools in
        if (0 <? length validTools)%nat then Some validTools else None
      else None
  | None => None
  end.

(** Step 1, lines 131-155: [Some stack] goes on with the stack (or
    without one), [None] is the return of line 143.  An empty text is
    falsy, like a flag that was not given. *)
Definition chooseStack (options : InitOptions) (targetDir : path)
  : M (option (option jsstring)) :=
  emit (SpinStart (str "Detecting technology stack...")) ;;
  let flag :=
    match optStackName options with
    | Some name => if bool_decide (name = []) then None else Some name
    | None => None
    end in
  match flag with
  | Some name =>
      if isValidStack name then
        emit (SpinSucceed (str "Using specified stack: " ++ cyan name)) ;;
        ret (Some (Some name))
      else
        emit (SpinFail (str "Invalid stack: " ++ name)) ;;
        consoleLog (yellow (str "  Available stacks: react-typescript, php-laravel, node-express")) ;;
        ret None
  | None =>
      do detection <- detectStack parseJson targetDir;
      match stack detection with
      | Some s =>
          emit (SpinSucceed (str "Detected stack: " ++ cyan (stackName s)
                             ++ str " (" ++ confidenceText (confidence detection)
                             ++ str " confidence)")) ;;
          consoleLog (gray (str "  Reason: " ++ reason detection)) ;;
          ret (Some (Some (stackName s)))
      | None =>
          emit (SpinWarn (str "Could not detect stack, copying all stacks")) ;;
          ret (Some None)
      end
  end.

(** The report of lines 166-182 and 201-211. *)
Definition reportItems (style : jsstring → jsstring) (mark : jsstring)
    (items : list jsstring) : M unit :=
  forOf items (fun item => consoleLog (style (str "  " ++ mark ++ str " " ++ item))).

(** Step 2, lines 157-182. *)
Definition copyStep (targetDir : path) (stack : option jsstring) : M unit :=
  emit (SpinStart (str "Copying .ai directory...")) ;;
  do copyResult <- copyAiDirectory sourceDir targetDir (CopyOpts stack None false);
  (if success copyResult && (0 <? length (copiedItems copyResult))%nat then
     emit (SpinSucceed (str "Copied .ai directory")) ;;
     reportItems green (str "✓") (copiedItems copyResult)
   else if (0 <? length (skippedItems copyResult))%nat then
     emit (SpinWarn (str "Some items skipped")) ;;
     reportItems yellow (str "⊘") (skippedItems copyResult)
   else ret tt) ;;
  (if (0 <? length (errorItems copyResult))%nat then
     reportItems red (str "✗") (errorItems copyResult)
   else ret tt).

(** Step 3, lines 184-212. *)
Definition bridgeStep (options : InitOptions) (targetDir : path) : M unit :=
  if negb (bool_decide (optBridge options = Some false)) then
    emit (SpinStart (str "Creating AI tool bridges...")) ;;
    let aiTools := selectTools (optAi options) in
    do bridgeResult <- createBridges targetDir aiTools;
    if (0 <? length (copiedItems bridgeResult))%nat then
      emit (SpinSucceed (str "Created AI tool bridges")) ;;
      reportItems green (str "✓") (copiedItems bridgeResult)
    else if (0 <? length (skippedItems bridgeResult))%nat then
      emit (SpinWarn (str "Some bridges skipped")) ;;
      reportItems yellow (str "⊘") (skippedItems bridgeResult)
    else ret tt
  else ret tt.

(** The summary, lines 214-222. *)
Definition summary (stack : option jsstring) : M unit :=
  consoleLog (bold (nl ++ str "✨ Initialization complete!" ++ nl)) ;;
  consoleLog (gray (str "Next steps:")) ;;
  consoleLog (gray (str "  1. Review .ai/context/index.md for context loading rules")) ;;
  consoleLog (gray (str "  2. Configure your AI tool to use the bridge directory")) ;;
  (match stack with
   | Some name =>
       if negb (bool_decide (name = [])) then
         consoleLog (gray (str "  3. Stack-specific standards: .ai/stacks/"
                           ++ name ++ str "/"))
       else ret tt
   | None => ret tt
   end) ;;
  consoleLog [].

(** init, lines 123-223. *)
Definition init (options : InitOptions) : M unit :=
  let targetDir := default cwd (optDir options) in
  consoleLog (bold (nl ++ str "🚀 Initializing ai-dev-system" ++ nl)) ;;
  consoleLog (gray (str "  Target: " ++ pathText targetDir)) ;;
  consoleLog (gray (str "  Source: " ++ pathText sourceDir ++ nl)) ;;
  do chosen <- chooseStack options targetDir;
  match chosen with
  | None => ret tt
  | Some stack =>
      copyStep targetDir stack ;;
      bridgeStep options targetDir ;;
      summary stack
  end.

End WithEnvironment.

End InitCommand.

Export InitCommand.

(** * Lines of a text, as the patterns of the converter see them *)

Module Lines.

(** The two patterns of the converter have the shape
    [^ c q (.+) $], with [q] one of [\s*] and [\s+]. *)
Definition linePattern (c : N) (q : node) : list node :=
  [Bol; One (CChar c); q; Group [Plus CAny]; Eol].

Definition isSpaceRun (q : node) : Prop := q = Star CSpace ∨ q = Plus CSpace.

(** The code unit before the position reached after [run]. *)
Fixpoint prevAfter (p : option N) (run : jsstring) : option N :=
  match run with
  | [] => p
  | c :: run' => prevAfter (Some c) run'
  end.

(** No line of [s] begins with [c]; [p] is the code unit before [s]. *)
Fixpoint noLineStartWith (c : N) (p : option N) (s : jsstring) : bool :=
  match s with
  | [] => true
  | x :: s' => negb (atLineStart p && (c =? x)) && noLineStartWith c (Some x) s'
  end.

(** A text that begins with something other than white space. *)
Definition startsText (text : jsstring) : bool :=
  match text with
  | [] => false
  | c :: _ => negb (isSpace c)
  end.

(** Reading a frontmatter block back: the text must open with a line
    [---]; the lines up to the next line [---] are the header, what
    follows that line is the body. *)
Fixpoint scanHeader (lines : list jsstring) (cur : jsstring) (s : jsstring)
  : option (list jsstring * jsstring) :=
  match s with
  | [] => None
  | c :: s' =>
      if c =? 10 then
        if decide (rev cur = str "---") then Some (rev lines, s')
        else scanHeader (rev cur :: lines) [] s'
      else scanHeader lines (c :: cur) s'
  end.

Definition readFrontmatter (s : jsstring) : option (list jsstring * jsstring) :=
  if startsWith s (str "---" ++ nl) then scanHeader [] [] (drop 4 s) else None.

End Lines.

Export Lines.

(** * Notions used to state the properties *)

Module Notions.

(** A line that can stand between the delimiters of a frontmatter
    block: no line feed in it, and not itself a delimiter. *)
Definition headerLine (l : jsstring) : Prop :=
  forallb (fun c => negb (c =? 10)) l = true ∧ l ≠ str "---".

(** The lines between the delimiters of a converted skill. *)
Definition skillHeaderLines (skillName description : jsstring) : list jsstring :=
  [ str "name: " ++ skillName;
    str "description: " ++ description;
    str "license: MIT";
    str "compatibility: opencode";
    str "metadata:";
    str "  source: ai-dev-system" ].

(** Deciding whether a text is a name. *)
Definition validNameb (n : jsstring) : bool :=
  negb (bool_decide (n = [])) && negb (bool_decide (n = dot))
  && negb (bool_decide (n = dotdot)) && forallb (fun c => negb (c =? slash)) n.

(** Every path of the file system is made of names. *)
Definition wfFiles (f : gmap path entry) : Prop :=
  ∀ p e, f !! p = Some e → Forall validName p.

(** The entries at the paths in [P] are the same in [f'] as in [f]. *)
Definition keeps (P : path → Prop) (f f' : gmap path entry) : Prop :=
  ∀ p e, P p → f !! p = Some e → f' !! p = Some e.

(** A computation that keeps the paths of the file system made of
    names, leaves the entries at the paths in [P] as they are, and
    whose result, when it returns one, satisfies [Q]. *)
Definition safe (P : path → Prop) {A} (m : M A) (Q : A → Prop) : Prop :=
  ∀ w, wfFiles (files w) →
    wfFiles (files (m w).2) ∧ keeps P (files w) (files (m w).2)
    ∧ ∀ a, (m w).1 = Ok a → Q a.

Definition anything {A} : A → Prop := fun _ => True.

(** Calls that only read. *)
Definition readsOnly {A} (m : M A) : Prop :=
  ∀ w, files (m w).2 = files w.

(** No path at or below [d] is in [P]. *)
Definition outside (d : path) (P : path → Prop) : Prop :=
  ∀ q, d `prefix_of` q → ¬ P q.

(** The paths that syncOpenCode may rewrite: [opencode.json] in the
    project directory and everything under [.opencode]. *)
Definition generated (projectDir p : path) : Prop :=
  p = projectDir ++ [str "opencode.json"]
  ∨ (projectDir ++ [str ".opencode"]) `prefix_of` p.

(** [j.k] when it does not throw. *)
Definition memberOf (j : json) (k : jsstring) : jsval :=
  match j with
  | JObj kvs => objGet kvs k
  | _ => None
  end.

(** The manifest is a file that parses, and the table the detector
    builds from its two sections has a truthy entry under [name]. *)
Definition declares (parseJson : jsstring → option json) (w : world)
    (manifest : path) (k1 k2 name : jsstring) : bool :=
  match entryAt w manifest with
  | Some (File text) =>
      match parseJson text with
      | None => false
      | Some JNull => false
      | Some j => truthy (objGet (spread2 (memberOf j k1) (memberOf j k2)) name)
      end
  | _ => false
  end.

(** The names a section of a manifest lists. *)
Definition objectKeys (v : jsval) : list jsstring :=
  match v with
  | Some (JObj kvs) => kvs.*1
  | _ => []
  end.

Definition sectionKeys (j : json) (k : jsstring) : list jsstring :=
  objectKeys (memberOf j k).

(** The manifest is absent, is not a file, is malformed, or lists none
    of the [known] names in its two sections. *)
Definition lacks (parseJson : jsstring → option json) (w : world)
    (manifest : path) (k1 k2 : jsstring) (known : list jsstring) : Prop :=
  ∀ text j,
    entryAt w manifest = Some (File text) → parseJson text = Some j →
    ∀ name, name ∈ known → name ∉ sectionKeys j k1 ++ sectionKeys j k2.

Definition isDigit (c : N) : bool := (48 <=? c) && (c <=? 57).

(** A parser given by a table, for examples. *)
Definition parseTable (table : list (jsstring * json)) (text : jsstring)
  : option json := objGet table text.

(** A name with a code unit that is not a digit: no array index. *)
Definition named (name : jsstring) : Prop := forallb isDigit name = false.

(** Example manifests. *)
(** Example manifests and a project directory that holds them. *)
Definition composerLaravel : json :=
  JObj [(str "require", JObj [(str "laravel/framework", JStr (str "^10.0"))])].

Definition packageReactExpress : json :=
  JObj [(str "dependencies",
         JObj [(str "express", JStr (str "^4.18.0"));
               (str "react", JStr (str "^18.0.0"))])].

Definition packageTypescript : json :=
  JObj [(str "devDependencies",
         JObj [(str "typescript", JStr (str "^5.0.0"))])].

Definition exampleParser : jsstring → option json :=
  parseTable [(str "composer", composerLaravel);
              (str "package", packageReactExpress);
              (str "ts", packageTypescript)].

Definition projectWith (manifests : list (jsstring * jsstring)) : world :=
  World (foldr (fun m f => <[ [str "p"; m.1] := File m.2 ]> f)
               (<[ [str "p"] := Dir ]> ∅) manifests) [].

(** The entry at a path, as a function of the files alone. *)
Definition entryF (f : gmap path entry) (p : path) : option entry :=
  match p with
  | [] => Some Dir
  | _ => f !! p
  end.

(** The names in a directory; none when it cannot be read. *)
Definition dirNames (f : gmap path entry) (p : path) : list jsstring :=
  match entryF f p with
  | Some Dir => children f p
  | _ => []
  end.

(** A computation that returns, changes no file, and prints the
    events [ev], which may depend on the files. *)
Definition says (m : M unit) (ev : gmap path entry → list event) : Prop :=
  ∀ w, m w = (Ok tt, World (files w) (console w ++ ev (files w))).

(** A computation that returns a value read from the files and
    changes nothing. *)
Definition reads {A} (m : M A) (v : gmap path entry → A) : Prop :=
  ∀ w, m w = (Ok (v (files w)), w).

Section Listing.

Variable sourceDir : path.
Variable gray : jsstring → jsstring.

(** The lines that listSkills prints. *)
Definition skillLines (heading : jsstring) (skills : list jsstring) : list event :=
  if (0 <? length skills)%nat then
    Log (gray heading) :: map (fun s => Log (gray (str "    - " ++ s))) skills
  else [].

Definition stackSkillLines (f : gmap path entry) (stack : jsstring) : list event :=
  let d := pathJoin sourceDir [str "stacks"; stack; str "skills"] in
  match entryF f d with
  | Some Dir => skillLines (str "  " ++ stack ++ str " skills:") (children f d)
  | _ => []
  end.

(** The lines that listAvailableSkills prints. *)
Definition listingEvents (f : gmap path entry) : list event :=
  [Log (gray (nl ++ str "Available skills:"))]
  ++ skillLines (str "  Core skills:") (dirNames f (pathJoin sourceDir [str "skills"]))
  ++ flat_map (stackSkillLines f) (dirNames f (pathJoin sourceDir [str "stacks"])).

End Listing.

(** What one item does when nothing is forced. *)
Inductive verdict : Type := Copied | Skipped | Failed.

Definition record (v : verdict) (r : CopyResult) (rel : path) : CopyResult :=
  match v with
  | Copied => addCopied r rel
  | Skipped => addSkipped r rel
  | Failed => addError r rel
  end.

(** The paths of the source tree that a run copies under the filter. *)
Definition relevantPaths (source : tree) (filter : option Stack) : list path :=
  (List.filter (fun item => relevant filter item.1) (map_to_list source)).*1.

(** The paths that [sync all] may rewrite. *)
Definition generatedByAll (projectDir p : path) : Prop :=
  generated projectDir p ∨ (projectDir ++ [str ".claude"]) `prefix_of` p.

(** No file is new in [f']: what [f'] has beyond [f] are directories. *)
Definition onlyNewDirs (f f' : gmap path entry) : Prop :=
  ∀ p c, f' !! p = Some (File c) → f !! p = Some (File c).

(** The line that add prints first. *)
Definition addBanner (bold : jsstring → jsstring) (type name : jsstring) : event :=
  Log (bold (nl ++ str "➕ Adding " ++ type ++ str ": " ++ name ++ nl)).

(** A computation that returns from every world. *)
Definition returns {A} (m : M A) : Prop :=
  ∀ w, ∃ a w', m w = (Ok a, w').

(** The directory from which sync takes skills and agents: the [.ai]
    of the project when there is one, the packaged one otherwise. *)
Definition syncSource (f : gmap path entry) (sourceAiDir projectDir : path) : path :=
  if bool_decide (is_Some (f !! (projectDir ++ [str ".ai"])))
  then projectDir ++ [str ".ai"] else sourceAiDir.

(** The places under [.opencode] where syncOpenCode needs a
    directory, and those where it writes a file. *)
Definition openCodeDirs (openCodeDir p : path) : Prop :=
  p `prefix_of` openCodeDir
  ∨ p = openCodeDir ++ [str "skill"]
  ∨ p = openCodeDir ++ [str "agent"]
  ∨ p = openCodeDir ++ [str "command"]
  ∨ p = openCodeDir ++ [str "plugin"]
  ∨ ∃ n, p = openCodeDir ++ [str "skill"; n].

Definition openCodeFiles (openCodeDir p : path) : Prop :=
  p = openCodeDir ++ [str "plugin"; str "ai-dev-hooks.ts"]
  ∨ (∃ n, p = openCodeDir ++ [str "skill"; n; str "SKILL.md"])
  ∨ (∃ n, p = openCodeDir ++ [str "agent"; n])
  ∨ ∃ n, p = openCodeDir ++ [str "command"; n].

(** No file stands where sync needs a directory and no directory
    where it writes a file. *)
Definition layoutFree (f : gmap path entry) (openCodeDir : path) : Prop :=
  (∀ p c, openCodeDirs openCodeDir p → f !! p ≠ Some (File c))
  ∧ (∀ p, openCodeFiles openCodeDir p → f !! p ≠ Some Dir).

(** The skills and agents can be read: neither directory is a file,
    no [SKILL.md] of a skill folder is a directory, and no entry of
    [agents] that ends in [.md] is one. *)
Definition sourcesReadable (f : gmap path entry) (aiDir : path) : Prop :=
  (∀ c, f !! (aiDir ++ [str "skills"]) ≠ Some (File c))
  ∧ (∀ n, f !! (aiDir ++ [str "skills"; n]) = Some Dir →
          f !! (aiDir ++ [str "skills"; n; str "SKILL.md"]) ≠ Some Dir)
  ∧ (∀ c, f !! (aiDir ++ [str "agents"]) ≠ Some (File c))
  ∧ (∀ n, endsWith n (str ".md") = true →
          f !! (aiDir ++ [str "agents"; n]) ≠ Some Dir).

(** Neither path lies at or under the other. *)
Definition apart (p q : path) : Prop :=
  ¬ p `prefix_of` q ∧ ¬ q `prefix_of` p.

(** The description of a generated command, lines 99-100. *)
Definition commandDescription (skill content : jsstring) : jsstring :=
  match smatch content quotePattern with
  | Some descMatch => group1 descMatch
  | None => str "Run " ++ skill ++ str " skill"
  end.

(** The name under which an agent file is converted, lines 345 and 78. *)
Definition agentTarget (agent : jsstring) : jsstring :=
  replaceFirst agent (str ".md") [] ++ str ".md".

(** What sync leaves at the target of an agent file: the conversion
    of an agent file with that target. *)
Definition agentConverted (f0 : gmap path entry) (aiDir openCodeDir : path)
    (a : jsstring) (f : gmap path entry) : Prop :=
  ∃ a' c,
    agentTarget a' = agentTarget a
    ∧ endsWith a' (str ".md") = true
    ∧ f0 !! (aiDir ++ [str "agents"; a']) = Some (File c)
    ∧ f !! (openCodeDir ++ [str "agent"; agentTarget a])
      = Some (File (agentOpenCodeContent (replaceFirst a' (str ".md") []) c)).

(** What holds between the steps of syncOpenCode: the paths are made
    of names, the entries apart from [.opencode] are those of [f0],
    and the layout is free. *)
Definition Good (f0 : gmap path entry) (openCodeDir : path)
    (f : gmap path entry) : Prop :=
  wfFiles f
  ∧ (∀ p, apart p openCodeDir → f !! p = f0 !! p)
  ∧ layoutFree f openCodeDir.

(** Manifests that list a known name with an empty version text, and
    a parser for them. *)
Definition composerLaravelUnset : json :=
  JObj [(str "require", JObj [(str "laravel/framework", JStr [])])].

Definition packageReactUnset : json :=
  JObj [(str "dependencies", JObj [(str "react", JStr [])])].

Definition unsetParser : jsstring → option json :=
  parseTable [(str "composer", composerLaravelUnset);
              (str "package", packageReactExpress);
              (str "react-unset", packageReactUnset)].

(** One part of an [--ai] value: a name with white space around it. *)
Record flagPart : Type := FlagPart {
  leadingSpace : jsstring;
  partName : jsstring;
  trailingSpace : jsstring
}.

Definition partText (p : flagPart) : jsstring :=
  leadingSpace p ++ partName p ++ trailingSpace p.

(** The parts joined by commas. *)
Definition aiFlag (parts : list flagPart) : jsstring :=
  joinWith [44] (map partText parts).

(** The padding is white space, and the name has no comma and no
    white space at either end. *)
Definition wellPadded (p : flagPart) : Prop :=
  forallb isSpace (leadingSpace p) = true
  ∧ forallb isSpace (trailingSpace p) = true
  ∧ forallb (fun c => negb (c =? 44)) (partName p) = true
  ∧ trimStart (partName p) = partName p
  ∧ trimStart (rev (partName p)) = rev (partName p).

End Notions.

Export Notions.

(** * Facts about the matcher *)

Module RegexFacts.

Lemma runNode_Group r st :
  runNode (Group r) st =
  map (fun st' => MState (prev st') (rest st')
                    (caps st' ++ [consumed (rest st) (rest st')]))
      (runSeq r st).
Proof. reflexivity. Qed.

(** Every outcome of a greedy repetition has consumed a run of the
    class. *)
Lemma starRun_spec k p s ps :
  In ps (starRun k p s) →
  ∃ run, s = run ++ ps.2 ∧ forallb (inClass k) run = true.
Proof.
  revert p. induction s as [|c s IH]; intros p; simpl.
  - intros [<-|[]]. by exists [].
  - destruct (inClass k c) eqn:Hc.
    + rewrite in_app_iff. intros [Hin|[<-|[]]].
      * destruct (IH _ Hin) as (run & -> & Hrun).
        exists (c :: run). simpl. by rewrite Hc, Hrun.
      * by exists [].
    + intros [<-|[]]. by exists [].
Qed.

Lemma consumed_app (run s : jsstring) : consumed (run ++ s) s = run.
Proof.
  unfold consumed. rewrite length_app.
  replace (length run + length s - length s)%nat with (length run) by lia.
  by rewrite take_app_length.
Qed.

(** The first outcome of a greedy repetition is the longest run. *)
Lemma starRun_head k p run s :
  forallb (inClass k) run = true →
  match s with [] => true | c :: _ => negb (inClass k c) end = true →
  ∃ t, starRun k p (run ++ s) = (prevAfter p run, s) :: t.
Proof.
  intros Hrun Hs. revert p. induction run as [|c run IH]; intros p.
  - simpl. destruct s as [|c s]; [by exists []|].
    simpl. apply negb_true_iff in Hs. rewrite Hs. by exists [].
  - simpl in Hrun. apply andb_true_iff in Hrun as [Hc Hrun].
    simpl. rewrite Hc. destruct (IH Hrun (Some c)) as [t ->].
    simpl. by eexists.
Qed.

Lemma flat_map_head {A B} (f : A → list B) x l y t :
  f x = y :: t → ∃ t', flat_map f (x :: l) = y :: t'.
Proof. intros H. simpl. rewrite H. by eexists. Qed.

(** What a successful search returns was matched at some index. *)
Lemma execFrom_matchAt r p s m :
  execFrom r p s = Some m →
  ∃ p' s', matchAt r p' s' = Some m.
Proof.
  revert p. induction s as [|c s IH]; intros p; simpl.
  - destruct (matchAt r p []) eqn:H; [|done]. intros [= <-]. eauto.
  - destruct (matchAt r p (c :: s)) eqn:H.
    + intros [= <-]. eauto.
    + apply IH.
Qed.

Lemma in_runSeq_cons n r st st' :
  In st' (runSeq (n :: r) st) ↔
  ∃ st1, In st1 (runNode n st) ∧ In st' (runSeq r st1).
Proof. apply in_flat_map. Qed.

Lemma in_runSeq_nil st st' : In st' (runSeq [] st) → st' = st.
Proof. by intros [<-|[]]. Qed.

Lemma in_Bol st st' :
  In st' (runNode Bol st) → st' = st ∧ atLineStart (prev st) = true.
Proof. simpl. destruct (atLineStart (prev st)); [|done]. by intros [<-|[]]. Qed.

Lemma in_Eol st st' :
  In st' (runNode Eol st) → st' = st ∧ atLineEnd (rest st) = true.
Proof. simpl. destruct (atLineEnd (rest st)); [|done]. by intros [<-|[]]. Qed.

Lemma in_One k st st' :
  In st' (runNode (One k) st) →
  ∃ x s, rest st = x :: s ∧ inClass k x = true ∧ st' = setPos st (Some x, s).
Proof.
  simpl. destruct (rest st) as [|x s]; [done|].
  destruct (inClass k x) eqn:Hx; [|done]. intros [<-|[]]. eauto.
Qed.

Lemma in_Star k st st' :
  In st' (runNode (Star k) st) →
  ∃ ps, In ps (starRun k (prev st) (rest st)) ∧ st' = setPos st ps.
Proof. simpl. rewrite in_map_iff. intros (ps & <- & ?). eauto. Qed.

Lemma in_Plus k st st' :
  In st' (runNode (Plus k) st) →
  ∃ x s ps, rest st = x :: s ∧ inClass k x = true ∧
            In ps (starRun k (Some x) s) ∧ st' = setPos st ps.
Proof.
  simpl. destruct (rest st) as [|x s]; [done|].
  destruct (inClass k x) eqn:Hx; [|done].
  rewrite in_map_iff. intros (ps & <- & ?). eauto 10.
Qed.

Lemma in_Group r st st' :
  In st' (runNode (Group r) st) →
  ∃ st1, In st1 (runSeq r st) ∧
         st' = MState (prev st1) (rest st1)
                 (caps st1 ++ [consumed (rest st) (rest st1)]).
Proof. rewrite runNode_Group, in_map_iff. intros (st1 & <- & ?). eauto. Qed.

(** The group of a match is a non-empty text without line
    terminators. *)
Lemma linePattern_outcome c q st st' :
  isSpaceRun q →
  In st' (runSeq (linePattern c q) st) →
  ∃ t, caps st' = caps st ++ [t] ∧ t ≠ [] ∧ forallb isDot t = true.
Proof.
  intros Hq. unfold linePattern.
  intros (st1 & H1 & H)%in_runSeq_cons.
  apply in_Bol in H1 as [-> _].
  apply in_runSeq_cons in H as (st2 & H2 & H).
  apply in_One in H2 as (x2 & s2 & _ & _ & ->).
  apply in_runSeq_cons in H as (st3 & H3 & H).
  assert (caps st3 = caps st) as E3.
  { destruct Hq as [-> | ->].
    - by apply in_Star in H3 as (ps & _ & ->).
    - by apply in_Plus in H3 as (? & ? & ps & _ & _ & _ & ->). }
  apply in_runSeq_cons in H as (st4 & H4 & H).
  apply in_Group in H4 as (st5 & H5 & ->).
  apply in_runSeq_cons in H5 as (st6 & H6 & ->%in_runSeq_nil).
  apply in_Plus in H6 as (x & s & ps & Hrest & Hx & Hps & ->).
  apply starRun_spec in Hps as (run & -> & Hrun).
  apply in_runSeq_cons in H as (st7 & H7 & ->%in_runSeq_nil).
  apply in_Eol in H7 as [-> _]. simpl.
  exists (x :: run). split; [|split].
  - rewrite E3, Hrest. f_equal. f_equal.
    change (x :: run ++ ps.2) with ((x :: run) ++ ps.2).
    apply consumed_app.
  - done.
  - simpl in Hx. change (forallb isDot (x :: run)) with (isDot x && forallb (inClass CAny) run).
    by rewrite Hx, Hrun.
Qed.

Lemma linePattern_match c q s m :
  isSpaceRun q →
  smatch s (linePattern c q) = Some m →
  ∃ whole t, m = [whole; t] ∧ t ≠ [] ∧ forallb isDot t = true.
Proof.
  intros Hq Hm. apply execFrom_matchAt in Hm as (p' & s' & Hm).
  unfold matchAt in Hm.
  destruct (runSeq (linePattern c q) (MState p' s' [])) as [|st l] eqn:Hrun;
    [done|].
  injection Hm as <-.
  destruct (linePattern_outcome c q (MState p' s' []) st Hq) as (t & Ht & ?).
  { rewrite Hrun. by left. }
  simpl in Ht. rewrite Ht. eauto.
Qed.

Lemma matchAt_none r p s :
  (∀ st', ¬ In st' (runSeq r (MState p s []))) → matchAt r p s = None.
Proof.
  intros H. unfold matchAt. destruct (runSeq _ _) as [|st l]; [done|].
  exfalso. apply (H st). by left.
Qed.

Lemma linePattern_skip c q p x s :
  atLineStart p && (c =? x) = false →
  matchAt (linePattern c q) p (x :: s) = None.
Proof.
  intros H. apply matchAt_none. intros st'. unfold linePattern.
  intros (st1 & [-> Hp]%in_Bol & H1)%in_runSeq_cons.
  apply in_runSeq_cons in H1 as (st2 & (y & s2 & Hrest & Hy & _)%in_One & _).
  simpl in *. injection Hrest as <- <-. by rewrite Hp, Hy in H.
Qed.

Lemma execFrom_skip c q p pre s :
  noLineStartWith c p pre = true →
  execFrom (linePattern c q) p (pre ++ s)
  = execFrom (linePattern c q) (prevAfter p pre) s.
Proof.
  revert p. induction pre as [|x pre IH]; intros p; [done|].
  cbn [noLineStartWith]. intros [Hx Hpre]%andb_true_iff.
  apply negb_true_iff in Hx.
  change ((x :: pre) ++ s) with (x :: pre ++ s).
  cbn [execFrom]. rewrite (linePattern_skip _ _ _ _ _ Hx).
  by rewrite IH.
Qed.

Lemma runSeq_tail p text after cs :
  startsText text = true → forallb isDot text = true → atLineEnd after = true →
  ∃ t, runSeq [Group [Plus CAny]; Eol] (MState p (text ++ after) cs)
       = MState (prevAfter p text) after (cs ++ [text]) :: t.
Proof.
  intros Hs Hdot Hend. destruct text as [|t0 text]; [done|].
  simpl in Hdot. apply andb_true_iff in Hdot as [H0 Hdot].
  destruct (starRun_head CAny (Some t0) text after Hdot) as [t Ht].
  { destruct after; [done|]. simpl in *. unfold isDot. by rewrite Hend. }
  cbn [runSeq]. rewrite runNode_Group. cbn [runSeq].
  change (runNode (Plus CAny) (MState p ((t0 :: text) ++ after) cs))
    with (if isDot t0
          then map (setPos (MState p ((t0 :: text) ++ after) cs))
                   (starRun CAny (Some t0) (text ++ after))
          else []).
  rewrite H0, Ht. simpl. rewrite Hend. simpl.
  change (t0 :: text ++ after) with ((t0 :: text) ++ after).
  rewrite consumed_app. by eexists.
Qed.

Lemma runSeq_cons_head n r st x t y t' :
  runNode n st = x :: t → runSeq r x = y :: t' →
  ∃ t'', runSeq (n :: r) st = y :: t''.
Proof.
  intros H1 H2. cbn [runSeq]. rewrite H1. cbn [flat_map]. rewrite H2.
  by eexists.
Qed.

Lemma spaces_head q c ws s cs :
  forallb isSpace ws = true →
  match s with [] => true | x :: _ => negb (isSpace x) end = true →
  (q = Star CSpace ∨ (q = Plus CSpace ∧ ws ≠ [])) →
  ∃ t, runNode q (MState (Some c) (ws ++ s) cs)
       = MState (prevAfter (Some c) ws) s cs :: t.
Proof.
  intros Hws Hs [-> | [-> Hne]].
  - destruct (starRun_head CSpace (Some c) ws s Hws Hs) as [t Ht].
    cbn [runNode prev rest]. rewrite Ht. by eexists.
  - destruct ws as [|w ws]; [done|].
    simpl in Hws. apply andb_true_iff in Hws as [Hw Hws].
    destruct (starRun_head CSpace (Some w) ws s Hws Hs) as [t Ht].
    change (runNode (Plus CSpace) (MState (Some c) ((w :: ws) ++ s) cs))
      with (if isSpace w
            then map (setPos (MState (Some c) ((w :: ws) ++ s) cs))
                     (starRun CSpace (Some w) (ws ++ s))
            else []).
    rewrite Hw, Ht. by eexists.
Qed.

Lemma matchAt_here q c p ws text after :
  atLineStart p = true →
  forallb isSpace ws = true →
  (q = Star CSpace ∨ (q = Plus CSpace ∧ ws ≠ [])) →
  startsText text = true → forallb isDot text = true →
  atLineEnd after = true →
  matchAt (linePattern c q) p (c :: ws ++ text ++ after)
  = Some [c :: ws ++ text; text].
Proof.
  intros Hp Hws Hq Hs Hdot Hend.
  destruct (spaces_head q c ws (text ++ after) [] Hws) as [t3 H3]; [|done|].
  { by destruct text. }
  destruct (runSeq_tail (prevAfter (Some c) ws) text after [] Hs Hdot Hend)
    as [t4 H4].
  destruct (runSeq_cons_head _ _ _ _ _ _ _ H3 H4) as [t5 H5].
  assert (runNode (One (CChar c)) (MState p (c :: ws ++ text ++ after) [])
          = [MState (Some c) (ws ++ text ++ after) []]) as H2.
  { cbn [runNode rest]. simpl inClass. by rewrite N.eqb_refl. }
  destruct (runSeq_cons_head _ _ _ _ _ _ _ H2 H5) as [t6 H6].
  assert (runNode Bol (MState p (c :: ws ++ text ++ after) [])
          = [MState p (c :: ws ++ text ++ after) []]) as H1.
  { cbn [runNode prev]. by rewrite Hp. }
  destruct (runSeq_cons_head _ _ _ _ _ _ _ H1 H6) as [t7 H7].
  unfold matchAt, linePattern. rewrite H7. cbn [rest caps app].
  do 2 f_equal.
  replace (c :: ws ++ text ++ after) with ((c :: ws ++ text) ++ after).
  - apply consumed_app.
  - simpl. by rewrite <- app_assoc.
Qed.

(** The search returns the first line that begins with [c]. *)
Lemma smatch_first q c before ws text after :
  noLineStartWith c None before = true →
  atLineStart (prevAfter None before) = true →
  forallb isSpace ws = true →
  (q = Star CSpace ∨ (q = Plus CSpace ∧ ws ≠ [])) →
  startsText text = true → forallb isDot text = true →
  atLineEnd after = true →
  smatch (before ++ c :: ws ++ text ++ after) (linePattern c q)
  = Some [c :: ws ++ text; text].
Proof.
  intros Hb Hp Hws Hq Hs Hdot Hend. unfold smatch.
  rewrite (execFrom_skip _ _ _ _ _ Hb).
  assert (matchAt (linePattern c q) (prevAfter None before)
            (c :: ws ++ text ++ after) = Some [c :: ws ++ text; text]) as H
    by by apply matchAt_here.
  destruct ws; simpl; simpl in H; by rewrite H.
Qed.

End RegexFacts.


(** * The format converter *)

Module ConvertFacts.

Import RegexFacts.

Lemma headingPattern_shape : headingPattern = linePattern 35 (Plus CSpace).
Proof. reflexivity. Qed.

Lemma quotePattern_shape : quotePattern = linePattern 62 (Star CSpace).
Proof. reflexivity. Qed.

(** What either pattern captures is one line of text. *)
Lemma heading_group_oneline content m :
  smatch content headingPattern = Some m →
  group1 m ≠ [] ∧ forallb isDot (group1 m) = true.
Proof.
  rewrite headingPattern_shape. intros H.
  apply linePattern_match in H as (whole & t & -> & ? & ?); [done|by right].
Qed.

Lemma quote_group_oneline content m :
  smatch content quotePattern = Some m →
  group1 m ≠ [] ∧ forallb isDot (group1 m) = true.
Proof.
  rewrite quotePattern_shape. intros H.
  apply linePattern_match in H as (whole & t & -> & ? & ?); [done|by left].
Qed.

Lemma forallb_isDot_app (a b : jsstring) :
  forallb isDot (a ++ b) = forallb isDot a && forallb isDot b.
Proof. apply forallb_app. Qed.

Lemma skillTitle_oneline skillName content :
  forallb isDot skillName = true →
  forallb isDot (skillTitle skillName content) = true.
Proof.
  intros Hn. unfold skillTitle.
  destruct (smatch content headingPattern) eqn:H; [|done].
  by apply heading_group_oneline in H as [_ ?].
Qed.

Lemma skillDescription_oneline skillName content :
  forallb isDot skillName = true →
  forallb isDot (skillDescription skillName content) = true.
Proof.
  intros Hn. unfold skillDescription.
  destruct (smatch content quotePattern) eqn:H.
  - by apply quote_group_oneline in H as [_ ?].
  - rewrite forallb_isDot_app, skillTitle_oneline by done. done.
Qed.

Lemma isDot_not_lf (l : jsstring) :
  forallb isDot l = true → forallb (fun c => negb (c =? 10)) l = true.
Proof.
  induction l as [|c l IH]; [done|]. simpl.
  intros [Hc Hl]%andb_true_iff. rewrite (IH Hl), andb_true_r.
  unfold isDot, isLineTerminator in Hc.
  destruct (c =? 10); [done|done].
Qed.

(** Reading one line. *)
Lemma scanHeader_line lines cur l s :
  forallb (fun c => negb (c =? 10)) l = true →
  scanHeader lines cur (l ++ 10 :: s)
  = if decide (rev cur ++ l = str "---") then Some (rev lines, s)
    else scanHeader ((rev cur ++ l) :: lines) [] s.
Proof.
  revert cur. induction l as [|c l IH]; intros cur Hl.
  - simpl. by rewrite app_nil_r.
  - simpl in Hl. apply andb_true_iff in Hl as [Hc Hl].
    apply negb_true_iff in Hc. simpl. rewrite Hc, (IH (c :: cur) Hl).
    simpl. by rewrite <- !app_assoc.
Qed.


Lemma scanHeader_template acc ls body :
  Forall headerLine ls →
  scanHeader acc [] (template ls ++ str "---" ++ nl ++ body)
  = Some (rev acc ++ ls, body).
Proof.
  intros Hls. revert acc. induction Hls as [|l ls [Hl Hne] _ IH]; intros acc.
  - simpl. by rewrite app_nil_r.
  - unfold template. cbn [flat_map]. fold (template ls).
    rewrite <- !app_assoc. change (nl ++ ?x) with (10 :: x).
    rewrite scanHeader_line by done. simpl rev. rewrite app_nil_l.
    destruct (decide (l = str "---")); [done|].
    rewrite IH. simpl. by rewrite <- app_assoc.
Qed.

Lemma readFrontmatter_template ls body :
  Forall headerLine ls →
  readFrontmatter (template (str "---" :: ls ++ [str "---"]) ++ body)
  = Some (ls, body).
Proof.
  intros Hls. unfold readFrontmatter.
  replace (template (str "---" :: ls ++ [str "---"]) ++ body)
    with ((str "---" ++ nl) ++ template ls ++ str "---" ++ nl ++ body).
  - set (x := template ls ++ str "---" ++ nl ++ body).
    change ((str "---" ++ nl) ++ x) with (45 :: 45 :: 45 :: 10 :: x).
    change (startsWith (45 :: 45 :: 45 :: 10 :: x) (str "---" ++ nl)) with true.
    cbn [drop]. unfold x. exact (scanHeader_template [] ls body Hls).
  - unfold template. cbn [flat_map]. rewrite flat_map_app. simpl.
    by rewrite <- !app_assoc.
Qed.

Lemma headerLine_prefixed (k v : jsstring) :
  forallb isDot k = true → forallb isDot v = true →
  k ≠ [] → hd 0 k ≠ 45 → headerLine (k ++ v).
Proof.
  intros Hk Hv Hne Hhd. split.
  - apply isDot_not_lf. by rewrite forallb_isDot_app, Hk, Hv.
  - destruct k as [|c k]; [done|]. simpl in Hhd. intros [= E _]. done.
Qed.


Lemma skill_header_reads_back skillName description body :
  forallb isDot skillName = true →
  forallb isDot description = true →
  readFrontmatter (skillFrontmatter skillName description ++ body)
  = Some (skillHeaderLines skillName description, body).
Proof.
  intros Hn Hd.
  apply (readFrontmatter_template (skillHeaderLines skillName description)).
  unfold skillHeaderLines. repeat apply Forall_cons_2; try apply Forall_nil_2.
  - by apply headerLine_prefixed.
  - by apply headerLine_prefixed.
  - by vm_compute.
  - by vm_compute.
  - by vm_compute.
  - by vm_compute.
Qed.

(** C7.  For a skill whose folder name is one line of text: when the
    markdown has no level-1 heading the title is the folder name; when
    it has no block quote the description is the title followed by
    [ skill]; and in both cases the output opens with the fixed block
    of key-value lines between two [---] lines (name, description,
    license, compatibility, metadata and its source), which reads back
    as such, followed by an empty line, the markdown as it was, and a
    line feed. *)
Theorem skill_defaults_keep_header skillName content :
  forallb isDot skillName = true →
  smatch content headingPattern = None ∨ smatch content quotePattern = None →
  (smatch content headingPattern = None →
   skillTitle skillName content = skillName) ∧
  (smatch content quotePattern = None →
   skillDescription skillName content
   = skillTitle skillName content ++ str " skill") ∧
  readFrontmatter (skillOpenCodeContent skillName content)
  = Some ([ str "name: " ++ skillName;
            str "description: " ++ skillDescription skillName content;
            str "license: MIT";
            str "compatibility: opencode";
            str "metadata:";
            str "  source: ai-dev-system" ],
          nl ++ content ++ nl).
Proof.
  intros Hn _. split; [|split].
  - intros H. unfold skillTitle. by rewrite H.
  - intros H. unfold skillDescription. by rewrite H.
  - unfold skillOpenCodeContent.
    apply skill_header_reads_back; [done|].
    by apply skillDescription_oneline.
Qed.

Lemma skill_defaults_keep_header_witness :
  let content := str "no heading, no quote" ++ nl in
  skillTitle (str "debug") content = str "debug" ∧
  skillDescription (str "debug") content = str "debug skill" ∧
  readFrontmatter (skillOpenCodeContent (str "debug") content)
  = Some ([ str "name: debug";
            str "description: debug skill";
            str "license: MIT";
            str "compatibility: opencode";
            str "metadata:";
            str "  source: ai-dev-system" ],
          nl ++ content ++ nl).
Proof.
  intros content.
  destruct (skill_defaults_keep_header (str "debug") content) as (H1 & H2 & H3).
  - reflexivity.
  - left. reflexivity.
  - split; [|split].
    + apply H1. reflexivity.
    + rewrite H2 by reflexivity. reflexivity.
    + exact H3.
Defined.

(** C1, as the code has it.  Take a markdown text in which the first
    line that begins with [>] carries, after optional white space, a
    text that runs to the end of its line.  Whatever headings the
    markdown has, the header of the converted skill has the folder
    name of the skill as its name and that text as its description;
    the text of a heading is not part of it. *)
Theorem skill_header_from_first_quote skillName before ws text after :
  noLineStartWith 62 None before = true →
  atLineStart (prevAfter None before) = true →
  forallb isSpace ws = true →
  startsText text = true →
  forallb isDot text = true →
  atLineEnd after = true →
  let content := before ++ 62 :: ws ++ text ++ after in
  skillOpenCodeContent skillName content
  = template
      [ str "---";
        str "name: " ++ skillName;
        str "description: " ++ text;
        str "license: MIT";
        str "compatibility: opencode";
        str "metadata:";
        str "  source: ai-dev-system";
        str "---" ]
    ++ nl ++ content ++ nl.
Proof.
  intros Hb Hp Hws Hs Hdot Hend content.
  unfold skillOpenCodeContent, skillDescription.
  rewrite quotePattern_shape. unfold content.
  rewrite (smatch_first (Star CSpace) 62 before ws text after) by auto.
  reflexivity.
Qed.

Lemma skill_header_from_first_quote_witness :
  let content :=
    str "# Debug Guide" ++ nl ++ str "> Find bugs" ++ nl ++ str "> more" ++ nl in
  skillOpenCodeContent (str "debug") content
  = template
      [ str "---";
        str "name: debug";
        str "description: Find bugs";
        str "license: MIT";
        str "compatibility: opencode";
        str "metadata:";
        str "  source: ai-dev-system";
        str "---" ]
    ++ nl ++ content ++ nl.
Proof.
  intros content.
  apply (skill_header_from_first_quote (str "debug")
           (str "# Debug Guide" ++ nl) (str " ") (str "Find bugs")
           (nl ++ str "> more" ++ nl)); reflexivity.
Defined.

(** C1, as the specification has it, fails: this markdown has a
    level-1 heading and a block quote, and the text of the heading
    occurs nowhere in the header of the converted skill. *)
Lemma skill_header_lacks_heading :
  let content := str "# Debug Guide" ++ nl ++ str "> Find bugs" ++ nl in
  smatch content headingPattern
  = Some [str "# Debug Guide"; str "Debug Guide"] ∧
  smatch content quotePattern
  = Some [str "> Find bugs"; str "Find bugs"] ∧
  includes (skillFrontmatter (str "debug")
              (skillDescription (str "debug") content))
           (str "Debug Guide") = false.
Proof. vm_compute. repeat split. Qed.

(** C10.  For a markdown text in which both patterns match, the
    description of the converted agent is the text of the first
    heading, while the description of the converted skill is the text
    of the first block quote. *)
Theorem agent_description_prefers_heading agentName skillName content h q :
  smatch content headingPattern = Some h →
  smatch content quotePattern = Some q →
  agentOpenCodeContent agentName content
  = template
      [ str "---";
        str "description: " ++ group1 h;
        str "model: anthropic/claude-sonnet-4-5";
        str "---" ]
    ++ nl ++ content ++ nl
  ∧ skillDescription skillName content = group1 q.
Proof.
  intros Hh Hq. split.
  - unfold agentOpenCodeContent, agentDescription. by rewrite Hh.
  - unfold skillDescription. by rewrite Hq.
Qed.

Lemma agent_description_prefers_heading_witness :
  let content := str "> An oracle" ++ nl ++ str "# Oracle" ++ nl in
  agentOpenCodeContent (str "oracle") content
  = template
      [ str "---";
        str "description: Oracle";
        str "model: anthropic/claude-sonnet-4-5";
        str "---" ]
    ++ nl ++ content ++ nl
  ∧ skillDescription (str "oracle") content = str "An oracle".
Proof.
  intros content.
  apply (agent_description_prefers_heading (str "oracle") (str "oracle") content
           [str "# Oracle"; str "Oracle"] [str "> An oracle"; str "An oracle"]);
    reflexivity.
Defined.

End ConvertFacts.

(** * The file system and the sync command *)

Module FsFacts.

Lemma bind_ok {A B} (m : M A) (k : A → M B) w a w' :
  m w = (Ok a, w') → bind m k w = k a w'.
Proof. unfold bind. by intros ->. Qed.

Lemma bind_throw {A B} (m : M A) (k : A → M B) w e w' :
  m w = (Throw e, w') → bind m k w = (Throw e, w').
Proof. unfold bind. by intros ->. Qed.

(** What the two tests of utils/paths.ts return: they never throw
    and change nothing. *)
Lemma directoryExists_run p w :
  directoryExists p w
  = (Ok (match entryAt w p with Some Dir => true | _ => false end), w).
Proof.
  unfold directoryExists, tryCatch, statIsDirectory.
  by destruct (entryAt w p) as [[|]|].
Qed.

Lemma fileExists_run p w :
  fileExists p w
  = (Ok (match entryAt w p with Some (File _) => true | _ => false end), w).
Proof.
  unfold fileExists, tryCatch, statIsFile.
  by destruct (entryAt w p) as [[|]|].
Qed.

Lemma bind_directoryExists {B} p (k : bool → M B) w :
  bind (directoryExists p) k w
  = k (match entryAt w p with Some Dir => true | _ => false end) w.
Proof. unfold bind. by rewrite directoryExists_run. Qed.

(** One step of a run that begins with one of the two tests. *)
Ltac run_test :=
  rewrite ?directoryExists_run, ?fileExists_run; cbv beta iota.

Lemma forOf_app {A} (xs ys : list A) body w :
  forOf (xs ++ ys) body w
  = match forOf xs body w with
    | (Ok _, w1) => forOf ys body w1
    | (Throw e, w1) => (Throw e, w1)
    end.
Proof.
  revert w. induction xs as [|x xs IH]; intros w; [done|].
  change (forOf ((x :: xs) ++ ys) body w)
    with (bind (body x) (fun _ => forOf (xs ++ ys) body) w).
  change (forOf (x :: xs) body w) with (bind (body x) (fun _ => forOf xs body) w).
  unfold bind. destruct (body x w) as [[[]|e] w1]; [|done].
  apply IH.
Qed.

Lemma convertSkill_missing src tgt name w :
  entryAt w (pathJoin src [str "SKILL.md"]) = None →
  convertSkillToOpenCode src tgt name w = (Ok tt, w).
Proof.
  intros H. unfold convertSkillToOpenCode, bind, existsSync. rewrite H.
  rewrite bool_decide_eq_false_2; [done|]. by intros [? ?].
Qed.

(** C8.  When the skill loop reaches a folder whose [SKILL.md] does
    not exist, the conversion of that folder returns without an error
    and leaves the file system and the terminal as they are, and the
    folders after it are converted as if it had not been listed. *)
Theorem missing_skill_file_is_skipped
    skillsDir targetSkillsDir before skill after w w1 :
  convertSkills skillsDir targetSkillsDir before w = (Ok tt, w1) →
  entryAt w1 (pathJoin (pathJoin skillsDir [skill]) [str "SKILL.md"]) = None →
  convertSkillToOpenCode (pathJoin skillsDir [skill]) targetSkillsDir skill w1
  = (Ok tt, w1)
  ∧ convertSkills skillsDir targetSkillsDir (before ++ skill :: after) w
    = convertSkills skillsDir targetSkillsDir after w1.
Proof.
  intros Hbefore Hmissing.
  pose proof (convertSkill_missing _ targetSkillsDir skill _ Hmissing) as Hskip.
  split; [done|].
  unfold convertSkills in *. rewrite forOf_app, Hbefore.
  simpl. by rewrite (bind_ok _ _ _ _ _ Hskip).
Qed.

(** ** Names and joined paths *)

Lemma splitSlash_plain acc n :
  slash ∉ n → splitSlash acc n = [rev acc ++ n].
Proof.
  revert acc. induction n as [|c n IH]; intros acc Hn; simpl.
  - by rewrite app_nil_r.
  - apply not_elem_of_cons in Hn as [Hc Hn].
    destruct (c =? slash) eqn:E; [apply N.eqb_eq in E; congruence|].
    rewrite IH by done. simpl. by rewrite <- app_assoc.
Qed.

Lemma elem_of_rev {A} (x : A) (l : list A) : x ∈ rev l ↔ x ∈ l.
Proof. by rewrite !list_elem_of_In, <- in_rev. Qed.

Lemma splitSlash_parts acc s part :
  slash ∉ acc → part ∈ splitSlash acc s → slash ∉ part.
Proof.
  revert acc. induction s as [|c s IH]; intros acc Hacc; simpl.
  - intros ->%list_elem_of_singleton. by rewrite elem_of_rev.
  - destruct (c =? slash) eqn:E.
    + intros [->|Hin]%elem_of_cons.
      * by rewrite elem_of_rev.
      * apply (IH []); [apply not_elem_of_nil|done].
    + apply IH. apply N.eqb_neq in E.
      apply not_elem_of_cons. split; [congruence|done].
Qed.

Lemma Forall_removelast {A} (P : A → Prop) (l : list A) :
  Forall P l → Forall P (removelast l).
Proof.
  induction 1 as [|x l Hx Hl IH]; [done|].
  simpl. destruct l; [done|]. by constructor.
Qed.

Lemma pushPart_valid p part :
  Forall validName p → slash ∉ part → Forall validName (pushPart p part).
Proof.
  intros Hp Hpart. unfold pushPart.
  repeat case_decide; try done.
  - by apply Forall_removelast.
  - apply Forall_app. split; [done|]. by repeat constructor.
Qed.

Lemma joinSeg_valid p seg :
  Forall validName p → Forall validName (joinSeg p seg).
Proof.
  intros Hp. unfold joinSeg.
  assert (∀ part, part ∈ splitSlash [] seg → slash ∉ part) as Hparts.
  { intros part. apply splitSlash_parts. set_solver. }
  revert p Hp. induction (splitSlash [] seg) as [|part parts IH]; intros p Hp.
  - done.
  - simpl. apply IH.
    + intros q Hq. apply Hparts. by right.
    + apply pushPart_valid; [done|]. apply Hparts. by left.
Qed.

Lemma pathJoin_valid p segs :
  Forall validName p → Forall validName (pathJoin p segs).
Proof.
  unfold pathJoin. revert p. induction segs as [|seg segs IH]; intros p Hp.
  - done.
  - simpl. apply IH. by apply joinSeg_valid.
Qed.

Lemma joinSeg_name p n : validName n → joinSeg p n = p ++ [n].
Proof.
  intros (Hne & Hdot & Hdd & Hslash). unfold joinSeg.
  rewrite splitSlash_plain by done. simpl. unfold pushPart.
  by repeat case_decide.
Qed.

Lemma pathJoin_cons p n ns :
  validName n → pathJoin p (n :: ns) = pathJoin (p ++ [n]) ns.
Proof. intros Hn. unfold pathJoin. simpl. by rewrite joinSeg_name. Qed.

Lemma pathJoin_nil p : pathJoin p [] = p.
Proof. done. Qed.

Lemma validNameb_true n : validNameb n = true → validName n.
Proof.
  unfold validNameb. rewrite !andb_true_iff, !negb_true_iff, !bool_decide_eq_false.
  intros [[[? ?] ?] Hs]. repeat split; try done.
  intros Hin. rewrite forallb_forall in Hs.
  apply list_elem_of_In in Hin. specialize (Hs _ Hin).
  by rewrite N.eqb_refl in Hs.
Qed.

Lemma validName_suffix n ext :
  slash ∉ n → validNameb ext = true → (2 < length ext)%nat →
  validName (n ++ ext).
Proof.
  intros Hn Hext Hlen. apply validNameb_true in Hext as (? & ? & ? & ?).
  repeat split.
  - by destruct n, ext.
  - intros E. apply (f_equal length) in E. rewrite length_app in E.
    simpl in E. lia.
  - intros E. apply (f_equal length) in E. rewrite length_app in E.
    simpl in E. lia.
  - rewrite elem_of_app. tauto.
Qed.

Lemma elem_of_drop_jsstring (s : jsstring) k c :
  c ∈ drop k s → c ∈ s.
Proof. intros H. rewrite <- (take_drop k s). set_solver. Qed.

Lemma replaceFirst_erase_elem s pat c :
  c ∈ replaceFirst s pat [] → c ∈ s.
Proof.
  induction s as [|x s IH]; simpl.
  - destruct (startsWith [] pat); [|done].
    rewrite drop_nil. done.
  - destruct (startsWith (x :: s) pat).
    + simpl. apply elem_of_drop_jsstring.
    + intros [->|H]%elem_of_cons; [by left|]. right. by apply IH.
Qed.

(** ** What a computation leaves in place *)

Lemma keeps_refl P f : keeps P f f.
Proof. by intros p e. Qed.

Lemma keeps_trans P f1 f2 f3 : keeps P f1 f2 → keeps P f2 f3 → keeps P f1 f3.
Proof. intros H1 H2 p e HP H. by apply H2, H1. Qed.

Lemma safe_ret P {A} (a : A) (Q : A → Prop) : Q a → safe P (ret a) Q.
Proof.
  intros HQ w Hwf. simpl. split; [done|]. split; [apply keeps_refl|].
  by intros ? [= <-].
Qed.

Lemma safe_throw P {A} e (Q : A → Prop) : safe P (throw e) Q.
Proof.
  intros w Hwf. simpl. split; [done|]. split; [apply keeps_refl|done].
Qed.

Lemma safe_bind P {A B} (m : M A) (k : A → M B) Q R :
  safe P m Q → (∀ a, Q a → safe P (k a) R) → safe P (bind m k) R.
Proof.
  intros Hm Hk w Hwf. destruct (Hm w Hwf) as (Hwf1 & Hk1 & HQ).
  unfold bind. destruct (m w) as [[a|e] w1]; simpl in *.
  - destruct (Hk a (HQ a eq_refl) w1 Hwf1) as (Hwf2 & Hk2 & HR).
    split; [done|]. split; [|done]. by eapply keeps_trans.
  - done.
Qed.

Lemma safe_tryCatch P {A} (m : M A) (h : errno → M A) Q :
  safe P m Q → (∀ e, safe P (h e) Q) → safe P (tryCatch m h) Q.
Proof.
  intros Hm Hh w Hwf. destruct (Hm w Hwf) as (Hwf1 & Hk1 & HQ).
  unfold tryCatch. destruct (m w) as [[a|e] w1]; simpl in *.
  - done.
  - destruct (Hh e w1 Hwf1) as (Hwf2 & Hk2 & HR).
    split; [done|]. split; [|done]. by eapply keeps_trans.
Qed.

Lemma safe_weaken P {A} (m : M A) (Q Q' : A → Prop) :
  safe P m Q → (∀ a, Q a → Q' a) → safe P m Q'.
Proof.
  intros Hm HQ w Hwf. destruct (Hm w Hwf) as (? & ? & H). naive_solver.
Qed.

Lemma safe_forOf P {A} (xs : list A) (body : A → M unit) :
  Forall (fun x => safe P (body x) anything) xs →
  safe P (forOf xs body) anything.
Proof.
  induction 1 as [|x xs Hx _ IH]; simpl.
  - by apply safe_ret.
  - eapply safe_bind; [exact Hx|]. by intros _ _.
Qed.

Lemma safe_filterM P {A} (f : A → M bool) (xs : list A) (Q : A → Prop) :
  (∀ x, safe P (f x) anything) → Forall Q xs →
  safe P (filterM f xs) (Forall Q).
Proof.
  intros Hf. induction 1 as [|x xs Hx _ IH]; simpl.
  - by apply safe_ret.
  - eapply safe_bind; [apply Hf|]. intros b _.
    eapply safe_bind; [exact IH|]. intros r Hr.
    apply safe_ret. destruct b; [by constructor|done].
Qed.

Lemma safe_readsOnly P {A} (m : M A) : readsOnly m → safe P m anything.
Proof.
  intros Hm w Hwf. rewrite Hm. split; [done|]. split; [apply keeps_refl|done].
Qed.

Lemma readsOnly_existsSync p : readsOnly (existsSync p).
Proof. done. Qed.

Lemma readsOnly_readFileSync p : readsOnly (readFileSync p).
Proof. intros w. unfold readFileSync. by destruct (entryAt w p) as [[]|]. Qed.

Lemma readsOnly_statIsDirectory p : readsOnly (statIsDirectory p).
Proof. intros w. unfold statIsDirectory. by destruct (entryAt w p) as [[]|]. Qed.

Lemma readsOnly_emit e : readsOnly (emit e).
Proof. done. Qed.

Lemma readsOnly_readdirSync p : readsOnly (readdirSync p).
Proof. intros w. unfold readdirSync. by destruct (entryAt w p) as [[]|]. Qed.

Lemma childName_Some p q n : childName p q = Some n → q = p ++ [n].
Proof.
  unfold childName. destruct (drop (length p) q) as [|x [|? ?]] eqn:E; try done.
  case_decide as Hp; [|done]. intros [= ->].
  by rewrite <- (take_drop (length p) q), Hp, E.
Qed.

Lemma elem_of_children f p n :
  n ∈ children f p ↔ is_Some (f !! (p ++ [n])).
Proof.
  unfold children. rewrite list_elem_of_omap. split.
  - intros (q & Hq & Hn). apply childName_Some in Hn as ->.
    by apply elem_of_elements, elem_of_dom in Hq.
  - intros H. exists (p ++ [n]). split.
    + by apply elem_of_elements, elem_of_dom.
    + unfold childName. rewrite drop_app_length, take_app_length.
      by rewrite decide_True.
Qed.

Lemma safe_readdirSync P p : safe P (readdirSync p) (Forall validName).
Proof.
  intros w Hwf. rewrite readsOnly_readdirSync.
  split; [done|]. split; [apply keeps_refl|].
  unfold readdirSync. destruct (entryAt w p) as [[]|]; simpl; try done.
  intros a [= <-]. apply Forall_forall. intros n Hn.
  apply elem_of_children in Hn as [e He].
  apply Hwf in He. apply Forall_app in He as [_ He]. by inversion He.
Qed.

Lemma safe_mkdirFrom P base comps :
  Forall validName (base ++ comps) → safe P (mkdirFrom base comps) anything.
Proof.
  revert base. induction comps as [|n comps IH]; intros base Hv.
  - by apply safe_ret.
  - intros w Hwf. simpl.
    assert (Forall validName ((base ++ [n]) ++ comps)) as Hv'
      by by rewrite <- app_assoc.
    destruct (files w !! (base ++ [n])) as [[|]|] eqn:E.
    + simpl. split; [done|]. split; [apply keeps_refl|done].
    + apply (IH _ Hv' w Hwf).
    + set (w1 := setFiles w (<[base ++ [n] := Dir]> (files w))).
      assert (wfFiles (files w1)) as Hwf1.
      { intros p e. simpl. rewrite lookup_insert. case_decide as Hp.
        - intros _. subst p. by apply Forall_app in Hv' as [? _].
        - apply Hwf. }
      destruct (IH _ Hv' w1 Hwf1) as (? & Hk & ?).
      split; [done|]. split; [|done].
      eapply keeps_trans; [|exact Hk].
      intros p e _ Hp. simpl. rewrite lookup_insert_ne; [done|]. congruence.
Qed.

Lemma safe_mkdirSync P p :
  Forall validName p → safe P (mkdirSync p) anything.
Proof. apply (safe_mkdirFrom P []). Qed.

Lemma safe_writeFileSync P p data :
  Forall validName p → ¬ P p → safe P (writeFileSync p data) anything.
Proof.
  intros Hv HP w Hwf. unfold writeFileSync.
  destruct p as [|n p]; [by split; [|split; [apply keeps_refl|]]|].
  destruct (entryAt w (dirname (n :: p))) as [[|]|];
    try by split; [|split; [apply keeps_refl|]].
  destruct (files w !! (n :: p)) as [[|]|] eqn:E;
    try (by split; [|split; [apply keeps_refl|]]).
  - simpl. split; [|split; [|done]].
    + intros q e. rewrite lookup_insert. case_decide; [by intros _; subst|apply Hwf].
    + intros q e Hq Hl. rewrite lookup_insert_ne; [done|]. by intros <-.
  - simpl. split; [|split; [|done]].
    + intros q e. rewrite lookup_insert. case_decide; [by intros _; subst|apply Hwf].
    + intros q e Hq Hl. rewrite lookup_insert_ne; [done|]. by intros <-.
Qed.

(** ** The steps of syncOpenCode *)

Lemma outside_sub d d' P : outside d P → d `prefix_of` d' → outside d' P.
Proof. intros H Hd q Hq. apply H. by etrans. Qed.

Lemma outside_join d P ns :
  Forall validName ns → outside d P → outside (pathJoin d ns) P.
Proof.
  intros Hns. revert d. induction Hns as [|n ns Hn _ IH]; intros d Hd; [done|].
  rewrite pathJoin_cons by done. apply IH.
  eapply outside_sub; [done|]. by apply prefix_app_r.
Qed.

Lemma outside_self d P : outside d P → ¬ P d.
Proof. intros H. by apply H. Qed.

Ltac literal_name := apply validNameb_true; vm_compute; reflexivity.

Lemma safe_consoleLog P s : safe P (consoleLog s) anything.
Proof. apply safe_readsOnly, readsOnly_emit. Qed.

Lemma safe_existsSync P p : safe P (existsSync p) anything.
Proof. apply safe_readsOnly, readsOnly_existsSync. Qed.

Lemma safe_readFileSync P p : safe P (readFileSync p) anything.
Proof. apply safe_readsOnly, readsOnly_readFileSync. Qed.

Lemma safe_readSubdirs P dir : safe P (readSubdirs dir) (Forall validName).
Proof.
  unfold readSubdirs. eapply safe_bind; [apply safe_readdirSync|].
  intros names Hnames. apply safe_filterM; [|done].
  intros x. apply safe_readsOnly, readsOnly_statIsDirectory.
Qed.

Lemma safe_convertSkill P src tgt name :
  Forall validName tgt → validName name → outside tgt P →
  safe P (convertSkillToOpenCode src tgt name) anything.
Proof.
  intros Htgt Hname Hout. unfold convertSkillToOpenCode.
  eapply safe_bind; [apply safe_existsSync|]. intros found _.
  destruct found; cbn [negb]; [|by apply safe_ret].
  eapply safe_bind; [apply safe_readFileSync|]. intros content _.
  eapply safe_bind.
  - apply safe_mkdirSync. by apply pathJoin_valid.
  - intros _ _. apply safe_writeFileSync.
    + by do 2 apply pathJoin_valid.
    + apply outside_self. apply outside_join; [|apply outside_join; auto].
      constructor; [literal_name|done].
Qed.

Lemma safe_convertAgent P src tgt agent :
  Forall validName tgt → validName agent → outside tgt P →
  safe P (convertAgentToOpenCode src tgt (replaceFirst agent (str ".md") [])) anything.
Proof.
  intros Htgt Hname Hout. unfold convertAgentToOpenCode.
  eapply safe_bind; [apply safe_readFileSync|]. intros content _.
  eapply safe_bind; [by apply safe_mkdirSync|]. intros _ _.
  apply safe_writeFileSync.
  - by apply pathJoin_valid.
  - apply outside_self, outside_join; [|done]. constructor; [|done].
    apply validName_suffix; [|done|simpl; lia].
    intros Hin%replaceFirst_erase_elem. by destruct Hname as (_ & _ & _ & ?).
Qed.

Lemma safe_generateCommands P src tgt :
  Forall validName tgt → outside tgt P →
  safe P (generateCommands src tgt) anything.
Proof.
  intros Htgt Hout. unfold generateCommands.
  eapply safe_bind; [apply safe_existsSync|]. intros found _.
  destruct found; cbn [negb]; [|by apply safe_ret].
  eapply safe_bind; [by apply safe_mkdirSync|]. intros _ _.
  eapply safe_bind; [apply safe_readSubdirs|]. intros skills Hskills.
  apply safe_forOf. eapply Forall_impl; [exact Hskills|].
  intros skill Hskill. cbn beta.
  eapply safe_bind; [apply safe_existsSync|]. intros present _.
  destruct present; cbn [negb]; [|by apply safe_ret].
  eapply safe_bind; [apply safe_readFileSync|]. intros content _.
  apply safe_writeFileSync.
  - by apply pathJoin_valid.
  - apply outside_self, outside_join; [|done]. constructor; [|done].
    apply validName_suffix; [|done|simpl; lia].
    by destruct Hskill as (_ & _ & _ & ?).
Qed.

Lemma safe_generatePluginTemplate P tgt :
  Forall validName tgt → outside tgt P →
  safe P (generatePluginTemplate tgt) anything.
Proof.
  intros Htgt Hout. unfold generatePluginTemplate.
  eapply safe_bind; [by apply safe_mkdirSync, pathJoin_valid|]. intros _ _.
  apply safe_writeFileSync.
  - by do 2 apply pathJoin_valid.
  - apply outside_self. apply outside_join; [|apply outside_join; auto].
    + constructor; [literal_name|done].
    + constructor; [literal_name|done].
Qed.

Lemma safe_generateOpenCodeConfig P tgt projectDir :
  Forall validName projectDir →
  ¬ P (projectDir ++ [str "opencode.json"]) →
  safe P (generateOpenCodeConfig tgt projectDir) anything.
Proof.
  intros Hp HP. unfold generateOpenCodeConfig.
  apply safe_writeFileSync; [by apply pathJoin_valid|].
  rewrite pathJoin_cons by literal_name. done.
Qed.

(** generateAgentsMd creates its file or leaves everything as it is. *)
Lemma safe_generateAgentsMd P projectDir projectName :
  Forall validName projectDir →
  safe P (generateAgentsMd projectDir projectName) anything.
Proof.
  intros Hp w Hwf. unfold generateAgentsMd, bind, existsSync.
  set (p := pathJoin projectDir [str "AGENTS.md"]).
  assert (Forall validName p) as Hv by by apply pathJoin_valid.
  destruct (entryAt w p) as [e|] eqn:E.
  - rewrite bool_decide_eq_true_2 by eauto. simpl.
    split; [done|]. split; [apply keeps_refl|done].
  - rewrite bool_decide_eq_false_2 by (by intros [? ?]). simpl.
    assert (files w !! p = None) as Hnone.
    { unfold entryAt in E. by destruct p. }
    unfold writeFileSync. destruct p as [|n p]; [done|].
    destruct (entryAt w (dirname (n :: p))) as [[|]|];
      try by split; [|split; [apply keeps_refl|]].
    rewrite Hnone. simpl. split; [|split; [|done]].
    + intros q e. rewrite lookup_insert. case_decide; [by intros _; subst|apply Hwf].
    + intros q e _ Hq. rewrite lookup_insert_ne; [done|]. congruence.
Qed.

Lemma safe_syncOpenCode sourceAiDir projectDir :
  Forall validName projectDir →
  safe (fun p => ¬ generated projectDir p)
       (syncOpenCode sourceAiDir projectDir) anything.
Proof.
  intros Hp. set (P := fun p => ¬ generated projectDir p).
  assert (outside (pathJoin projectDir [str ".opencode"]) P) as Hout.
  { rewrite pathJoin_cons by literal_name. intros q Hq HP. apply HP. by right. }
  assert (Forall validName (pathJoin projectDir [str ".opencode"])) as Hoc
    by by apply pathJoin_valid.
  assert (∀ n, validName n →
    outside (pathJoin (pathJoin projectDir [str ".opencode"]) [n]) P) as Hsub.
  { intros n Hn. apply outside_join; [|done]. by constructor. }
  unfold syncOpenCode.
  eapply safe_bind; [apply safe_existsSync|]. intros hasAi _.
  eapply safe_bind; [apply safe_consoleLog|]. intros _ _.
  eapply safe_bind; [by apply safe_mkdirSync|]. intros _ _.
  eapply safe_bind; [apply safe_consoleLog|]. intros _ _.
  eapply safe_bind; [apply safe_existsSync|]. intros hasSkills _.
  eapply safe_bind.
  { instantiate (1 := anything). destruct hasSkills; [|by apply safe_ret].
    eapply safe_bind; [apply safe_readSubdirs|]. intros skills Hskills.
    eapply safe_bind; [|intros _ _; apply safe_consoleLog].
    apply safe_forOf. eapply Forall_impl; [exact Hskills|].
    intros skill Hskill. cbn beta. apply safe_convertSkill; [|done|].
    - by apply pathJoin_valid.
    - apply Hsub. literal_name. }
  intros _ _.
  eapply safe_bind; [apply safe_existsSync|]. intros hasAgents _.
  eapply safe_bind.
  { instantiate (1 := anything). destruct hasAgents; [|by apply safe_ret].
    eapply safe_bind; [apply safe_readdirSync|]. intros names Hnames.
    eapply safe_bind; [|intros _ _; apply safe_consoleLog].
    apply safe_forOf. apply Forall_forall. intros agent Hin.
    apply list_elem_of_In, filter_In in Hin as [Hin _].
    rewrite Forall_forall in Hnames.
    apply safe_convertAgent; [by apply pathJoin_valid| |].
    - apply Hnames. by apply list_elem_of_In.
    - apply Hsub. literal_name. }
  intros _ _.
  eapply safe_bind.
  { apply safe_generateCommands; [by apply pathJoin_valid|].
    apply Hsub. literal_name. }
  intros _ _.
  eapply safe_bind; [apply safe_consoleLog|]. intros _ _.
  eapply safe_bind; [by apply safe_generatePluginTemplate|]. intros _ _.
  eapply safe_bind; [apply safe_consoleLog|]. intros _ _.
  eapply safe_bind.
  { apply safe_generateOpenCodeConfig; [done|]. intros HP. apply HP. by left. }
  intros _ _.
  eapply safe_bind; [apply safe_consoleLog|]. intros _ _.
  eapply safe_bind; [by apply safe_generateAgentsMd|]. intros _ _.
  repeat (eapply safe_bind; [apply safe_consoleLog|]; intros _ _).
  apply safe_consoleLog.
Qed.


Lemma wfFiles_empty : wfFiles ∅.
Proof. intros p e. by rewrite lookup_empty. Qed.

Lemma wfFiles_insert f p e :
  Forall validName p → wfFiles f → wfFiles (<[p := e]> f).
Proof.
  intros Hp Hf q e'. rewrite lookup_insert.
  case_decide; [by intros _; subst|apply Hf].
Qed.



Lemma missing_skill_file_is_skipped_witness :
  let skillsDir := [str "p"; str ".ai"; str "skills"] in
  let target := [str "p"; str ".opencode"; str "skill"] in
  let w :=
    World (<[ skillsDir ++ [str "debug"; str "SKILL.md"] := File (str "# Debug") ]>
          (<[ skillsDir ++ [str "debug"] := Dir ]>
          (<[ skillsDir ++ [str "empty"] := Dir ]>
          (<[ skillsDir := Dir ]> ∅)))) [] in
  convertSkillToOpenCode (pathJoin skillsDir [str "empty"]) target (str "empty") w
  = (Ok tt, w)
  ∧ convertSkills skillsDir target ([] ++ str "empty" :: [str "debug"]) w
    = convertSkills skillsDir target [str "debug"] w.
Proof.
  intros skillsDir target w.
  apply (missing_skill_file_is_skipped skillsDir target [] (str "empty")
           [str "debug"] w w).
  - reflexivity.
  - vm_compute. reflexivity.
Defined.

End FsFacts.

(** * The stack detector *)

Module DetectorFacts.
Import FsFacts.

Lemma decodeUtf8_ascii bs :
  forallb (fun b => b <? 192) bs = true → decodeUtf8 bs = bs.
Proof.
  induction bs as [|b bs IH]; [done|]. simpl.
  intros [Hb Hbs]%andb_true_iff. by rewrite Hb, IH.
Qed.

Lemma string_of_uint_digits d :
  forallb isDigit (map N_of_ascii (list_ascii_of_string (NilEmpty.string_of_uint d)))
  = true.
Proof. induction d; simpl; try done. Qed.

Lemma forallb_imp {A} (f g : A → bool) l :
  (∀ x, f x = true → g x = true) → forallb f l = true → forallb g l = true.
Proof.
  intros H. rewrite !forallb_forall. auto.
Qed.

Lemma numToString_digits n : forallb isDigit (numToString n) = true.
Proof.
  unfold numToString, str.
  assert (forallb isDigit (map N_of_ascii (list_ascii_of_string
            (NilZero.string_of_uint (Nat.to_uint n)))) = true) as H.
  { unfold NilZero.string_of_uint. destruct (Nat.to_uint n); try done;
      apply (string_of_uint_digits (_ _)). }
  rewrite decodeUtf8_ascii; [done|].
  eapply forallb_imp; [|exact H]. intros x. unfold isDigit.
  intros [_ Hx]%andb_true_iff. apply N.leb_le in Hx. apply N.ltb_lt. lia.
Qed.

Lemma objGet_None kvs k : k ∉ kvs.*1 → objGet kvs k = None.
Proof.
  induction kvs as [|[k' v] kvs IH]; [done|]. simpl.
  intros [Hk Hkvs]%not_elem_of_cons. rewrite IH by done.
  by rewrite decide_False.
Qed.

Lemma objGet_app_None kvs1 kvs2 k :
  objGet kvs1 k = None → objGet kvs2 k = None → objGet (kvs1 ++ kvs2) k = None.
Proof.
  intros H1 H2. induction kvs1 as [|[k' v] kvs1 IH]; [done|].
  simpl in *. destruct (objGet kvs1 k); [done|].
  rewrite IH by done. done.
Qed.

Lemma named_not_index name i : named name → name ≠ numToString i.
Proof. intros H ->. unfold named in H. by rewrite numToString_digits in H. Qed.

Lemma ownProps_None v name :
  named name → name ∉ objectKeys v → objGet (ownProps v) name = None.
Proof.
  intros Hname Hkeys. apply objGet_None.
  destruct v as [[| | | s | l | kvs]|]; simpl; try apply not_elem_of_nil.
  - intros (kv & -> & Hin)%list_elem_of_fmap.
    apply elem_of_lookup_imap in Hin as (i & c & -> & _).
    by apply (named_not_index _ i) in Hname.
  - intros (kv & -> & Hin)%list_elem_of_fmap.
    apply elem_of_lookup_imap in Hin as (i & c & -> & _).
    by apply (named_not_index _ i) in Hname.
  - done.
Qed.

Lemma lacks_declares parseJson w manifest k1 k2 known name :
  lacks parseJson w manifest k1 k2 known → name ∈ known → named name →
  declares parseJson w manifest k1 k2 name = false.
Proof.
  intros Hlacks Hin Hname. unfold declares.
  destruct (entryAt w manifest) as [[text|]|] eqn:E; try done.
  destruct (parseJson text) as [j|] eqn:Ej; [|done].
  specialize (Hlacks text j E Ej name Hin).
  apply not_elem_of_app in Hlacks as [H1 H2].
  assert (objGet (spread2 (memberOf j k1) (memberOf j k2)) name = None) as ->.
  { apply objGet_app_None; by apply ownProps_None. }
  by destruct j.
Qed.

Lemma existsb_false {A} (f : A → bool) (l : list A) :
  (∀ x, x ∈ l → f x = false) → existsb f l = false.
Proof.
  induction l as [|x l IH]; [done|]. intros H. simpl.
  rewrite H by (by left). apply IH. intros y ?. apply H. by right.
Qed.

Ltac listed :=
  repeat first [apply list_elem_of_here | apply list_elem_of_further].

Section WithParser.

Variable parseJson : jsstring → option json.

Lemma checkComposer_spec dir w :
  checkComposer parseJson dir w
  = (Ok (if declares parseJson w (pathJoin dir [str "composer.json"])
              (str "require") (str "require-dev") (str "laravel/framework")
         then Some (Detection (Some PhpLaravel) High
                      (str "Found laravel/framework in composer.json"))
         else None), w).
Proof.
  unfold checkComposer, declares, bind at 1. run_test.
  set (p := pathJoin dir [str "composer.json"]).
  destruct (entryAt w p) as [[text|]|] eqn:E; try done.
  unfold tryCatch, readJson, bind, readFileSync. rewrite E.
  destruct (parseJson text) as [j|]; [|done].
  destruct j; simpl; try done.
  match goal with |- context [truthy ?x] => by destruct (truthy x) end.
Qed.

Lemma checkPackage_spec dir w :
  let d name := declares parseJson w (pathJoin dir [str "package.json"])
                  (str "dependencies") (str "devDependencies") (str name) in
  checkPackage parseJson dir w
  = (Ok (if d "react" || d "react-dom" then
           Some (Detection (Some ReactTypescript) High
                   (str "Found react in package.json"))
         else if d "express" then
           Some (Detection (Some NodeExpress) High
                   (str "Found express in package.json"))
         else if d "typescript" then
           Some (Detection (Some ReactTypescript) Low
                   (str "Found typescript but no specific framework"))
         else None), w).
Proof.
  intros d. unfold d, checkPackage, declares, bind at 1. run_test.
  set (p := pathJoin dir [str "package.json"]).
  destruct (entryAt w p) as [[text|]|] eqn:E; try done.
  unfold tryCatch, readJson, bind, readFileSync. rewrite E.
  destruct (parseJson text) as [j|]; [|done].
  destruct j; simpl; try done.
  repeat match goal with |- context [truthy ?x] => destruct (truthy x) end; done.
Qed.

Lemma scanExtensions_total dir w : ∃ r, scanExtensions dir w = (Ok r, w).
Proof.
  unfold scanExtensions, bind, readdirOrEmpty, tryCatch, readdirSync.
  destruct (entryAt w dir) as [[|]|]; simpl;
    repeat match goal with |- context [if ?b then _ else _] => destruct b end;
    eauto.
Qed.

Lemma scanExtensions_none dir w :
  (∀ f, f ∈ children (files w) dir →
        endsWith f (str ".tsx") = false ∧ endsWith f (str ".php") = false) →
  scanExtensions dir w
  = (Ok (Detection None Low (str "Could not detect stack")), w).
Proof.
  intros H. unfold scanExtensions, bind, readdirOrEmpty, tryCatch, readdirSync.
  destruct (entryAt w dir) as [[|]|]; simpl; try done.
  rewrite !existsb_false; [done| |]; intros f Hf; by apply H.
Qed.

(** detectStack, case by case. *)
Lemma detectStack_spec dir w :
  let c := declares parseJson w (pathJoin dir [str "composer.json"])
             (str "require") (str "require-dev") (str "laravel/framework") in
  let d name := declares parseJson w (pathJoin dir [str "package.json"])
                  (str "dependencies") (str "devDependencies") (str name) in
  detectStack parseJson dir w
  = if c then
      (Ok (Detection (Some PhpLaravel) High
             (str "Found laravel/framework in composer.json")), w)
    else if d "react" || d "react-dom" then
      (Ok (Detection (Some ReactTypescript) High
             (str "Found react in package.json")), w)
    else if d "express" then
      (Ok (Detection (Some NodeExpress) High
             (str "Found express in package.json")), w)
    else if d "typescript" then
      (Ok (Detection (Some ReactTypescript) Low
             (str "Found typescript but no specific framework")), w)
    else scanExtensions dir w.
Proof.
  intros c d. unfold detectStack.
  rewrite (bind_ok _ _ _ _ _ (checkComposer_spec dir w)). fold c.
  destruct c; [done|]. cbv beta iota.
  rewrite (bind_ok _ _ _ _ _ (checkPackage_spec dir w)). unfold d.
  repeat match goal with
         | |- context [declares ?a ?b ?p ?k1 ?k2 ?n] =>
             destruct (declares a b p k1 k2 n)
         end; done.
Qed.

(** C5.  When each manifest of the directory is absent, malformed, or
    lists none of the known dependency names, detectStack does not
    throw and changes nothing: its result is that of the scan of the
    file extensions, and when no entry of the directory ends in [.tsx]
    or [.php] it is the null stack with low confidence. *)
Theorem manifests_without_known_names_fall_back dir w :
  lacks parseJson w (pathJoin dir [str "composer.json"])
    (str "require") (str "require-dev") [str "laravel/framework"] →
  lacks parseJson w (pathJoin dir [str "package.json"])
    (str "dependencies") (str "devDependencies")
    [str "react"; str "react-dom"; str "express"; str "typescript"] →
  detectStack parseJson dir w = scanExtensions dir w
  ∧ (∃ r, detectStack parseJson dir w = (Ok r, w))
  ∧ ((∀ f, f ∈ children (files w) dir →
        endsWith f (str ".tsx") = false ∧ endsWith f (str ".php") = false) →
     detectStack parseJson dir w
     = (Ok (Detection None Low (str "Could not detect stack")), w)).
Proof.
  intros Hc Hp.
  assert (detectStack parseJson dir w = scanExtensions dir w) as E.
  { rewrite detectStack_spec. cbv zeta beta.
    rewrite (lacks_declares _ _ _ _ _ _ _ Hc);
      [|apply list_elem_of_here|reflexivity].
    rewrite (lacks_declares _ _ _ _ _ _ (str "react") Hp);
      [|listed|reflexivity].
    rewrite (lacks_declares _ _ _ _ _ _ (str "react-dom") Hp);
      [|listed|reflexivity].
    rewrite (lacks_declares _ _ _ _ _ _ (str "express") Hp);
      [|listed|reflexivity].
    rewrite (lacks_declares _ _ _ _ _ _ (str "typescript") Hp);
      [|listed|reflexivity].
    reflexivity. }
  rewrite E. split; [done|]. split.
  - apply scanExtensions_total.
  - apply scanExtensions_none.
Qed.

(** C6, as the code has it.  A composer.json that declares
    laravel/framework wins over a package.json that declares react;
    and when composer.json does not decide, a package.json that
    declares react or react-dom yields react-typescript even when it
    declares express too.  A manifest declares a name when the table
    the detector builds from its two dependency sections has a truthy
    entry under it: a name listed with an empty version text, [0],
    [false] or [null] is not declared. *)
Theorem detection_priority dir w :
  let c := declares parseJson w (pathJoin dir [str "composer.json"])
             (str "require") (str "require-dev") (str "laravel/framework") in
  let d name := declares parseJson w (pathJoin dir [str "package.json"])
                  (str "dependencies") (str "devDependencies") (str name) in
  (c = true → d "react" = true →
   detectStack parseJson dir w
   = (Ok (Detection (Some PhpLaravel) High
            (str "Found laravel/framework in composer.json")), w))
  ∧ (c = false → d "react" = true ∨ d "react-dom" = true → d "express" = true →
     detectStack parseJson dir w
     = (Ok (Detection (Some ReactTypescript) High
              (str "Found react in package.json")), w)).
Proof.
  intros c d. subst c d. cbv beta. split.
  - intros Hc _. rewrite detectStack_spec. cbv zeta beta. by rewrite Hc.
  - intros Hc Hr _. rewrite detectStack_spec. cbv zeta beta. rewrite Hc.
    destruct Hr as [-> | ->]; [done|]. by rewrite orb_true_r.
Qed.

(** C2, as the code has it.  The manifests are tried in the order
    composer.json, package.json, and within package.json the names in
    the order react or react-dom, express, typescript; the first name
    that is declared decides.  laravel/framework, react, react-dom and
    express give their stack with high confidence; typescript alone
    gives react-typescript with low confidence.  A manifest declares
    a name when the table built from its two dependency sections has
    a truthy entry under it; a name listed with a falsy value is not
    declared. *)
Theorem detection_by_dependency dir w :
  let c := declares parseJson w (pathJoin dir [str "composer.json"])
             (str "require") (str "require-dev") (str "laravel/framework") in
  let d name := declares parseJson w (pathJoin dir [str "package.json"])
                  (str "dependencies") (str "devDependencies") (str name) in
  (c = true →
   detectStack parseJson dir w
   = (Ok (Detection (Some PhpLaravel) High
            (str "Found laravel/framework in composer.json")), w))
  ∧ (c = false → d "react" = true ∨ d "react-dom" = true →
     detectStack parseJson dir w
     = (Ok (Detection (Some ReactTypescript) High
              (str "Found react in package.json")), w))
  ∧ (c = false → d "react" = false → d "react-dom" = false →
     d "express" = true →
     detectStack parseJson dir w
     = (Ok (Detection (Some NodeExpress) High
              (str "Found express in package.json")), w))
  ∧ (c = false → d "react" = false → d "react-dom" = false →
     d "express" = false → d "typescript" = true →
     detectStack parseJson dir w
     = (Ok (Detection (Some ReactTypescript) Low
              (str "Found typescript but no specific framework")), w)).
Proof.
  intros c d. subst c d. cbv beta. split; [|split; [|split]].
  - intros Hc. rewrite detectStack_spec. cbv zeta beta. by rewrite Hc.
  - intros Hc Hr. rewrite detectStack_spec. cbv zeta beta. rewrite Hc.
    destruct Hr as [-> | ->]; [done|]. by rewrite orb_true_r.
  - intros Hc H1 H2 H3. rewrite detectStack_spec. cbv zeta beta.
    by rewrite Hc, H1, H2, H3.
  - intros Hc H1 H2 H3 H4. rewrite detectStack_spec. cbv zeta beta.
    by rewrite Hc, H1, H2, H3, H4.
Qed.

End WithParser.

Lemma manifests_without_known_names_fall_back_witness :
  let w := projectWith [(str "package.json", str "{ not json")] in
  detectStack exampleParser [str "p"] w = scanExtensions [str "p"] w
  ∧ (∃ r, detectStack exampleParser [str "p"] w = (Ok r, w))
  ∧ ((∀ f, f ∈ children (files w) [str "p"] →
        endsWith f (str ".tsx") = false ∧ endsWith f (str ".php") = false) →
     detectStack exampleParser [str "p"] w
     = (Ok (Detection None Low (str "Could not detect stack")), w)).
Proof.
  intros w. apply manifests_without_known_names_fall_back.
  - intros text j E. vm_compute in E. discriminate.
  - intros text j E Ej. vm_compute in E. injection E as <-.
    vm_compute in Ej. discriminate.
Defined.

Lemma detection_priority_witness :
  let w1 := projectWith [(str "composer.json", str "composer");
                         (str "package.json", str "package")] in
  let w2 := projectWith [(str "package.json", str "package")] in
  detectStack exampleParser [str "p"] w1
  = (Ok (Detection (Some PhpLaravel) High
           (str "Found laravel/framework in composer.json")), w1)
  ∧ detectStack exampleParser [str "p"] w2
    = (Ok (Detection (Some ReactTypescript) High
             (str "Found react in package.json")), w2).
Proof.
  intros w1 w2. split.
  - pose proof (detection_priority exampleParser [str "p"] w1) as H.
    cbv zeta in H. destruct H as [H _].
    apply H; vm_compute; reflexivity.
  - pose proof (detection_priority exampleParser [str "p"] w2) as H.
    cbv zeta in H. destruct H as [_ H].
    apply H; [vm_compute; reflexivity | left; vm_compute; reflexivity
             | vm_compute; reflexivity].
Defined.

Lemma detection_by_dependency_witness :
  let w := projectWith [(str "package.json", str "ts")] in
  detectStack exampleParser [str "p"] w
  = (Ok (Detection (Some ReactTypescript) Low
           (str "Found typescript but no specific framework")), w).
Proof.
  intros w.
  pose proof (detection_by_dependency exampleParser [str "p"] w) as H.
  cbv zeta in H. destruct H as (_ & _ & _ & H).
  apply H; vm_compute; reflexivity.
Defined.

(** C2, as the specification has it, fails twice: typescript is a
    known dependency name, and a package.json that lists it is
    detected with low confidence; and a package.json in which react
    is present with an empty version text is not detected at all,
    the test being the truth of the entry. *)
Lemma known_name_without_high_confidence :
  let w1 := projectWith [(str "package.json", str "ts")] in
  let w2 := projectWith [(str "package.json", str "react-unset")] in
  exampleParser (str "ts") = Some packageTypescript
  ∧ (detectStack exampleParser [str "p"] w1).1
    = Ok (Detection (Some ReactTypescript) Low
            (str "Found typescript but no specific framework"))
  ∧ unsetParser (str "react-unset") = Some packageReactUnset
  ∧ sectionKeys packageReactUnset (str "dependencies") = [str "react"]
  ∧ (detectStack unsetParser [str "p"] w2).1
    = Ok (Detection None Low (str "Could not detect stack")).
Proof.
  vm_compute. split; [|split; [|split; [|split]]]; reflexivity.
Qed.

(** C6, as the specification has it, fails: this composer.json
    contains laravel/framework, with an empty version text, and the
    package.json contains react; the test of the detector is the
    truth of the entry, so composer.json does not decide and the
    result is react-typescript. *)
Lemma listed_but_unset_laravel_loses :
  let w := projectWith [(str "composer.json", str "composer");
                        (str "package.json", str "package")] in
  unsetParser (str "composer") = Some composerLaravelUnset
  ∧ sectionKeys composerLaravelUnset (str "require") = [str "laravel/framework"]
  ∧ sectionKeys packageReactExpress (str "dependencies")
    = [str "express"; str "react"]
  ∧ (detectStack unsetParser [str "p"] w).1
    = Ok (Detection (Some ReactTypescript) High
            (str "Found react in package.json")).
Proof. vm_compute. split; [|split; [|split]]; reflexivity. Qed.

End DetectorFacts.

(** * The add command *)

Module AddFacts.
Import FsFacts.

Lemma entryAt_entryF w p : entryAt w p = entryF (files w) p.
Proof. by destruct p. Qed.

Lemma says_ret : says (ret tt) (fun _ => []).
Proof. intros [f c]. unfold ret. simpl. by rewrite app_nil_r. Qed.

Lemma says_emit e : says (emit e) (fun _ => [e]).
Proof. by intros w. Qed.

Lemma says_bind m k e1 e2 :
  says m e1 → says k e2 → says (m ;; k) (fun f => e1 f ++ e2 f).
Proof.
  intros Hm Hk w. unfold bind. rewrite Hm, Hk. simpl. by rewrite app_assoc.
Qed.

Lemma says_bind_reads {A} (m : M A) v (k : A → M unit) e :
  reads m v → (∀ a, says (k a) (e a)) →
  says (bind m k) (fun f => e (v f) f).
Proof. intros Hm Hk w. unfold bind. by rewrite Hm, Hk. Qed.

Lemma says_forOf {A} (xs : list A) body ev :
  (∀ x, says (body x) (ev x)) →
  says (forOf xs body) (fun f => flat_map (fun x => ev x f) xs).
Proof.
  intros Hb. induction xs as [|x xs IH].
  - apply says_ret.
  - simpl. apply (says_bind _ _ (ev x)); [apply Hb | apply IH].
Qed.

Lemma says_ext m e1 e2 : (∀ f, e1 f = e2 f) → says m e1 → says m e2.
Proof. intros H Hm w. by rewrite Hm, H. Qed.

Lemma reads_directoryExists p :
  reads (directoryExists p)
        (fun f => match entryF f p with Some Dir => true | _ => false end).
Proof. intros w. rewrite directoryExists_run. by rewrite entryAt_entryF. Qed.

Lemma reads_readdirOrEmpty p : reads (readdirOrEmpty p) (fun f => dirNames f p).
Proof.
  intros w. unfold readdirOrEmpty, tryCatch, readdirSync, dirNames.
  rewrite entryAt_entryF. by destruct (entryF (files w) p) as [[|]|].
Qed.

Section WithEnvironment.

Variable sourceDir : path.
Variable cwd : path.
Variables gray red bold cyan : jsstring → jsstring.
Variable errorText : errno → jsstring.

Lemma says_listSkills heading skills :
  says (listSkills gray heading skills) (fun _ => skillLines gray heading skills).
Proof.
  unfold listSkills, skillLines. destruct (0 <? length skills)%nat.
  - apply (says_bind _ _ (fun _ => [Log (gray heading)])
             (fun _ => map (fun s => Log (gray (str "    - " ++ s))) skills)).
    + apply says_emit.
    + eapply says_ext;
        [|apply (says_forOf skills _ (fun s _ => [Log (gray (str "    - " ++ s))]))].
      * intros f. induction skills as [|s l IH]; [done|].
        cbn [flat_map map app]. by f_equal.
      * intros s. apply says_emit.
  - apply says_ret.
Qed.

Lemma says_listAvailableSkills :
  says (listAvailableSkills sourceDir gray) (listingEvents sourceDir gray).
Proof.
  unfold listAvailableSkills, listingEvents.
  apply (says_bind _ _ (fun _ => [Log (gray (nl ++ str "Available skills:"))]));
    [apply says_emit|].
  apply (says_bind_reads _ _ _
           (fun a f => skillLines gray (str "  Core skills:") a
                       ++ flat_map (stackSkillLines sourceDir gray f)
                            (dirNames f (pathJoin sourceDir [str "stacks"]))));
    [apply reads_readdirOrEmpty|].
  intros mainSkills.
  apply (says_bind _ _ (fun _ => skillLines gray (str "  Core skills:") mainSkills));
    [apply says_listSkills|].
  apply (says_bind_reads _ _ _
           (fun a f => flat_map (stackSkillLines sourceDir gray f) a));
    [apply reads_readdirOrEmpty|].
  intros stacks.
  apply (says_forOf stacks _ (fun stack f => stackSkillLines sourceDir gray f stack)).
  intros stack w. rewrite bind_directoryExists. unfold stackSkillLines.
  rewrite entryAt_entryF.
  set (d := pathJoin sourceDir [str "stacks"; stack; str "skills"]).
  destruct (entryF (files w) d) as [[|]|] eqn:E; try apply says_ret.
  unfold bind, readdir, readdirSync. rewrite entryAt_entryF, E.
  apply says_listSkills.
Qed.

Lemma findInStacks_none targetAiDir name stacks current w :
  (∀ stack, stack ∈ stacks →
     entryAt w (pathJoin sourceDir [str "stacks"; stack; str "skills"; name])
     ≠ Some Dir) →
  findInStacks sourceDir targetAiDir name stacks current w = (Ok current, w).
Proof.
  induction stacks as [|stack stacks IH]; intros H; [done|].
  simpl. rewrite bind_directoryExists.
  specialize (H stack (list_elem_of_here _ _)) as Hs.
  destruct (entryAt w _) as [[|]|]; try done;
    apply IH; intros s Hin; apply H; by right.
Qed.


(** addSkill on a name that is in no skills directory of the source. *)
Lemma addSkill_unknown targetAiDir name w :
  entryAt w (pathJoin sourceDir [str "stacks"]) = Some Dir →
  entryAt w (pathJoin sourceDir [str "skills"; name]) ≠ Some Dir →
  (∀ stack, stack ∈ children (files w) (pathJoin sourceDir [str "stacks"]) →
     entryAt w (pathJoin sourceDir [str "stacks"; stack; str "skills"; name])
     ≠ Some Dir) →
  addSkill sourceDir cwd gray cyan targetAiDir name w
  = (Ok tt,
     World (files w)
       (console w ++ [SpinFail (str "Skill not found: " ++ name)]
        ++ listingEvents sourceDir gray (files w))).
Proof.
  intros Hstacks Hmain Hstack. unfold addSkill.
  assert (directoryExists (pathJoin sourceDir [str "skills"; name]) w
          = (Ok false, w)) as Hd.
  { rewrite directoryExists_run.
    by destruct (entryAt w (pathJoin sourceDir [str "skills"; name])) as [[|]|]. }
  rewrite (bind_ok _ _ _ _ _ Hd). cbn [negb].
  assert (readdir (pathJoin sourceDir [str "stacks"]) w
          = (Ok (children (files w) (pathJoin sourceDir [str "stacks"])), w))
    as Hr.
  { unfold readdir, readdirSync. by rewrite Hstacks. }
  erewrite bind_ok; cycle 1.
  { erewrite bind_ok; [|exact Hr]. by apply findInStacks_none. }
  cbn [fst snd]. rewrite (bind_ok _ _ _ _ _ Hd). cbn [negb].
  erewrite bind_ok; [|reflexivity].
  rewrite says_listAvailableSkills. cbn [files console].
  by rewrite <- app_assoc.
Qed.

Lemma elem_of_skillLines heading skills s :
  s ∈ skills → Log (gray (str "    - " ++ s)) ∈ skillLines gray heading skills.
Proof.
  intros Hs. unfold skillLines. destruct skills as [|x l]; [by inversion Hs|].
  cbn [length Nat.ltb Nat.leb]. right.
  by apply (list_elem_of_fmap_2 (fun s => Log (gray (str "    - " ++ s)))).
Qed.

Lemma elem_of_flat_map {A B} (f : A → list B) (l : list A) (y : B) :
  y ∈ flat_map f l ↔ ∃ x, x ∈ l ∧ y ∈ f x.
Proof.
  rewrite list_elem_of_In, in_flat_map.
  split; intros (x & ? & ?); exists x; by rewrite ?list_elem_of_In in *.
Qed.

(** X28.  In an initialized project, for a skill name that is a folder
    neither under [skills/] nor under any [stacks/<stack>/skills/] of
    the source tree (whose [stacks/] directory exists), [add skill]
    returns without throwing, leaves every file and directory as it
    is, and prints the heading of the list of available skills with
    one line for every entry of [skills/] and of each
    [stacks/<stack>/skills/]. *)
Theorem add_unknown_skill_lists_skills name w :
  entryAt w (getTargetAiDir cwd) = Some Dir →
  entryAt w (pathJoin sourceDir [str "stacks"]) = Some Dir →
  entryAt w (pathJoin sourceDir [str "skills"; name]) ≠ Some Dir →
  (∀ stack, stack ∈ children (files w) (pathJoin sourceDir [str "stacks"]) →
     entryAt w (pathJoin sourceDir [str "stacks"; stack; str "skills"; name])
     ≠ Some Dir) →
  ∃ w',
    add sourceDir cwd gray red bold cyan errorText (str "skill") name w
    = (Ok tt, w')
    ∧ files w' = files w
    ∧ SpinFail (str "Skill not found: " ++ name) ∈ console w'
    ∧ Log (gray (nl ++ str "Available skills:")) ∈ console w'
    ∧ (∀ s,
         entryAt w (pathJoin sourceDir [str "skills"]) = Some Dir →
         s ∈ children (files w) (pathJoin sourceDir [str "skills"]) →
         Log (gray (str "    - " ++ s)) ∈ console w')
    ∧ (∀ stack s,
         stack ∈ children (files w) (pathJoin sourceDir [str "stacks"]) →
         entryAt w (pathJoin sourceDir [str "stacks"; stack; str "skills"])
         = Some Dir →
         s ∈ children (files w)
               (pathJoin sourceDir [str "stacks"; stack; str "skills"]) →
         Log (gray (str "    - " ++ s)) ∈ console w').
Proof.
  intros Hinit Hstacks Hmain Hstack.
  set (w1 := World (files w)
               (console w ++ [Log (bold (nl ++ str "➕ Adding " ++ str "skill"
                                         ++ str ": " ++ name ++ nl))])).
  set (w2 := World (files w)
               (console w1 ++ [SpinStart (str "Adding " ++ str "skill" ++ str "...")])).
  exists (World (files w)
            (console w2 ++ [SpinFail (str "Skill not found: " ++ name)]
             ++ listingEvents sourceDir gray (files w))).
  split; [|split; [|split; [|split; [|split]]]].
  - unfold add, bind at 1, consoleLog, emit. fold w1.
    rewrite bind_directoryExists.
    change (entryAt w1 (getTargetAiDir cwd)) with (entryAt w (getTargetAiDir cwd)).
    rewrite Hinit. cbn [negb].
    change (bool_decide (str "skill" = str "stack")) with false.
    change (bool_decide (str "skill" = str "skill")) with true.
    cbn [negb andb]. unfold bind at 1, emit.
    change (World (files w1) (console w1 ++
              [SpinStart (str "Adding " ++ str "skill" ++ str "...")])) with w2.
    unfold tryCatch.
    rewrite (addSkill_unknown (getTargetAiDir cwd) name w2); [reflexivity|done..].
  - reflexivity.
  - cbn [console]. apply elem_of_app. right. apply list_elem_of_here.
  - cbn [console]. apply elem_of_app. right. apply list_elem_of_further.
    apply list_elem_of_here.
  - intros s Hdir Hs. cbn [console]. apply elem_of_app. right.
    apply list_elem_of_further, list_elem_of_further.
    apply elem_of_app. left.
    apply elem_of_skillLines. unfold dirNames.
    rewrite <- (entryAt_entryF w), Hdir. done.
  - intros stack s Hin Hdir Hs. cbn [console]. apply elem_of_app. right.
    apply list_elem_of_further, list_elem_of_further.
    apply elem_of_app. right.
    apply elem_of_flat_map. exists stack. split.
    + unfold dirNames. by rewrite <- (entryAt_entryF w), Hstacks.
    + unfold stackSkillLines. rewrite <- (entryAt_entryF w), Hdir.
      by apply elem_of_skillLines.
Qed.

End WithEnvironment.

Lemma add_unknown_skill_lists_skills_witness :
  let source := [str "pkg"; str ".ai"] in
  let w :=
    World (<[ source ++ [str "stacks"; str "php-laravel"; str "skills"; str "migration"] := Dir ]>
          (<[ source ++ [str "stacks"; str "php-laravel"; str "skills"] := Dir ]>
          (<[ source ++ [str "stacks"; str "php-laravel"] := Dir ]>
          (<[ source ++ [str "stacks"] := Dir ]>
          (<[ source ++ [str "skills"; str "debug"] := Dir ]>
          (<[ source ++ [str "skills"] := Dir ]>
          (<[ [str "p"; str ".ai"] := Dir ]> ∅))))))) [] in
  ∃ w',
    add source [str "p"] id id id id (fun _ => str "error")
        (str "skill") (str "nonexistent-skill") w
    = (Ok tt, w')
    ∧ files w' = files w
    ∧ Log (str "    - debug") ∈ console w'
    ∧ Log (str "    - migration") ∈ console w'.
Proof.
  intros source w.
  destruct (add_unknown_skill_lists_skills source [str "p"] id id id id
              (fun _ => str "error") (str "nonexistent-skill") w)
    as (w' & Hadd & Hfiles & _ & _ & Hmain & Hstack).
  - vm_compute. reflexivity.
  - vm_compute. reflexivity.
  - vm_compute. discriminate.
  - intros stack Hin. vm_compute in Hin.
    apply list_elem_of_singleton in Hin as ->. vm_compute. discriminate.
  - exists w'. split; [exact Hadd|]. split; [exact Hfiles|]. split.
    + apply (Hmain (str "debug")); [vm_compute; reflexivity|].
      vm_compute. apply list_elem_of_here.
    + apply (Hstack (str "php-laravel") (str "migration"));
        [|vm_compute; reflexivity|]; vm_compute; apply list_elem_of_here.
Defined.

(** C9.  The source tree of this run has [skills/] and no [stacks/]:
    the name is in no skills directory, the project is initialized,
    and yet [add skill] prints no list of skills.  The listing of
    stacks at line 101 has no guard (the one at line 127 has), its
    error is caught by add and reported as a failure. *)
Lemma add_unknown_skill_without_stacks :
  let source := [str "pkg"; str ".ai"] in
  let w :=
    World (<[ source ++ [str "skills"; str "debug"] := Dir ]>
          (<[ source ++ [str "skills"] := Dir ]>
          (<[ source := Dir ]>
          (<[ [str "p"; str ".ai"] := Dir ]> ∅)))) [] in
  add source [str "p"] id id id id (fun _ => str "ENOENT")
      (str "skill") (str "nonexistent-skill") w
  = (Ok tt,
     World (files w)
       [ Log (nl ++ str "➕ Adding skill: nonexistent-skill" ++ nl);
         SpinStart (str "Adding skill...");
         SpinFail (str "Failed to add skill");
         Log (str "  Error: ENOENT") ]).
Proof. vm_compute. reflexivity. Qed.

End AddFacts.

(** * The directory synchronizer *)

Module CopyFacts.
Import FsFacts.

Lemma app_cons_assoc {A} (base : list A) n comps :
  (base ++ [n]) ++ comps = base ++ n :: comps.
Proof. by rewrite <- app_assoc. Qed.

Lemma mkdirFrom_grows base comps w :
  files w ⊆ files (mkdirFrom base comps w).2.
Proof.
  revert base w. induction comps as [|n comps IH]; intros base w; [done|].
  simpl. destruct (files w !! (base ++ [n])) as [[|]|] eqn:E; [done|apply IH|].
  etrans; [|apply IH]. simpl. by apply insert_subseteq.
Qed.

Lemma mkdirFrom_result_grows base comps w o w' :
  mkdirFrom base comps w = (o, w') → files w ⊆ files w'.
Proof. intros H. pose proof (mkdirFrom_grows base comps w) as G. by rewrite H in G. Qed.

Lemma mkdirFrom_other base comps w p :
  ¬ p `prefix_of` base ++ comps →
  files (mkdirFrom base comps w).2 !! p = files w !! p.
Proof.
  revert base w. induction comps as [|n comps IH]; intros base w Hp; [done|].
  assert (¬ p `prefix_of` (base ++ [n]) ++ comps) as Hp'
    by by rewrite app_cons_assoc.
  simpl. destruct (files w !! (base ++ [n])) as [[|]|] eqn:E; [done|by apply IH|].
  rewrite IH by done. simpl. apply lookup_insert_ne.
  intros <-. apply Hp'. by apply prefix_app_r.
Qed.

Lemma mkdirFrom_ok base comps w w' :
  comps ≠ [] → mkdirFrom base comps w = (Ok tt, w') →
  files w' !! (base ++ comps) = Some Dir.
Proof.
  revert base w. induction comps as [|n comps IH]; intros base w Hne; [done|].
  simpl. destruct comps as [|m comps].
  - destruct (files w !! (base ++ [n])) as [[|]|] eqn:E; simpl.
    + done.
    + by intros [= <-].
    + intros [= <-]. simpl. apply lookup_insert_eq.
  - rewrite <- (app_cons_assoc base n (m :: comps)).
    destruct (files w !! (base ++ [n])) as [[|]|] eqn:E; [done| |]; by apply IH.
Qed.

Lemma mkdirSync_ok p w w' : mkdirSync p w = (Ok tt, w') → entryAt w' p = Some Dir.
Proof.
  destruct p as [|n p]; [done|]. intros H.
  by apply (mkdirFrom_ok [] (n :: p)) in H.
Qed.

(** A failed mkdir fails again, and changes nothing, in every file
    system that has at least the entries it left. *)
Lemma mkdirFrom_throw_stable base comps w e w' w'' :
  mkdirFrom base comps w = (Throw e, w') →
  files w' ⊆ files w'' →
  mkdirFrom base comps w'' = (Throw e, w'').
Proof.
  revert base w. induction comps as [|n comps IH]; intros base w; [done|].
  simpl. intros H Hsub.
  destruct (files w !! (base ++ [n])) as [[|]|] eqn:E.
  - injection H as <- <-.
    by rewrite (lookup_weaken _ _ _ _ E Hsub).
  - assert (files w'' !! (base ++ [n]) = Some Dir) as ->.
    { eapply lookup_weaken; [|exact Hsub].
      eapply lookup_weaken; [exact E|]. by eapply mkdirFrom_result_grows. }
    by eapply IH.
  - assert (files w'' !! (base ++ [n]) = Some Dir) as ->.
    { eapply lookup_weaken; [|exact Hsub].
      eapply lookup_weaken; [|by eapply mkdirFrom_result_grows].
      apply lookup_insert_eq. }
    by eapply IH.
Qed.

Lemma entryAt_weaken w w' p e :
  files w ⊆ files w' → entryAt w p = Some e → entryAt w' p = Some e.
Proof.
  intros Hsub. destruct p; [done|]. simpl. intros H.
  by eapply lookup_weaken.
Qed.

Lemma not_prefix_dirname (p : path) : p ≠ [] → ¬ p `prefix_of` dirname p.
Proof.
  intros Hne [k Hk]. apply (f_equal length) in Hk.
  rewrite length_app in Hk. unfold dirname in Hk.
  destruct p as [|x p] using rev_ind; [done|].
  rewrite removelast_last, length_app in Hk. simpl in Hk. lia.
Qed.

Lemma copyItem_cases root item r w :
  ∃ v w',
    copyItem root false item r w = (Ok (record v r item.1), w')
    ∧ files w ⊆ files w'
    ∧ (v ≠ Failed → is_Some (entryAt w' (root ++ item.1)))
    ∧ ∀ w'' r2, files w' ⊆ files w'' →
        ∃ v2, copyItem root false item r2 w'' = (Ok (record v2 r2 item.1), w'')
              ∧ v2 ≠ Copied ∧ (v ≠ Failed → v2 = Skipped).
Proof.
  unfold copyItem, bind at 1, existsSync.
  set (dest := root ++ item.1).
  assert (∀ w'' r2, is_Some (entryAt w'' dest) →
            ∃ v2, (let (o, w') := (Ok (bool_decide (is_Some (entryAt w'' dest))), w'') in
                   match o with
                   | Ok a =>
                       (if a && negb false then ret (addSkipped r2 item.1)
                        else tryCatch
                               (mkdirSync (dirname dest);;
                                writeFileSync dest item.2;; ret (addCopied r2 item.1))
                               (fun _ => ret (addError r2 item.1))) w'
                   | Throw e => (Throw e, w')
                   end) = (Ok (record v2 r2 item.1), w'')
                  ∧ v2 ≠ Copied ∧ v2 = Skipped) as Hskip.
  { intros w'' r2 Hex. exists Skipped. by rewrite bool_decide_eq_true_2. }
  destruct (entryAt w dest) as [e|] eqn:E.
  - exists Skipped, w. rewrite bool_decide_eq_true_2 by eauto.
    split; [done|]. split; [done|]. split; [by rewrite E; eauto|].
    intros w'' r2 Hsub. destruct (Hskip w'' r2) as (v2 & ? & ? & ?).
    { exists e. by eapply entryAt_weaken. }
    exists v2. naive_solver.
  - rewrite bool_decide_eq_false_2 by (by intros [? ?]). cbn [andb].
    assert (dest ≠ []) as Hne by (by intros Hd; rewrite Hd in E).
    assert (files w !! dest = None) as Hnone by (by destruct dest).
    unfold tryCatch, bind.
    destruct (mkdirSync (dirname dest) w) as [[[]|e] wa] eqn:Hmk.
    + pose proof (mkdirSync_ok _ _ _ Hmk) as Hdir.
      assert (files wa !! dest = None) as Hnone'.
      { replace wa with (mkdirSync (dirname dest) w).2 by by rewrite Hmk.
        unfold mkdirSync. rewrite mkdirFrom_other; [done|].
        by apply not_prefix_dirname. }
      assert (files w ⊆ files wa) as Hsub1
        by by eapply mkdirFrom_result_grows.
      unfold writeFileSync. destruct dest as [|x dest']; [done|].
      rewrite Hdir, Hnone'. simpl.
      exists Copied. eexists. split; [reflexivity|]. simpl.
      split; [|split].
      * etrans; [exact Hsub1|]. by apply insert_subseteq.
      * intros _. rewrite lookup_insert_eq. eauto.
      * intros w'' r2 Hsub. destruct (Hskip w'' r2) as (v2 & ? & ? & ?).
        { exists (File item.2). simpl. eapply lookup_weaken; [|exact Hsub].
          apply lookup_insert_eq. }
        exists v2. naive_solver.
    + exists Failed, wa. split; [done|]. split; [|split; [done|]].
      * by eapply mkdirFrom_result_grows.
      * intros w'' r2 Hsub.
        destruct (entryAt w'' dest) as [e'|] eqn:E''.
        -- destruct (Hskip w'' r2) as (v2 & Hv & ? & ?); [by rewrite E''; eauto|].
           rewrite E'' in Hv. exists v2. naive_solver.
        -- exists Failed. rewrite bool_decide_eq_false_2 by (by intros [? ?]).
           cbn [andb]. unfold tryCatch, bind, mkdirSync.
           rewrite (mkdirFrom_throw_stable _ _ _ _ _ _ Hmk Hsub). done.
Qed.

Lemma errors_record v r rel :
  errors (record v r rel)
  = errors r ++ match v with Failed => [rel] | _ => [] end.
Proof. destruct v; simpl; by rewrite ?app_nil_r. Qed.

Lemma skipped_record v r rel :
  skipped (record v r rel)
  = skipped r ++ match v with Skipped => [rel] | _ => [] end.
Proof. destruct v; simpl; by rewrite ?app_nil_r. Qed.

Lemma copied_record v r rel :
  v ≠ Copied → copied (record v r rel) = copied r.
Proof. by destruct v. Qed.

Lemma app_eq_self {A} (l k : list A) : l ++ k = l → k = [].
Proof.
  intros H. apply (f_equal length) in H. rewrite length_app in H.
  destruct k; [done|]. simpl in H. lia.
Qed.

(** A run over a list of items, and any later run over the same
    items. *)
Lemma copyItems_twice root items r w :
  ∃ r1 w1 er1,
    copyItems root false items r w = (Ok r1, w1)
    ∧ files w ⊆ files w1
    ∧ errors r1 = errors r ++ er1
    ∧ ∀ w'' r2, files w1 ⊆ files w'' →
        ∃ r2' sk er,
          copyItems root false items r2 w'' = (Ok r2', w'')
          ∧ copied r2' = copied r2
          ∧ skipped r2' = skipped r2 ++ sk
          ∧ errors r2' = errors r2 ++ er
          ∧ (∀ rel, rel ∈ items.*1 → rel ∈ sk ∨ rel ∈ er)
          ∧ (er1 = [] → er = [] ∧ sk = items.*1).
Proof.
  revert r w. induction items as [|item items IH]; intros r w.
  - exists r, w, []. split; [done|]. split; [done|].
    split; [by rewrite app_nil_r|].
    intros w'' r2 _. exists r2, [], []. rewrite !app_nil_r.
    repeat split; try done. intros rel Hin. by inversion Hin.
  - destruct (copyItem_cases root item r w) as (v & w' & Hitem & Hsub & _ & Hagain).
    destruct (IH (record v r item.1) w')
      as (r1 & w1 & er1 & Hrest & Hsub1 & Herr1 & Hagain1).
    exists r1, w1, (match v with Failed => [item.1] | _ => [] end ++ er1).
    split; [|split; [|split]].
    + cbn [copyItems]. by rewrite (bind_ok _ _ _ _ _ Hitem).
    + by etrans.
    + by rewrite Herr1, errors_record, <- app_assoc.
    + intros w'' r2 Hsub2.
      destruct (Hagain w'' r2) as (v2 & Hitem2 & Hv2 & Hskip); [by etrans|].
      destruct (Hagain1 w'' (record v2 r2 item.1) Hsub2)
        as (r2' & sk & er & Hrest2 & Hcop & Hsk & Her & Hall & Hclean).
      exists r2', (match v2 with Skipped => [item.1] | _ => [] end ++ sk),
             (match v2 with Failed => [item.1] | _ => [] end ++ er).
      split; [|split; [|split; [|split; [|split]]]].
      * cbn [copyItems]. by rewrite (bind_ok _ _ _ _ _ Hitem2).
      * by rewrite Hcop, copied_record.
      * by rewrite Hsk, skipped_record, <- app_assoc.
      * by rewrite Her, errors_record, <- app_assoc.
      * intros rel. rewrite fmap_cons, elem_of_cons, !elem_of_app.
        intros [->|Hin].
        -- destruct v2; [done| |]; [left|right]; left; apply list_elem_of_here.
        -- destruct (Hall rel Hin); [left|right]; by right.
      * intros Hnil. apply app_eq_nil in Hnil as [Hv ->].
        destruct (Hclean eq_refl) as [-> ->].
        assert (v ≠ Failed) as Hnf by (by intros ->).
        rewrite (Hskip Hnf). by rewrite fmap_cons.
Qed.

(** C4, as the model of the specification has it.  Without the
    overwrite flag a second run of the copy leaves the target as the
    first run left it and copies nothing; every item is reported as
    skipped or as failed, and all are reported as skipped when the
    first run reported no failure. *)
Theorem second_copy_changes_nothing source root filter w :
  ∃ r1 w1 r2,
    copyAiDirectory source root (Options filter false) w = (Ok r1, w1)
    ∧ copyAiDirectory source root (Options filter false) w1 = (Ok r2, w1)
    ∧ copied r2 = []
    ∧ (∀ rel, rel ∈ relevantPaths source filter →
              rel ∈ skipped r2 ∨ rel ∈ errors r2)
    ∧ (errors r1 = [] →
       errors r2 = [] ∧ skipped r2 = relevantPaths source filter).
Proof.
  unfold copyAiDirectory, relevantPaths. cbn [overwrite optStack].
  set (items := List.filter _ _).
  destruct (copyItems_twice root items (Result [] [] []) w)
    as (r1 & w1 & er1 & Hrun & _ & Herr & Hagain).
  destruct (Hagain w1 (Result [] [] [])) as
    (r2 & sk & er & Hrun2 & Hcop & Hsk & Her & Hall & Hclean); [done|].
  exists r1, w1, r2. simpl in *.
  split; [done|]. split; [done|]. split; [done|]. split.
  - intros rel Hin. rewrite Hsk, Her. by apply Hall.
  - intros Hnil. rewrite Herr in Hnil. destruct (Hclean Hnil) as [-> ->].
    by rewrite Hsk, Her.
Qed.

(** C4, as the specification has it, fails: a file where a directory
    of the source has to go makes the copy of an item fail in both
    runs, so the second run does not report that item as skipped. *)
Lemma second_copy_reports_failure_again :
  let source : tree := {[ [str "skills"; str "x.md"] := str "x" ]} in
  let w := World (<[ [str "p"; str "skills"] := File (str "in the way") ]>
                 (<[ [str "p"] := Dir ]> ∅)) [] in
  copyAiDirectory source [str "p"] (Options None false) w
  = (Ok (Result [] [] [[str "skills"; str "x.md"]]), w)
  ∧ copyAiDirectory source [str "p"] (Options None false) w
    = (Ok (Result [] [] [[str "skills"; str "x.md"]]), w)
  ∧ [str "skills"; str "x.md"] ∉ skipped (Result [] [] [[str "skills"; str "x.md"]]).
Proof.
  vm_compute. split; [reflexivity|]. split; [reflexivity|].
  apply not_elem_of_nil.
Qed.

Lemma second_copy_changes_nothing_witness :
  let source : tree := {[ [str "skills"; str "x.md"] := str "x" ]} in
  let w := World (<[ [str "p"] := Dir ]> ∅) [] in
  ∃ r1 w1 r2,
    copyAiDirectory source [str "p"] (Options None false) w = (Ok r1, w1)
    ∧ copyAiDirectory source [str "p"] (Options None false) w1 = (Ok r2, w1)
    ∧ copied r2 = []
    ∧ errors r2 = [] ∧ skipped r2 = [[str "skills"; str "x.md"]].
Proof.
  intros source w.
  destruct (second_copy_changes_nothing source [str "p"] None w)
    as (r1 & w1 & r2 & H1 & H2 & Hc & _ & Hclean).
  exists r1, w1, r2. split; [exact H1|]. split; [exact H2|]. split; [exact Hc|].
  apply Hclean. vm_compute in H1. by injection H1 as <- _.
Defined.

End CopyFacts.

(** * More on the format converter *)

Module ConvertMore.
Import RegexFacts ConvertFacts.

(** The lines between the delimiters of a converted agent. *)
Lemma agent_header_lines description body :
  forallb isDot description = true →
  readFrontmatter (agentFrontmatter description ++ body)
  = Some ([ str "description: " ++ description;
            str "model: anthropic/claude-sonnet-4-5" ], body).
Proof.
  intros Hd.
  apply (readFrontmatter_template
           [ str "description: " ++ description;
             str "model: anthropic/claude-sonnet-4-5" ]).
  repeat apply Forall_cons_2; try apply Forall_nil_2.
  - by apply headerLine_prefixed.
  - by vm_compute.
Qed.

Lemma agentDescription_oneline agentName content :
  forallb isDot agentName = true →
  forallb isDot (agentDescription agentName content) = true.
Proof.
  intros Hn. unfold agentDescription.
  destruct (smatch content headingPattern) eqn:Hh.
  - by apply heading_group_oneline in Hh as [_ ?].
  - destruct (smatch content quotePattern) eqn:Hq.
    + by apply quote_group_oneline in Hq as [_ ?].
    + by rewrite forallb_isDot_app, Hn.
Qed.

(** X1.  The header of a converted agent is a block of two lines between
    [---] lines, followed by an empty line, the markdown as it was and
    a line feed.  Without a heading the description is the text of
    the first block quote; without either it is the agent name
    followed by [ agent]. *)
Theorem agent_header_reads_back agentName content :
  forallb isDot agentName = true →
  readFrontmatter (agentOpenCodeContent agentName content)
  = Some ([ str "description: " ++ agentDescription agentName content;
            str "model: anthropic/claude-sonnet-4-5" ],
          nl ++ content ++ nl)
  ∧ (∀ q, smatch content headingPattern = None →
          smatch content quotePattern = Some q →
          agentDescription agentName content = group1 q)
  ∧ (smatch content headingPattern = None →
     smatch content quotePattern = None →
     agentDescription agentName content = agentName ++ str " agent").
Proof.
  intros Hn. split; [|split].
  - unfold agentOpenCodeContent. apply agent_header_lines.
    by apply agentDescription_oneline.
  - intros q Hh Hq. unfold agentDescription. by rewrite Hh, Hq.
  - intros Hh Hq. unfold agentDescription. by rewrite Hh, Hq.
Qed.

Lemma agent_header_reads_back_witness :
  let content := str "plain text" ++ nl in
  readFrontmatter (agentOpenCodeContent (str "oracle") content)
  = Some ([ str "description: oracle agent";
            str "model: anthropic/claude-sonnet-4-5" ],
          nl ++ content ++ nl).
Proof.
  intros content.
  destruct (agent_header_reads_back (str "oracle") content) as (H & _ & Hd).
  - reflexivity.
  - rewrite Hd in H by reflexivity. exact H.
Defined.

(** X2.  Whatever the markdown, the description of a converted skill is
    not empty and, when the folder name is one line, is one line. *)
Theorem skill_description_is_one_line skillName content :
  skillName ≠ [] →
  forallb isDot skillName = true →
  skillDescription skillName content ≠ []
  ∧ forallb isDot (skillDescription skillName content) = true.
Proof.
  intros Hne Hn. split; [|by apply skillDescription_oneline].
  unfold skillDescription.
  destruct (smatch content quotePattern) eqn:Hq.
  - by apply quote_group_oneline in Hq as [? _].
  - intros H. apply app_eq_nil in H as [_ H]. by vm_compute in H.
Qed.

Lemma skill_description_is_one_line_witness :
  skillDescription (str "debug") (str "> a" ++ nl ++ str "b") ≠ []
  ∧ forallb isDot (skillDescription (str "debug") (str "> a" ++ nl ++ str "b"))
    = true.
Proof.
  apply skill_description_is_one_line; [discriminate|reflexivity].
Defined.

(** X3.  The title is the text after the first line that begins with [#]
    and white space: the white space may run over line breaks, so a
    marker alone on its line takes the next text as the title.  The
    agent description is found the same way. *)
Theorem title_is_first_heading skillName agentName before ws text after :
  noLineStartWith 35 None before = true →
  atLineStart (prevAfter None before) = true →
  ws ≠ [] →
  forallb isSpace ws = true →
  startsText text = true →
  forallb isDot text = true →
  atLineEnd after = true →
  let content := before ++ 35 :: ws ++ text ++ after in
  skillTitle skillName content = text
  ∧ agentDescription agentName content = text.
Proof.
  intros Hb Hp Hne Hws Hs Hdot Hend content.
  assert (smatch content headingPattern = Some [35 :: ws ++ text; text]) as H.
  { rewrite headingPattern_shape. apply smatch_first; auto. }
  unfold skillTitle, agentDescription. by rewrite H.
Qed.

Lemma title_is_first_heading_witness :
  let content := str "intro" ++ nl ++ str "#" ++ nl ++ nl ++ str "Next line"
                 ++ nl ++ str "# Real" in
  skillTitle (str "debug") content = str "Next line"
  ∧ agentDescription (str "oracle") content = str "Next line".
Proof.
  intros content.
  apply (title_is_first_heading (str "debug") (str "oracle")
           (str "intro" ++ nl) (nl ++ nl) (str "Next line")
           (nl ++ str "# Real")); try reflexivity. discriminate.
Defined.

Lemma execFrom_no_marker c q p s :
  noLineStartWith c p s = true → execFrom (linePattern c q) p s = None.
Proof.
  intros H. rewrite <- (app_nil_r s), (execFrom_skip _ _ _ _ _ H).
  cbn [execFrom]. rewrite matchAt_none; [done|].
  intros st'. unfold linePattern.
  intros (st1 & [-> _]%in_Bol & H1)%in_runSeq_cons.
  by apply in_runSeq_cons in H1 as (st2 & (y & s2 & Hrest & _)%in_One & _).
Qed.

(** X4.  A markdown text in which no line begins with [#] and none with
    [>] gets the defaults: the skill description is the folder name
    followed by [ skill], the agent description the agent name
    followed by [ agent]. *)
Theorem no_marker_lines_give_defaults skillName agentName content :
  noLineStartWith 35 None content = true →
  noLineStartWith 62 None content = true →
  skillDescription skillName content = skillName ++ str " skill"
  ∧ agentDescription agentName content = agentName ++ str " agent".
Proof.
  intros Hh Hq.
  assert (smatch content headingPattern = None) as Eh
    by (rewrite headingPattern_shape; by apply execFrom_no_marker).
  assert (smatch content quotePattern = None) as Eq
    by (rewrite quotePattern_shape; by apply execFrom_no_marker).
  unfold skillDescription, skillTitle, agentDescription.
  by rewrite Eh, Eq.
Qed.

Lemma no_marker_lines_give_defaults_witness :
  let content := str "text with a # inside" ++ nl ++ str " > indented" in
  skillDescription (str "debug") content = str "debug skill"
  ∧ agentDescription (str "oracle") content = str "oracle agent".
Proof.
  intros content.
  apply (no_marker_lines_give_defaults (str "debug") (str "oracle") content);
    reflexivity.
Defined.

Lemma startsWith_md_app stem :
  startsWith stem (str ".md") = false → stem ≠ [] →
  startsWith (stem ++ str ".md") (str ".md") = false.
Proof.
  intros H Hne. destruct stem as [|a [|b [|c stem]]]; [done| | |exact H].
  - simpl. by destruct (46 =? a).
  - simpl. destruct (46 =? a); [|done]. by destruct (109 =? b).
Qed.

(** X5.  [agent.replace('.md', '')] removes the first [.md]; when the only
    one is the extension, the converted agent keeps its file name. *)
Theorem agent_file_keeps_name stem :
  includes stem (str ".md") = false →
  replaceFirst (stem ++ str ".md") (str ".md") [] ++ str ".md"
  = stem ++ str ".md".
Proof.
  intros H. f_equal. induction stem as [|c stem IH]; [done|].
  cbn [includes] in H. apply orb_false_iff in H as [Hs Hinc].
  change ((c :: stem) ++ str ".md") with (c :: stem ++ str ".md").
  cbn [replaceFirst].
  change (c :: stem ++ str ".md") with ((c :: stem) ++ str ".md").
  rewrite startsWith_md_app by done.
  by rewrite IH.
Qed.

Lemma agent_file_keeps_name_witness :
  replaceFirst (str "oracle" ++ str ".md") (str ".md") [] ++ str ".md"
  = str "oracle" ++ str ".md".
Proof. apply agent_file_keeps_name. reflexivity. Defined.

End ConvertMore.

(** * More on the sync command *)

Module SyncMore.
Import FsFacts CopyFacts.

(** X6.  convertAgentToOpenCode reads its source without a test: a source
    that is missing or is a directory makes it throw before anything
    is created. *)
Theorem agent_conversion_needs_its_source src tgt name w :
  (∀ c, entryAt w src ≠ Some (File c)) →
  ∃ e, convertAgentToOpenCode src tgt name w = (Throw e, w).
Proof.
  intros H. unfold convertAgentToOpenCode, bind, readFileSync.
  destruct (entryAt w src) as [[c|]|] eqn:E; [by destruct (H c)|eauto..].
Qed.

Lemma agent_conversion_needs_its_source_witness :
  let w := World (<[ [str "agents"; str "x.md"] := Dir ]>
                 (<[ [str "agents"] := Dir ]> ∅)) [] in
  ∃ e, convertAgentToOpenCode [str "agents"; str "x.md"] [str "out"] (str "x") w
       = (Throw e, w).
Proof.
  intros w. apply agent_conversion_needs_its_source.
  intros c. vm_compute. discriminate.
Defined.

(** X7.  generateAgentsMd twice is generateAgentsMd once. *)
Theorem generateAgentsMd_idempotent projectDir projectName w :
  (generateAgentsMd projectDir projectName ;;
   generateAgentsMd projectDir projectName) w
  = generateAgentsMd projectDir projectName w.
Proof.
  unfold bind at 1.
  destruct (generateAgentsMd projectDir projectName w) as [[[]|e] w1] eqn:E;
    [|done].
  unfold generateAgentsMd, bind, existsSync in *.
  set (p := pathJoin projectDir [str "AGENTS.md"]) in *.
  destruct (entryAt w p) as [e|] eqn:Ep.
  - rewrite bool_decide_eq_true_2 in E by eauto. simpl in E.
    injection E as <-. rewrite Ep. by rewrite bool_decide_eq_true_2 by eauto.
  - rewrite bool_decide_eq_false_2 in E by (by intros [? ?]). simpl in E.
    unfold writeFileSync in E. destruct p as [|n p]; [done|].
    destruct (entryAt w (dirname (n :: p))) as [[|]|]; try done.
    destruct (files w !! (n :: p)) as [[|]|]; try done;
      injection E as <-; simpl; rewrite lookup_insert_eq;
      by rewrite bool_decide_eq_true_2 by eauto.
Qed.

Lemma mkdirFrom_succeeds base comps w :
  (∀ k c, k ≠ [] → k `prefix_of` comps → files w !! (base ++ k) ≠ Some (File c)) →
  ∃ w', mkdirFrom base comps w = (Ok tt, w').
Proof.
  revert base w. induction comps as [|n comps IH]; intros base w H.
  - by eexists.
  - simpl.
    destruct (files w !! (base ++ [n])) as [[c|]|] eqn:E.
    + destruct (H [n] c); [done|by exists comps|done].
    + apply IH. intros k c Hk Hpre. rewrite app_cons_assoc.
      apply H; [done|]. by apply prefix_cons.
    + apply IH. intros k c Hk Hpre. simpl. rewrite lookup_insert_ne.
      * rewrite app_cons_assoc. apply H; [done|]. by apply prefix_cons.
      * intros Heq. apply (f_equal length) in Heq. rewrite !length_app in Heq.
        destruct k; [done|simpl in Heq; lia].
Qed.

(** X8.  A successful conversion: the skill has its [SKILL.md] and no file
    stands where the target directory has to be.  Then the call
    returns, the converted text is at [<target>/<skill>/SKILL.md], the
    entries that existed elsewhere are as they were, and nothing is
    printed. *)
Theorem convertSkill_writes_converted_file src tgt name content w :
  Forall validName tgt →
  validName name →
  entryAt w (pathJoin src [str "SKILL.md"]) = Some (File content) →
  (∀ q c, q `prefix_of` tgt ++ [name] → files w !! q ≠ Some (File c)) →
  files w !! (tgt ++ [name; str "SKILL.md"]) ≠ Some Dir →
  ∃ w',
    convertSkillToOpenCode src tgt name w = (Ok tt, w')
    ∧ files w' !! (tgt ++ [name; str "SKILL.md"])
      = Some (File (skillOpenCodeContent name content))
    ∧ (∀ p e, p ≠ tgt ++ [name; str "SKILL.md"] →
              files w !! p = Some e → files w' !! p = Some e)
    ∧ console w' = console w.
Proof.
  intros Htgt Hname Hsrc Hfree Hnodir.
  unfold convertSkillToOpenCode, bind at 1, existsSync. rewrite Hsrc.
  rewrite bool_decide_eq_true_2 by eauto. cbn [negb].
  unfold bind at 1, readFileSync. rewrite Hsrc.
  rewrite (pathJoin_cons tgt name []) by done. rewrite pathJoin_nil.
  rewrite (pathJoin_cons (tgt ++ [name]) (str "SKILL.md") [])
    by (apply validNameb_true; vm_compute; reflexivity).
  rewrite pathJoin_nil, <- app_assoc. cbn [app].
  destruct (mkdirFrom_succeeds [] (tgt ++ [name]) w) as [w1 Hmk].
  { intros k c _ Hk. by apply Hfree. }
  unfold bind, mkdirSync. rewrite Hmk.
  pose proof (mkdirFrom_result_grows _ _ _ _ _ Hmk) as Hsub.
  assert (files w1 !! (tgt ++ [name; str "SKILL.md"])
          = files w !! (tgt ++ [name; str "SKILL.md"])) as Hsame.
  { replace w1 with (mkdirFrom [] (tgt ++ [name]) w).2 by by rewrite Hmk.
    apply mkdirFrom_other. intros [k Hk]. apply (f_equal length) in Hk.
    rewrite !length_app in Hk. simpl in Hk. lia. }
  assert (entryAt w1 (tgt ++ [name]) = Some Dir) as Hdir
    by exact (mkdirSync_ok _ w w1 Hmk).
  assert (console w1 = console w) as Hcon.
  { clear -Hmk. revert Hmk. generalize (@nil jsstring) at 1.
    revert w. induction (tgt ++ [name]) as [|n comps IH]; intros w base.
    - by intros [= <-].
    - simpl. destruct (files w !! (base ++ [n])) as [[|]|]; [done| |].
      + apply IH.
      + intros H. by apply IH in H. }
  unfold writeFileSync.
  destruct (tgt ++ [name; str "SKILL.md"]) as [|x rest] eqn:Ep.
  { by destruct tgt. }
  assert (dirname (x :: rest) = tgt ++ [name]) as ->.
  { rewrite <- Ep. unfold dirname.
    change [name; str "SKILL.md"] with ([name] ++ [str "SKILL.md"]).
    by rewrite app_assoc, removelast_last. }
  rewrite Hdir.
  destruct (files w1 !! (x :: rest)) as [[c|]|] eqn:Ef.
  - eexists. split; [reflexivity|]. simpl. split; [apply lookup_insert_eq|].
    split; [|done]. intros p e Hp He. rewrite lookup_insert_ne by done.
    by eapply lookup_weaken.
  - by rewrite Hsame in Ef.
  - eexists. split; [reflexivity|]. simpl. split; [apply lookup_insert_eq|].
    split; [|done]. intros p e Hp He. rewrite lookup_insert_ne by done.
    by eapply lookup_weaken.
Qed.

Lemma convertSkill_writes_converted_file_witness :
  let w := World (<[ [str "skills"; str "debug"; str "SKILL.md"]
                     := File (str "# Debug") ]> ∅) [] in
  ∃ w',
    convertSkillToOpenCode [str "skills"; str "debug"] [str "out"] (str "debug") w
    = (Ok tt, w')
    ∧ files w' !! [str "out"; str "debug"; str "SKILL.md"]
      = Some (File (skillOpenCodeContent (str "debug") (str "# Debug"))).
Proof.
  intros w.
  destruct (convertSkill_writes_converted_file [str "skills"; str "debug"]
              [str "out"] (str "debug") (str "# Debug") w)
    as (w' & H1 & H2 & _).
  - repeat constructor; apply validNameb_true; vm_compute; reflexivity.
  - apply validNameb_true; vm_compute; reflexivity.
  - vm_compute. reflexivity.
  - intros q c Hpre Hq. simpl in Hq.
    apply lookup_insert_Some in Hq as [[<- _]|[_ Hq]];
      [|by rewrite lookup_empty in Hq].
    destruct Hpre as [k Hk]. vm_compute in Hk. discriminate.
  - vm_compute. discriminate.
  - exists w'. split; [exact H1|exact H2].
Defined.


Lemma safe_mono (P P' : path → Prop) {A} (m : M A) Q :
  (∀ p, P' p → P p) → safe P m Q → safe P' m Q.
Proof.
  intros HP Hm w Hwf. destruct (Hm w Hwf) as (? & Hk & ?).
  split; [done|]. split; [|done]. intros p e Hp. by apply Hk, HP.
Qed.

(** Writing a file only when nothing is at its path changes no
    existing entry. *)
Lemma safe_write_if_absent P p data (k k2 : M unit) :
  Forall validName p → safe P k anything → safe P k2 anything →
  safe P (do found <- existsSync p;
          (if negb found then writeFileSync p data ;; k else ret tt) ;; k2)
       anything.
Proof.
  intros Hv Hk Hk2 w Hwf.
  set (m := bind (existsSync p) _).
  destruct (entryAt w p) as [e|] eqn:E.
  - assert (m w = k2 w) as ->.
    { unfold m, bind, existsSync. rewrite E.
      by rewrite bool_decide_eq_true_2 by eauto. }
    exact (Hk2 w Hwf).
  - assert (m w = (writeFileSync p data ;; k ;; k2) w) as ->.
    { unfold m, bind, existsSync. rewrite E.
      rewrite bool_decide_eq_false_2 by (by intros [? ?]). cbn [negb].
      by destruct (writeFileSync p data w) as [[[]|?] ?]. }
    assert (files w !! p = None) as Hnone by (by destruct p).
    destruct (writeFileSync p data w) as [[[]|err] w1] eqn:Hw.
    + rewrite (bind_ok _ _ _ _ _ Hw).
      assert (w1 = setFiles w (<[p := File data]> (files w))) as ->.
      { unfold writeFileSync in Hw. destruct p as [|n p]; [done|].
        destruct (entryAt w (dirname (n :: p))) as [[|]|]; try done.
        rewrite Hnone in Hw. by injection Hw as <-. }
      set (w1 := setFiles w (<[p := File data]> (files w))).
      assert (wfFiles (files w1)) as Hwf1 by by apply wfFiles_insert.
      destruct (safe_bind P k (fun _ => k2) anything anything Hk
                  (fun _ _ => Hk2) w1 Hwf1) as (? & Hkeep & ?).
      split; [done|]. split; [|done].
      eapply keeps_trans; [|exact Hkeep].
      intros q e _ Hq. simpl. rewrite lookup_insert_ne; [done|]. congruence.
    + rewrite (bind_throw _ _ _ _ _ Hw).
      assert (w1 = w) as ->.
      { unfold writeFileSync in Hw. destruct p as [|n p]; [by injection Hw|].
        destruct (entryAt w (dirname (n :: p))) as [[|]|];
          try by injection Hw.
        by rewrite Hnone in Hw. }
      split; [done|]. split; [apply keeps_refl|done].
Qed.

Lemma safe_claudeSkillList P skillsDir :
  safe P (claudeSkillList skillsDir) anything.
Proof.
  unfold claudeSkillList.
  eapply safe_bind; [apply safe_existsSync|]. intros found _.
  destruct found; [|by apply safe_ret].
  eapply safe_bind; [apply safe_readSubdirs|]. intros skills _.
  by apply safe_ret.
Qed.

Lemma safe_syncClaude sourceAiDir projectDir :
  Forall validName projectDir →
  safe (fun p => ¬ (projectDir ++ [str ".claude"]) `prefix_of` p)
       (syncClaude sourceAiDir projectDir) anything.
Proof.
  intros Hp. set (P := fun p => ¬ (projectDir ++ [str ".claude"]) `prefix_of` p).
  assert (outside (pathJoin projectDir [str ".claude"]) P) as Hout.
  { rewrite pathJoin_cons by literal_name. intros q Hq HP. by apply HP. }
  assert (Forall validName (pathJoin projectDir [str ".claude"])) as Hcl
    by by apply pathJoin_valid.
  assert (∀ n, validName n →
    outside (pathJoin (pathJoin projectDir [str ".claude"]) [n]) P) as Hsub.
  { intros n Hn. apply outside_join; [|done]. by constructor. }
  unfold syncClaude.
  eapply safe_bind; [apply safe_existsSync|]. intros hasAi _.
  eapply safe_bind; [apply safe_consoleLog|]. intros _ _.
  eapply safe_bind; [by apply safe_mkdirSync, pathJoin_valid|]. intros _ _.
  eapply safe_bind; [by apply safe_mkdirSync, pathJoin_valid|]. intros _ _.
  eapply safe_bind; [apply safe_consoleLog|]. intros _ _.
  eapply safe_bind; [apply safe_existsSync|]. intros hasSkills _.
  eapply safe_bind.
  { instantiate (1 := anything). destruct hasSkills; [|by apply safe_ret].
    eapply safe_bind; [apply safe_readSubdirs|]. intros skills Hskills.
    eapply safe_bind; [|intros _ _; apply safe_consoleLog].
    apply safe_forOf. eapply Forall_impl; [exact Hskills|].
    intros skill Hskill. cbn beta. apply safe_convertSkill; [|done|].
    - by apply pathJoin_valid.
    - apply Hsub. literal_name. }
  intros _ _.
  eapply safe_bind.
  { apply safe_generateCommands; [by apply pathJoin_valid|].
    apply Hsub. literal_name. }
  intros _ _.
  eapply safe_bind; [apply safe_consoleLog|]. intros _ _.
  eapply safe_bind; [apply safe_claudeSkillList|]. intros skillList _.
  apply safe_write_if_absent; [by apply pathJoin_valid|apply safe_consoleLog..].
Qed.

(** X9.  syncClaude leaves every existing entry outside [.claude] as it
    is: CLAUDE.md is written only when nothing is at its path. *)
Theorem syncClaude_keeps_other_files sourceAiDir projectDir w p e :
  Forall validName projectDir →
  wfFiles (files w) →
  files w !! p = Some e →
  ¬ (projectDir ++ [str ".claude"]) `prefix_of` p →
  files (syncClaude sourceAiDir projectDir w).2 !! p = Some e.
Proof.
  intros Hp Hwf He Hpre.
  destruct (safe_syncClaude sourceAiDir projectDir Hp w Hwf) as (_ & Hk & _).
  by apply Hk.
Qed.

Lemma syncClaude_keeps_other_files_witness :
  let w :=
    World (<[ [str "p"; str "CLAUDE.md"] := File (str "mine") ]>
          (<[ [str "p"] := Dir ]> ∅)) [] in
  files (syncClaude [str "pkg"; str ".ai"] [str "p"] w).2
    !! [str "p"; str "CLAUDE.md"]
  = Some (File (str "mine")).
Proof.
  intros w. apply syncClaude_keeps_other_files.
  - repeat constructor; literal_name.
  - repeat apply wfFiles_insert; try apply wfFiles_empty;
      repeat constructor; literal_name.
  - vm_compute. reflexivity.
  - intros [k Hk]. vm_compute in Hk. discriminate.
Defined.

(** X10.  [sync all] leaves every existing entry as it is, except
    [opencode.json] and what lies under [.opencode] and [.claude]. *)
Theorem syncAll_keeps_other_files sourceAiDir projectDir w p e :
  Forall validName projectDir →
  wfFiles (files w) →
  files w !! p = Some e →
  p ≠ projectDir ++ [str "opencode.json"] →
  ¬ (projectDir ++ [str ".opencode"]) `prefix_of` p →
  ¬ (projectDir ++ [str ".claude"]) `prefix_of` p →
  files (syncAll sourceAiDir projectDir w).2 !! p = Some e.
Proof.
  intros Hp Hwf He Hne Hoc Hcl.
  assert (safe (fun p => ¬ generatedByAll projectDir p)
               (syncAll sourceAiDir projectDir) anything) as Hsafe.
  { unfold syncAll. eapply safe_bind.
    - eapply safe_mono; [|by apply safe_syncOpenCode].
      intros q Hq Hg. apply Hq. by left.
    - intros _ _. eapply safe_bind; [apply safe_consoleLog|]. intros _ _.
      eapply safe_mono; [|by apply safe_syncClaude].
      intros q Hq Hg. apply Hq. by right. }
  destruct (Hsafe w Hwf) as (_ & Hk & _).
  apply Hk; [|done]. intros [[?|?]|?]; done.
Qed.

Lemma syncAll_keeps_other_files_witness :
  let w :=
    World (<[ [str "p"; str "README.md"] := File (str "mine") ]>
          (<[ [str "p"] := Dir ]> ∅)) [] in
  files (syncAll [str "pkg"; str ".ai"] [str "p"] w).2
    !! [str "p"; str "README.md"]
  = Some (File (str "mine")).
Proof.
  intros w. apply syncAll_keeps_other_files.
  - repeat constructor; literal_name.
  - repeat apply wfFiles_insert; try apply wfFiles_empty;
      repeat constructor; literal_name.
  - vm_compute. reflexivity.
  - vm_compute. discriminate.
  - intros [k Hk]. vm_compute in Hk. discriminate.
  - intros [k Hk]. vm_compute in Hk. discriminate.
Defined.

Lemma mkdirFrom_blocked base comps c w :
  comps ≠ [] → files w !! (base ++ comps) = Some (File c) →
  ∃ e w', mkdirFrom base comps w = (Throw e, w').
Proof.
  revert base w. induction comps as [|n comps IH]; intros base w Hne Hf; [done|].
  simpl. destruct comps as [|m comps].
  - rewrite Hf. eauto.
  - rewrite <- app_cons_assoc in Hf.
    destruct (files w !! (base ++ [n])) as [[|]|] eqn:E; [eauto|by apply IH|].
    apply IH; [done|]. simpl. rewrite lookup_insert_ne; [done|].
    intros Heq. apply (f_equal length) in Heq. rewrite !length_app in Heq.
    simpl in Heq. lia.
Qed.

Lemma mkdirFrom_only_dirs base comps w :
  onlyNewDirs (files w) (files (mkdirFrom base comps w).2).
Proof.
  revert base w. induction comps as [|n comps IH]; intros base w; [by intros ??|].
  simpl. destruct (files w !! (base ++ [n])) as [[|]|] eqn:E;
    [by intros ??|apply IH|].
  intros p c Hp. apply IH in Hp. simpl in Hp.
  rewrite lookup_insert in Hp. by case_decide.
Qed.

(** X11.  A file named [.opencode] in the project directory stops
    syncOpenCode with an error before any file is written: only
    missing directories on the way may have been created. *)
Theorem sync_stops_at_blocked_directory sourceAiDir projectDir c w :
  files w !! (projectDir ++ [str ".opencode"]) = Some (File c) →
  ∃ e w',
    syncOpenCode sourceAiDir projectDir w = (Throw e, w')
    ∧ files w ⊆ files w'
    ∧ onlyNewDirs (files w) (files w').
Proof.
  intros Hf. unfold syncOpenCode.
  rewrite (pathJoin_cons projectDir (str ".opencode") []) by literal_name.
  rewrite pathJoin_nil.
  unfold bind at 1, existsSync. unfold bind at 1, consoleLog, emit.
  set (w0 := World (files w) _).
  destruct (mkdirFrom_blocked [] (projectDir ++ [str ".opencode"]) c w0)
    as (e & w' & Hmk); [by destruct projectDir|done|].
  exists e, w'. unfold bind at 1, mkdirSync. rewrite Hmk.
  split; [done|]. split.
  - by apply (mkdirFrom_result_grows _ _ w0 _ _ Hmk).
  - pose proof (mkdirFrom_only_dirs [] (projectDir ++ [str ".opencode"]) w0) as H.
    by rewrite Hmk in H.
Qed.

Lemma sync_stops_at_blocked_directory_witness :
  let w := World (<[ [str "p"; str ".opencode"] := File (str "x") ]>
                 (<[ [str "p"] := Dir ]> ∅)) [] in
  ∃ e w',
    syncOpenCode [str "pkg"; str ".ai"] [str "p"] w = (Throw e, w')
    ∧ files w ⊆ files w'
    ∧ onlyNewDirs (files w) (files w').
Proof.
  intros w. apply (sync_stops_at_blocked_directory _ [str "p"] (str "x") w).
  vm_compute. reflexivity.
Defined.

End SyncMore.

(** * More on the stack detector *)

Module DetectorMore.
Import FsFacts DetectorFacts.

Section WithParser.

Variable parseJson : jsstring → option json.

(** X12.  detectStack never throws and changes nothing: whatever the
    directory holds (no manifest, a directory in place of a manifest,
    malformed text, the JSON value [null], a directory that cannot be
    listed), it returns a result. *)
Theorem detectStack_never_throws dir w :
  ∃ r, detectStack parseJson dir w = (Ok r, w).
Proof.
  rewrite detectStack_spec. cbv zeta beta.
  repeat match goal with
         | |- context [declares ?a ?b ?p ?k1 ?k2 ?n] =>
             destruct (declares a b p k1 k2 n)
         end; cbn [orb]; eauto using scanExtensions_total.
Qed.

Lemma existsb_true {A} (f : A → bool) (l : list A) x :
  x ∈ l → f x = true → existsb f l = true.
Proof.
  intros Hin Hx. apply existsb_exists. exists x.
  by rewrite <- list_elem_of_In.
Qed.

(** X13.  When the manifests decide nothing, the entries of the directory
    do: one that ends in [.tsx] gives react-typescript with medium
    confidence, whether or not there are [.php] entries; without any,
    one that ends in [.php] gives php-laravel with low confidence. *)
Theorem extension_scan_prefers_tsx dir w :
  lacks parseJson w (pathJoin dir [str "composer.json"])
    (str "require") (str "require-dev") [str "laravel/framework"] →
  lacks parseJson w (pathJoin dir [str "package.json"])
    (str "dependencies") (str "devDependencies")
    [str "react"; str "react-dom"; str "express"; str "typescript"] →
  entryAt w dir = Some Dir →
  (∀ f, f ∈ children (files w) dir → endsWith f (str ".tsx") = true →
     detectStack parseJson dir w
     = (Ok (Detection (Some ReactTypescript) Medium
              (str "Found .tsx files in project root")), w))
  ∧ (∀ f, (∀ g, g ∈ children (files w) dir → endsWith g (str ".tsx") = false) →
          f ∈ children (files w) dir → endsWith f (str ".php") = true →
     detectStack parseJson dir w
     = (Ok (Detection (Some PhpLaravel) Low
              (str "Found .php files (assuming Laravel)")), w)).
Proof.
  intros Hc Hp Hdir.
  assert (detectStack parseJson dir w = scanExtensions dir w) as ->.
  { rewrite detectStack_spec. cbv zeta beta.
    rewrite (lacks_declares _ _ _ _ _ _ _ Hc);
      [|apply list_elem_of_here|reflexivity].
    rewrite (lacks_declares _ _ _ _ _ _ (str "react") Hp);
      [|listed|reflexivity].
    rewrite (lacks_declares _ _ _ _ _ _ (str "react-dom") Hp);
      [|listed|reflexivity].
    rewrite (lacks_declares _ _ _ _ _ _ (str "express") Hp);
      [|listed|reflexivity].
    rewrite (lacks_declares _ _ _ _ _ _ (str "typescript") Hp);
      [|listed|reflexivity].
    reflexivity. }
  unfold scanExtensions, bind, readdirOrEmpty, tryCatch, readdirSync.
  rewrite Hdir. split.
  - intros f Hin Hf.
    by rewrite (existsb_true _ _ f Hin Hf).
  - intros f Hno Hin Hf.
    rewrite (existsb_false _ _ Hno).
    by rewrite (existsb_true _ _ f Hin Hf).
Qed.

End WithParser.

Lemma extension_scan_prefers_tsx_witness :
  let w := World (<[ [str "p"; str "index.php"] := File [] ]>
                 (<[ [str "p"; str "App.tsx"] := File [] ]>
                 (<[ [str "p"] := Dir ]> ∅))) [] in
  detectStack exampleParser [str "p"] w
  = (Ok (Detection (Some ReactTypescript) Medium
           (str "Found .tsx files in project root")), w).
Proof.
  intros w.
  destruct (extension_scan_prefers_tsx exampleParser [str "p"] w) as [H _].
  - intros text j E. vm_compute in E. discriminate.
  - intros text j E. vm_compute in E. discriminate.
  - reflexivity.
  - apply (H (str "App.tsx")); [|reflexivity].
    apply elem_of_children. vm_compute. eauto.
Defined.

End DetectorMore.

(** * More on the add command *)

Module AddMore.
Import FsFacts AddFacts.

Section WithEnvironment.

Variable sourceDir : path.
Variable cwd : path.
Variables gray red bold cyan : jsstring → jsstring.
Variable errorText : errno → jsstring.

(** X14.  In a project without its [.ai] directory add prints the error and
    the hint; with a type other than [stack] and [skill] it prints
    that the type is invalid.  In both cases it returns and leaves the
    file system as it is. *)
Theorem add_refuses_without_changes type name w :
  (entryAt w (getTargetAiDir cwd) ≠ Some Dir →
   add sourceDir cwd gray red bold cyan errorText type name w
   = (Ok tt,
      World (files w)
        (console w ++
         [ addBanner bold type name;
           Log (red (str "Error: .ai directory not found."));
           Log (gray (str "Run `ai-dev init` first to initialize the project.")) ])))
  ∧ (entryAt w (getTargetAiDir cwd) = Some Dir →
     type ≠ str "stack" → type ≠ str "skill" →
     add sourceDir cwd gray red bold cyan errorText type name w
     = (Ok tt,
        World (files w)
          (console w ++
           [ addBanner bold type name;
             Log (red (str "Invalid type: " ++ type));
             Log (gray (str "Valid types: stack, skill")) ]))).
Proof.
  split.
  - intros H. unfold add, bind at 1, consoleLog, emit.
    rewrite bind_directoryExists.
    change (entryAt (World (files w) _) (getTargetAiDir cwd))
      with (entryAt w (getTargetAiDir cwd)).
    destruct (entryAt w (getTargetAiDir cwd)) as [[|]|]; try done;
      cbn [negb]; unfold bind; cbn [files console]; by rewrite <- !app_assoc.
  - intros H Hstack Hskill.
    unfold add, bind at 1, consoleLog, emit.
    rewrite bind_directoryExists.
    change (entryAt (World (files w) _) (getTargetAiDir cwd))
      with (entryAt w (getTargetAiDir cwd)).
    rewrite H. cbn [negb].
    rewrite !bool_decide_eq_false_2 by done. cbn [negb andb].
    unfold bind. cbn [files console]. by rewrite <- !app_assoc.
Qed.

(** X15.  add never throws: it returns in every case, and when
    addStack or addSkill throws, what add leaves is what they left,
    followed by the failed spinner and the line with the text of the
    error. *)
Theorem add_never_throws type name w :
  ∃ w',
    add sourceDir cwd gray red bold cyan errorText type name w = (Ok tt, w')
    ∧ ∀ e w1,
        entryAt w (getTargetAiDir cwd) = Some Dir →
        type = str "stack" ∨ type = str "skill" →
        (if bool_decide (type = str "stack")
         then addStack sourceDir gray cyan (getTargetAiDir cwd) name
         else addSkill sourceDir cwd gray cyan (getTargetAiDir cwd) name)
          (World (files w)
             (console w ++ [ addBanner bold type name;
                             SpinStart (str "Adding " ++ type ++ str "...") ]))
        = (Throw e, w1) →
        w' = World (files w1)
               (console w1 ++
                [ SpinFail (str "Failed to add " ++ type);
                  Log (red (str "  Error: " ++ errorText e)) ]).
Proof.
  unfold add, bind at 1, consoleLog, emit.
  rewrite bind_directoryExists.
  change (entryAt (World (files w) _) (getTargetAiDir cwd))
    with (entryAt w (getTargetAiDir cwd)).
  destruct (entryAt w (getTargetAiDir cwd)) as [[c|]|] eqn:Einit; cbn [negb];
    try (unfold bind; eexists; split; [reflexivity|]; by intros e w1 ?).
  destruct (negb (bool_decide (type = str "stack"))
            && negb (bool_decide (type = str "skill"))) eqn:Etype.
  - unfold bind. eexists. split; [reflexivity|].
    intros e w1 _ Ht. exfalso.
    apply andb_true_iff in Etype as [E1 E2].
    apply negb_true_iff, bool_decide_eq_false in E1, E2. by destruct Ht.
  - unfold bind at 1. unfold tryCatch. cbn [files console].
    rewrite <- app_assoc. cbn [app]. unfold addBanner.
    match goal with |- context [let (_, _) := ?m ?w0 in _] =>
      destruct (m w0) as [[[]|e] w1] eqn:E end.
    + eexists. split; [reflexivity|]. by intros e w1' _ _ H.
    + unfold bind. cbn [files console]. eexists. split; [reflexivity|].
      intros e' w1' _ _ [= <- <-]. by rewrite <- app_assoc.
Qed.

(** Events do not touch the files. *)
Lemma emit_files e w : files (emit e w).2 = files w.
Proof. done. Qed.

Lemma addStack_existing targetAiDir name w :
  entryAt w (pathJoin targetAiDir [str "stacks"; name]) = Some Dir →
  ∃ c, addStack sourceDir gray cyan targetAiDir name w
       = (Ok tt, World (files w) c).
Proof.
  intros Hdest. unfold addStack.
  destruct (isValidStack name); cbn [negb].
  - rewrite bind_directoryExists.
    destruct (entryAt w (pathJoin sourceDir [str "stacks"; name])) as [[|]|];
      cbn [negb]; try (by eexists).
    rewrite bind_directoryExists, Hdest. unfold bind. by eexists.
  - unfold bind. by eexists.
Qed.

(** X16.  [add stack] never touches a stack that is already in the project:
    when [.ai/stacks/<name>] is a directory, no file or directory is
    created or changed, whatever the name. *)
Theorem add_stack_leaves_existing_stack name w :
  entryAt w (pathJoin (getTargetAiDir cwd) [str "stacks"; name]) = Some Dir →
  ∃ c, add sourceDir cwd gray red bold cyan errorText (str "stack") name w
       = (Ok tt, World (files w) c).
Proof.
  intros Hdest. unfold add, bind at 1, consoleLog, emit.
  rewrite bind_directoryExists.
  set (w1 := World (files w) _).
  change (entryAt w1 (getTargetAiDir cwd)) with (entryAt w (getTargetAiDir cwd)).
  destruct (entryAt w (getTargetAiDir cwd)) as [[|]|];
    cbn [negb]; try (unfold bind; by eexists).
  change (bool_decide (str "stack" = str "stack")) with true.
  cbn [negb andb]. unfold bind at 1, emit. unfold tryCatch.
  set (w2 := World (files w1) _).
  destruct (addStack_existing (getTargetAiDir cwd) name w2 Hdest) as [c ->].
  by eexists.
Qed.

(** X17.  The search for a skill among the stacks reads [stacks/] without a
    guard: when the name is no core skill and [stacks/] cannot be
    listed, [add skill] reports a failure with the text of the error
    instead of the list of skills, and changes no file. *)
Theorem add_skill_reports_unreadable_stacks name w :
  entryAt w (getTargetAiDir cwd) = Some Dir →
  entryAt w (pathJoin sourceDir [str "skills"; name]) ≠ Some Dir →
  entryAt w (pathJoin sourceDir [str "stacks"]) ≠ Some Dir →
  ∃ e,
    add sourceDir cwd gray red bold cyan errorText (str "skill") name w
    = (Ok tt,
       World (files w)
         (console w ++
          [ addBanner bold (str "skill") name;
            SpinStart (str "Adding skill...");
            SpinFail (str "Failed to add skill");
            Log (red (str "  Error: " ++ errorText e)) ])).
Proof.
  intros Hinit Hmain Hstacks.
  unfold add, bind at 1, consoleLog, emit.
  rewrite bind_directoryExists.
  set (w1 := World (files w) _).
  change (entryAt w1 (getTargetAiDir cwd)) with (entryAt w (getTargetAiDir cwd)).
  rewrite Hinit. cbn [negb].
  change (bool_decide (str "skill" = str "stack")) with false.
  change (bool_decide (str "skill" = str "skill")) with true.
  cbn [negb andb]. unfold bind at 1, emit. unfold tryCatch.
  set (w2 := World (files w1) _).
  assert (∃ e, addSkill sourceDir cwd gray cyan (getTargetAiDir cwd) name w2
               = (Throw e, w2)) as [e ->].
  { unfold addSkill. rewrite bind_directoryExists.
    change (entryAt w2 ?p) with (entryAt w p).
    assert ((match entryAt w (pathJoin sourceDir [str "skills"; name]) with
             | Some Dir => true | _ => false end) = false) as ->
      by by destruct (entryAt w (pathJoin sourceDir [str "skills"; name]))
           as [[|]|].
    cbn [negb]. unfold bind, readdir, readdirSync.
    change (entryAt w2 ?p) with (entryAt w p).
    destruct (entryAt w (pathJoin sourceDir [str "stacks"])) as [[|]|];
      [eauto|done|eauto]. }
  exists e. unfold bind. cbn [files console]. unfold w2, w1. cbn [files console].
  unfold addBanner. by rewrite <- !app_assoc.
Qed.

End WithEnvironment.

Lemma add_refuses_without_changes_witness :
  let w1 := World (<[ [str "p"] := Dir ]> ∅) [] in
  let w2 := World (<[ [str "p"; str ".ai"] := Dir ]> ∅) [] in
  (∃ w',
     add [str "pkg"; str ".ai"] [str "p"] id id id id (fun _ => [])
         (str "skill") (str "debug") w1
     = (Ok tt, w')
     ∧ files w' = files w1)
  ∧ (∃ w',
       add [str "pkg"; str ".ai"] [str "p"] id id id id (fun _ => [])
           (str "plugin") (str "debug") w2
       = (Ok tt, w')
       ∧ files w' = files w2).
Proof.
  intros w1 w2. split.
  - destruct (add_refuses_without_changes [str "pkg"; str ".ai"] [str "p"]
                id id id id (fun _ => []) (str "skill") (str "debug") w1)
      as [H _].
    eexists. split; [apply H; vm_compute; discriminate|].
    reflexivity.
  - destruct (add_refuses_without_changes [str "pkg"; str ".ai"] [str "p"]
                id id id id (fun _ => []) (str "plugin") (str "debug") w2)
      as [_ H].
    eexists. split.
    + apply H; [vm_compute; reflexivity| |];
        intros E; vm_compute in E; discriminate E.
    + reflexivity.
Defined.

Lemma add_never_throws_witness :
  let w :=
    World (<[ [str "pkg"; str ".ai"; str "stacks"; str "php-laravel"] := Dir ]>
          (<[ [str "p"; str ".ai"; str "stacks"] := File (str "notes") ]>
          (<[ [str "p"; str ".ai"] := Dir ]>
          (<[ [str "p"] := Dir ]> ∅)))) [] in
  add [str "pkg"; str ".ai"] [str "p"] id id id id (fun _ => str "EEXIST")
      (str "stack") (str "php-laravel") w
  = (Ok tt,
     World (files w)
       [ Log (nl ++ str "➕ Adding stack: php-laravel" ++ nl);
         SpinStart (str "Adding stack...");
         SpinFail (str "Failed to add stack");
         Log (str "  Error: EEXIST") ]).
Proof.
  intros w.
  destruct (add_never_throws [str "pkg"; str ".ai"] [str "p"] id id id id
              (fun _ => str "EEXIST") (str "stack") (str "php-laravel") w)
    as (w' & E & Hreport).
  rewrite E. f_equal.
  rewrite (Hreport EEXIST
             (World (files w)
                [ Log (nl ++ str "➕ Adding stack: php-laravel" ++ nl);
                  SpinStart (str "Adding stack...") ])).
  - vm_compute. reflexivity.
  - vm_compute. reflexivity.
  - left. reflexivity.
  - vm_compute. reflexivity.
Defined.

Lemma add_stack_leaves_existing_stack_witness :
  let w := World (<[ [str "p"; str ".ai"; str "stacks"; str "php-laravel"] := Dir ]>
                 (<[ [str "p"; str ".ai"] := Dir ]> ∅)) [] in
  ∃ c, add [str "pkg"; str ".ai"] [str "p"] id id id id (fun _ => [])
           (str "stack") (str "php-laravel") w
       = (Ok tt, World (files w) c).
Proof.
  intros w.
  apply (add_stack_leaves_existing_stack [str "pkg"; str ".ai"] [str "p"]
           id id id id (fun _ => []) (str "php-laravel") w).
  vm_compute. reflexivity.
Defined.

Lemma add_skill_reports_unreadable_stacks_witness :
  let w := World (<[ [str "p"; str ".ai"] := Dir ]> ∅) [] in
  ∃ e w',
    add [str "pkg"; str ".ai"] [str "p"] id id id id (fun _ => str "ENOENT")
        (str "skill") (str "debug") w
    = (Ok tt, w')
    ∧ files w' = files w
    ∧ Log (str "  Error: " ++ (fun _ : errno => str "ENOENT") e) ∈ console w'.
Proof.
  intros w.
  destruct (add_skill_reports_unreadable_stacks [str "pkg"; str ".ai"] [str "p"]
           id id id id (fun _ => str "ENOENT") (str "debug") w) as [e H].
  - vm_compute. reflexivity.
  - vm_compute. discriminate.
  - vm_compute. discriminate.
  - exists e. eexists. split; [exact H|]. split; [reflexivity|].
    cbn [console]. apply elem_of_app. right.
    do 3 apply list_elem_of_further. apply list_elem_of_here.
Defined.

End AddMore.

(** * What the add command copies *)

Module AddCopy.
Import FsFacts AddFacts CopyFacts SyncMore AddMore.

Lemma stripPrefix_Some p q rel : stripPrefix p q = Some rel ↔ q = p ++ rel.
Proof.
  unfold stripPrefix. case_decide as H; split.
  - intros [= <-]. by rewrite <- H at 1; rewrite take_drop.
  - intros ->. by rewrite drop_app_length.
  - done.
  - intros ->. destruct H. by rewrite take_app_length.
Qed.

Lemma stripPrefix_None p q : stripPrefix p q = None ↔ ¬ p `prefix_of` q.
Proof.
  split.
  - intros H [rel Hrel]. apply stripPrefix_Some in Hrel. congruence.
  - intros H. destruct (stripPrefix p q) as [rel|] eqn:E; [|done].
    destruct H. exists rel. by apply stripPrefix_Some.
Qed.

(** What [fs.copy] leaves at a path: below the destination the entry
    of the source at the same place, when there is one; the former
    entry everywhere else. *)
Lemma copyEntries_lookup f src dest k :
  copyEntries f src dest !! k
  = match stripPrefix dest k with
    | Some rel =>
        match f !! (src ++ rel) with Some e => Some e | None => f !! k end
    | None => f !! k
    end.
Proof.
  unfold copyEntries.
  enough (∀ f0 m : gmap path entry,
    map_fold (fun q e acc =>
                match stripPrefix src q with
                | Some rel => <[dest ++ rel := e]> acc
                | None => acc
                end) f0 m !! k
    = match stripPrefix dest k with
      | Some rel =>
          match m !! (src ++ rel) with Some e => Some e | None => f0 !! k end
      | None => f0 !! k
      end) as H by apply H.
  intros f0 m.
  apply (map_fold_weak_ind (fun r m =>
    r !! k = match stripPrefix dest k with
             | Some rel =>
                 match m !! (src ++ rel) with Some e => Some e | None => f0 !! k end
             | None => f0 !! k
             end)).
  - destruct (stripPrefix dest k); by rewrite ?lookup_empty.
  - clear m. intros i x m r Hi IH.
    destruct (stripPrefix src i) as [reli|] eqn:Ei.
    + apply stripPrefix_Some in Ei as ->.
      rewrite lookup_insert. case_decide as Hk.
      * subst k. assert (stripPrefix dest (dest ++ reli) = Some reli) as ->
          by by apply stripPrefix_Some.
        by rewrite lookup_insert_eq.
      * rewrite IH. destruct (stripPrefix dest k) as [rel|] eqn:Ek; [|done].
        apply stripPrefix_Some in Ek as ->.
        rewrite lookup_insert_ne; [done|].
        intros Heq. apply app_inv_head in Heq. congruence.
    + rewrite IH. destruct (stripPrefix dest k) as [rel|] eqn:Ek; [|done].
      rewrite lookup_insert_ne; [done|].
      intros ->. apply stripPrefix_None in Ei. apply Ei. by eexists.
Qed.

Lemma prefix_of_dirname_app (p dest rel : path) :
  dest ≠ [] → p = dest ++ rel → ¬ p `prefix_of` dirname dest.
Proof.
  intros Hne -> [k Hk]. apply (f_equal length) in Hk.
  unfold dirname in Hk. destruct dest as [|x dest] using rev_ind; [done|].
  rewrite removelast_last, !length_app in Hk. simpl in Hk. lia.
Qed.

(** [fs.copy] into a free place: the parent of the destination can be
    made, nothing is at or below the destination, and the source does
    not contain it.  Then the destination mirrors the source, and the
    rest is as before but for the directories made on the way. *)
Lemma copy_fresh src dest w :
  dest ≠ [] →
  is_Some (files w !! src) →
  (∀ rel, files w !! (dest ++ rel) = None) →
  (∀ q c, q `prefix_of` dirname dest → files w !! q ≠ Some (File c)) →
  ¬ src `prefix_of` dest →
  ∃ w',
    copy src dest w = (Ok tt, w')
    ∧ console w' = console w
    ∧ (∀ rel, files w' !! (dest ++ rel) = files w !! (src ++ rel))
    ∧ (∀ p, ¬ dest `prefix_of` p → ¬ p `prefix_of` dirname dest →
            files w' !! p = files w !! p)
    ∧ files w ⊆ files w'
    ∧ (∀ p e, ¬ dest `prefix_of` p → files w' !! p = Some e →
              files w !! p = Some e ∨ e = Dir).
Proof.
  intros Hne [e0 Hsrc] Hfree Hway Hover.
  assert (src ≠ []) as Hsne.
  { intros ->. apply Hover. by exists dest. }
  unfold copy.
  assert (entryAt w src = Some e0) as -> by by destruct src.
  destruct (mkdirFrom_succeeds [] (dirname dest) w) as [w1 E1].
  { intros k c _ Hk. by apply Hway. }
  unfold bind, mkdirSync. rewrite E1.
  pose proof (mkdirFrom_result_grows _ _ _ _ _ E1) as Hgrow.
  assert (∀ p, ¬ p `prefix_of` dirname dest → files w1 !! p = files w !! p)
    as Hother.
  { intros p Hp. pose proof (mkdirFrom_other [] (dirname dest) w p Hp) as H.
    by rewrite E1 in H. }
  assert (console w1 = console w) as Hcons.
  { clear -E1. revert E1. generalize (@nil jsstring) as base.
    generalize (dirname dest) as comps. intros comps. revert w.
    induction comps as [|n comps IH]; intros w base; simpl.
    - by intros [= <-].
    - destruct (files w !! (base ++ [n])) as [[|]|]; [done|apply IH|].
      intros H. by apply IH in H. }
  assert (∀ rel, files w1 !! (src ++ rel) = files w !! (src ++ rel)) as Hsame.
  { intros rel. apply Hother. intros [k Hk]. apply Hover.
    exists (rel ++ k ++ [default [] (last dest)]).
    unfold dirname in Hk.
    destruct dest as [|x dest _] using rev_ind; [done|].
    rewrite removelast_last in Hk. rewrite last_snoc. simpl.
    rewrite Hk. by rewrite <- !app_assoc. }
  eexists. split; [reflexivity|]. cbn [files console setFiles].
  split; [done|]. split; [|split; [|split]].
  - intros rel. rewrite copyEntries_lookup.
    assert (stripPrefix dest (dest ++ rel) = Some rel) as ->
      by by apply stripPrefix_Some.
    rewrite Hsame. destruct (files w !! (src ++ rel)) eqn:E; [done|].
    rewrite Hother by by eapply prefix_of_dirname_app.
    apply Hfree.
  - intros p Hp Hq. rewrite copyEntries_lookup.
    apply stripPrefix_None in Hp. rewrite Hp. by apply Hother.
  - apply map_subseteq_spec. intros p e Hp. rewrite copyEntries_lookup.
    destruct (stripPrefix dest p) as [rel|] eqn:E.
    + apply stripPrefix_Some in E as ->. by rewrite Hfree in Hp.
    + by eapply lookup_weaken.
  - intros p e Hp. rewrite copyEntries_lookup.
    apply stripPrefix_None in Hp. rewrite Hp. intros He.
    destruct e as [c|]; [left|by right].
    pose proof (mkdirFrom_only_dirs [] (dirname dest) w) as Honly.
    rewrite E1 in Honly. by apply Honly.
Qed.




Lemma pathJoin_names p ns : Forall validName ns → pathJoin p ns = p ++ ns.
Proof.
  intros H. revert p. induction H as [|n ns Hn _ IH]; intros p.
  - by rewrite app_nil_r.
  - rewrite pathJoin_cons by done. rewrite IH. by rewrite <- app_assoc.
Qed.

Lemma entryAt_nonempty w p : p ≠ [] → entryAt w p = files w !! p.
Proof. by destruct p. Qed.

Ltac names :=
  repeat (apply Forall_cons_2; [first [assumption | literal_name | auto]|]);
  apply Forall_nil_2.

Lemma validStack_name name : isValidStack name = true → validName name.
Proof.
  unfold isValidStack. intros H. apply bool_decide_eq_true in H.
  cbn [map AVAILABLE_STACKS] in H.
  repeat (apply elem_of_cons in H as [->|H]; [literal_name|]).
  by apply elem_of_nil in H.
Qed.

Section WithEnvironment.

Variable sourceDir : path.
Variable cwd : path.
Variables gray red bold cyan : jsstring → jsstring.
Variable errorText : errno → jsstring.

(** The lines after the copy in addStack. *)
Lemma addStack_report name destPath w :
  entryAt w destPath = Some Dir →
  ∃ c,
    (emit (SpinSucceed (str "Added stack: " ++ cyan name)) ;;
     consoleLog (gray (str "  Location: .ai/stacks/" ++ name ++ str "/")) ;;
     do items <- readdir destPath;
     consoleLog (gray (str "  Contents:")) ;;
     forOf items (fun item => consoleLog (gray (str "    - " ++ item)))) w
    = (Ok tt,
       World (files w)
         (console w ++ SpinSucceed (str "Added stack: " ++ cyan name) :: c)).
Proof.
  intros Hd. unfold bind at 1, emit. unfold bind at 1, consoleLog, emit.
  unfold bind at 1, readdir, readdirSync. cbn [files console].
  set (w1 := World (files w) _).
  change (entryAt w1 destPath) with (entryAt w destPath). rewrite Hd.
  set (k := _ ;; _).
  assert (says k (fun f =>
            [Log (gray (str "  Contents:"))]
            ++ flat_map (fun item => [Log (gray (str "    - " ++ item))])
                 (children (files w1) destPath))) as Hk.
  { apply (says_bind _ _ (fun _ => [Log (gray (str "  Contents:"))])).
    - apply says_emit.
    - apply (says_forOf _ _ (fun item _ => [Log (gray (str "    - " ++ item))])).
      intros item. apply says_emit. }
  rewrite Hk. unfold w1. cbn [files console].
  eexists. f_equal. f_equal. rewrite <- !app_assoc. reflexivity.
Qed.

(** X18.  [add stack] with a stack that the source has and the project has
    not: the stack directory of the project mirrors that of the
    source, every former entry is as it was, and nothing else is new
    but directories on the way. *)
Theorem add_stack_copies_stack name w :
  Forall validName sourceDir →
  Forall validName cwd →
  isValidStack name = true →
  files w !! (cwd ++ [str ".ai"]) = Some Dir →
  files w !! (sourceDir ++ [str "stacks"; name]) = Some Dir →
  (∀ rel, files w !! ((cwd ++ [str ".ai"; str "stacks"; name]) ++ rel) = None) →
  (∀ q c, q `prefix_of` cwd ++ [str ".ai"; str "stacks"] →
          files w !! q ≠ Some (File c)) →
  ¬ (sourceDir ++ [str "stacks"; name])
      `prefix_of` (cwd ++ [str ".ai"; str "stacks"; name]) →
  ∃ w',
    add sourceDir cwd gray red bold cyan errorText (str "stack") name w
    = (Ok tt, w')
    ∧ (∀ rel, files w' !! ((cwd ++ [str ".ai"; str "stacks"; name]) ++ rel)
              = files w !! ((sourceDir ++ [str "stacks"; name]) ++ rel))
    ∧ files w ⊆ files w'
    ∧ (∀ p e, ¬ (cwd ++ [str ".ai"; str "stacks"; name]) `prefix_of` p →
              files w' !! p = Some e → files w !! p = Some e ∨ e = Dir)
    ∧ SpinSucceed (str "Added stack: " ++ cyan name) ∈ console w'.
Proof.
  intros Hsrcv Hcwdv Hvalid Hinit Hsrc Hfree Hway Hover.
  pose proof (validStack_name name Hvalid) as Hname.
  assert (validName (str ".ai") ∧ validName (str "stacks")) as [Hai Hst]
    by (split; literal_name).
  unfold add, getTargetAiDir.
  rewrite (pathJoin_names cwd [str ".ai"]) by names.
  unfold bind at 1, consoleLog, emit.
  rewrite bind_directoryExists.
  set (w1 := World (files w) _).
  assert (entryAt w1 (cwd ++ [str ".ai"]) = Some Dir) as ->.
  { destruct cwd; exact Hinit. }
  cbn [negb].
  change (bool_decide (str "stack" = str "stack")) with true.
  cbn [negb andb]. unfold bind at 1, emit. unfold tryCatch.
  set (w2 := World (files w1) _).
  unfold addStack. rewrite Hvalid. cbn [negb].
  rewrite (pathJoin_names sourceDir [str "stacks"; name])
    by names.
  rewrite (pathJoin_names (cwd ++ [str ".ai"]) [str "stacks"; name])
    by names.
  rewrite <- (app_assoc cwd [str ".ai"] [str "stacks"; name]).
  change ([str ".ai"] ++ [str "stacks"; name])
    with [str ".ai"; str "stacks"; name].
  set (src := sourceDir ++ [str "stacks"; name]) in *.
  set (dest := cwd ++ [str ".ai"; str "stacks"; name]) in *.
  assert (dest ≠ []) as Hdne by (unfold dest; by destruct cwd).
  assert (src ≠ []) as Hsne by (unfold src; by destruct sourceDir).
  assert (dirname dest = cwd ++ [str ".ai"; str "stacks"]) as Hdir.
  { unfold dest, dirname.
    change [str ".ai"; str "stacks"; name]
      with ([str ".ai"; str "stacks"] ++ [name]).
    by rewrite app_assoc, removelast_last. }
  rewrite bind_directoryExists.
  assert (entryAt w2 src = Some Dir) as -> by (by destruct src).
  cbn [negb]. rewrite bind_directoryExists.
  assert (entryAt w2 dest = None) as ->.
  { rewrite entryAt_nonempty by done. specialize (Hfree []).
    by rewrite app_nil_r in Hfree. }
  destruct (copy_fresh src dest w2) as (w3 & Ecopy & Hcons & Hmirror & _ & Hsub & Hnew);
    try done.
  { by rewrite Hdir. }
  unfold bind at 1. rewrite Ecopy.
  destruct (addStack_report name dest w3) as [c ->].
  { rewrite entryAt_nonempty by done. specialize (Hmirror []).
    rewrite !app_nil_r in Hmirror. by rewrite Hmirror. }
  eexists. split; [reflexivity|]. cbn [files console].
  split; [exact Hmirror|]. split; [exact Hsub|]. split; [exact Hnew|].
  apply elem_of_app. right. apply list_elem_of_here.
Qed.




End WithEnvironment.

Lemma add_stack_copies_stack_witness :
  let w :=
    World (<[ [str "pkg"; str "stacks"; str "php-laravel"; str "rules.md"]
              := File (str "PSR-12") ]>
          (<[ [str "pkg"; str "stacks"; str "php-laravel"] := Dir ]>
          (<[ [str "p"; str ".ai"] := Dir ]> ∅))) [] in
  ∃ w',
    add [str "pkg"] [str "p"] id id id id (fun _ => [])
        (str "stack") (str "php-laravel") w
    = (Ok tt, w')
    ∧ files w' !! [str "p"; str ".ai"; str "stacks"; str "php-laravel";
                   str "rules.md"]
      = Some (File (str "PSR-12")).
Proof.
  intros w.
  destruct (add_stack_copies_stack [str "pkg"] [str "p"] id id id id
              (fun _ => []) (str "php-laravel") w)
    as (w' & E & Hmirror & _).
  - names.
  - names.
  - vm_compute. reflexivity.
  - vm_compute. reflexivity.
  - vm_compute. reflexivity.
  - intros rel. destruct (files w !! _) eqn:E; [|reflexivity].
    unfold w in E. cbn [files] in E. exfalso.
    repeat (rewrite lookup_insert_Some in E;
            destruct E as [[E0 E]|[_ E]];
            [vm_compute in E0; discriminate E0|]).
    rewrite lookup_empty in E. discriminate E.
  - intros q c [k Hk] E. unfold w in E. cbn [files] in E.
    repeat (rewrite lookup_insert_Some in E;
            destruct E as [[<- E]|[_ E]];
            [first [discriminate E | vm_compute in Hk; discriminate Hk]|]).
    rewrite lookup_empty in E. discriminate E.
  - intros [k Hk]. vm_compute in Hk. discriminate Hk.
  - exists w'. split; [exact E|].
    pose proof (Hmirror [str "rules.md"]) as H. cbn [app] in H.
    rewrite H. vm_compute. reflexivity.
Defined.



End AddCopy.

(** * What syncOpenCode produces *)

Module SyncRuns.
Import FsFacts CopyFacts SyncMore AddCopy.

Lemma prefix_snoc_inv (p q : path) n :
  p `prefix_of` q ++ [n] → p `prefix_of` q ∨ p = q ++ [n].
Proof.
  intros [k Hk]. destruct k as [|x k _] using rev_ind.
  - right. by rewrite app_nil_r in Hk.
  - left. rewrite app_assoc in Hk. apply app_inj_tail in Hk as [-> _].
    by eexists.
Qed.

Ltac pick :=
  solve [ done | left; done | right; pick | eexists; reflexivity ].

Lemma openCodeDirs_prefix O d q :
  openCodeDirs O d → q `prefix_of` d → openCodeDirs O q.
Proof.
  intros Hd Hq. unfold openCodeDirs in *.
  destruct Hd as [Hd|[->|[->|[->|[->|[n ->]]]]]].
  - left. by etrans.
  - apply prefix_snoc_inv in Hq as [?| ->]; pick.
  - apply prefix_snoc_inv in Hq as [?| ->]; pick.
  - apply prefix_snoc_inv in Hq as [?| ->]; pick.
  - apply prefix_snoc_inv in Hq as [?| ->]; pick.
  - change [str "skill"; n] with ([str "skill"] ++ [n]) in Hq.
    rewrite app_assoc in Hq.
    apply prefix_snoc_inv in Hq as [Hq| ->].
    + apply prefix_snoc_inv in Hq as [?| ->]; pick.
    + rewrite <- app_assoc. do 5 right. by exists n.
Qed.

Lemma prefix_too_long (O : path) r : r ≠ [] → ¬ (O ++ r) `prefix_of` O.
Proof.
  intros Hr [k Hk]. apply (f_equal length) in Hk.
  rewrite !length_app in Hk. destruct r; [done|]. simpl in Hk. lia.
Qed.

Lemma openCodeDirs_not_files O p :
  openCodeDirs O p → openCodeFiles O p → False.
Proof.
  unfold openCodeDirs, openCodeFiles.
  intros Hd Hf.
  destruct Hf as [->|[[n ->]|[[n ->]|[n ->]]]];
    (destruct Hd as [Hd|[Hd|[Hd|[Hd|[Hd|[m Hd]]]]]];
     [ by apply prefix_too_long in Hd
     | apply app_inv_head in Hd; discriminate Hd .. ]).
Qed.

Lemma openCodeDirs_related O d p :
  openCodeDirs O d → p `prefix_of` d → ¬ apart p O.
Proof.
  intros Hd Hp [H1 H2].
  assert (d `prefix_of` O ∨ O `prefix_of` d) as [Hd'|Hd'].
  { destruct Hd as [Hd|[->|[->|[->|[->|[n ->]]]]]]; auto;
      right; by apply prefix_app_r. }
  - apply H1. by etrans.
  - destruct (prefix_weak_total _ _ _ Hp Hd'); auto.
Qed.

Lemma openCodeFiles_related O p : openCodeFiles O p → ¬ apart p O.
Proof.
  intros Hf [_ H2]. apply H2.
  destruct Hf as [->|[[n ->]|[[n ->]|[n ->]]]]; by apply prefix_app_r.
Qed.

(** mkdir where sync needs a directory. *)
Lemma mkdir_good f0 O d w :
  Good f0 O (files w) → openCodeDirs O d → Forall validName d →
  ∃ w',
    mkdirSync d w = (Ok tt, w')
    ∧ Good f0 O (files w')
    ∧ entryAt w' d = Some Dir
    ∧ files w ⊆ files w'
    ∧ onlyNewDirs (files w) (files w').
Proof.
  intros (Hwf & Hout & Hdirs & Hfiles) Hd Hv.
  destruct (mkdirFrom_succeeds [] d w) as [w' E].
  { intros k c _ Hk. apply Hdirs. by eapply openCodeDirs_prefix. }
  exists w'. unfold mkdirSync. split; [exact E|].
  pose proof (mkdirFrom_result_grows _ _ _ _ _ E) as Hgrow.
  pose proof (mkdirFrom_only_dirs [] d w) as Honly. rewrite E in Honly.
  assert (∀ p, ¬ p `prefix_of` d → files w' !! p = files w !! p) as Hother.
  { intros p Hp. pose proof (mkdirFrom_other [] d w p Hp) as H.
    by rewrite E in H. }
  split; [|split; [|done]].
  - split; [|split; [|split]].
    + pose proof (safe_mkdirSync (fun _ => True) d Hv w Hwf) as (H & _).
      unfold mkdirSync in H. by rewrite E in H.
    + intros p Hp. rewrite Hother; [by apply Hout|].
      intros Hpd. by eapply openCodeDirs_related.
    + intros p c Hp Hc. apply Honly in Hc. by eapply Hdirs.
    + intros p Hp Hdir.
      destruct (decide (p `prefix_of` d)) as [Hpd|Hpd].
      * eapply openCodeDirs_not_files; [|exact Hp].
        by eapply openCodeDirs_prefix.
      * rewrite Hother in Hdir by done. by eapply Hfiles.
  - exact (mkdirSync_ok d w w' E).
Qed.

(** Writing where sync writes a file. *)
Lemma write_good f0 O t data w :
  Good f0 O (files w) → openCodeFiles O t → Forall validName t →
  entryAt w (dirname t) = Some Dir →
  writeFileSync t data w
  = (Ok tt, setFiles w (<[t := File data]> (files w)))
  ∧ Good f0 O (<[t := File data]> (files w)).
Proof.
  intros (Hwf & Hout & Hdirs & Hfiles) Ht Hv Hparent. split.
  - unfold writeFileSync. destruct t as [|x t].
    { exfalso. destruct Ht as [Ht|[[n Ht]|[[n Ht]|[n Ht]]]];
        by destruct O. }
    rewrite Hparent.
    destruct (files w !! (x :: t)) as [[|]|] eqn:E; try done.
    by destruct (Hfiles _ Ht).
  - split; [|split; [|split]].
    + by apply wfFiles_insert.
    + intros p Hp. rewrite lookup_insert_ne; [by apply Hout|].
      intros <-. by eapply openCodeFiles_related.
    + intros p c Hp. rewrite lookup_insert. case_decide as Hpt.
      * subst p. exfalso. by eapply openCodeDirs_not_files.
      * by apply Hdirs.
    + intros p Hp. rewrite lookup_insert. case_decide; [done|].
      by apply Hfiles.
Qed.


Lemma dirname_snoc (d : path) n : dirname (d ++ [n]) = d.
Proof. unfold dirname. apply removelast_last. Qed.

(** [mkdirSync d] and then a file written in [d]. *)
Lemma mkdir_write_good f0 O d n data w :
  Good f0 O (files w) → openCodeDirs O d → openCodeFiles O (d ++ [n]) →
  Forall validName (d ++ [n]) →
  ∃ w',
    (mkdirSync d ;; writeFileSync (d ++ [n]) data) w = (Ok tt, w')
    ∧ Good f0 O (files w')
    ∧ files w' !! (d ++ [n]) = Some (File data)
    ∧ (∀ p e, p ≠ d ++ [n] → files w !! p = Some e → files w' !! p = Some e).
Proof.
  intros Hgood Hd Ht Hv.
  pose proof Hv as Hv'. apply Forall_app in Hv' as [Hvd _].
  destruct (mkdir_good f0 O d w Hgood Hd Hvd)
    as (w1 & E1 & Hgood1 & Hdir & Hsub & _).
  destruct (write_good f0 O (d ++ [n]) data w1 Hgood1 Ht Hv) as [E2 Hgood2].
  { by rewrite dirname_snoc. }
  eexists. split; [|split; [|split]].
  - unfold bind. rewrite E1. exact E2.
  - exact Hgood2.
  - cbn [files setFiles]. apply lookup_insert_eq.
  - intros p e Hp He. cbn [files setFiles].
    rewrite lookup_insert_ne by done. by eapply lookup_weaken.
Qed.

Lemma filterM_reads {A} (f : A → M bool) (g : A → bool) xs w :
  (∀ x, x ∈ xs → f x w = (Ok (g x), w)) →
  filterM f xs w = (Ok (List.filter g xs), w).
Proof.
  induction xs as [|x xs IH]; intros H; [done|].
  cbn [filterM List.filter]. unfold bind at 1.
  rewrite (H x) by apply list_elem_of_here.
  unfold bind at 1. rewrite IH by (intros y Hy; apply H; by apply list_elem_of_further).
  done.
Qed.

(** The folders of a directory, as sync lists them. *)
Lemma readSubdirs_spec S w :
  wfFiles (files w) → entryAt w S = Some Dir →
  ∃ l, readSubdirs S w = (Ok l, w)
       ∧ ∀ n, n ∈ l ↔ files w !! (S ++ [n]) = Some Dir.
Proof.
  intros Hwf HS. unfold readSubdirs, bind at 1, readdirSync. rewrite HS.
  set (names := children (files w) S).
  assert (∀ n, n ∈ names → validName n) as Hnames.
  { intros n Hn. apply elem_of_children in Hn as [e He]. apply Hwf in He.
    apply Forall_app in He as [_ He]. by inversion He. }
  exists (List.filter
            (fun n => bool_decide (files w !! (S ++ [n]) = Some Dir)) names).
  split.
  - apply filterM_reads. intros n Hn.
    rewrite (pathJoin_names S [n]) by (apply Forall_cons_2; auto).
    unfold statIsDirectory. rewrite entryAt_nonempty by by destruct S.
    apply elem_of_children in Hn as [e He]. rewrite He.
    destruct e as [c|].
    + by rewrite bool_decide_eq_false_2.
    + by rewrite bool_decide_eq_true_2.
  - intros n. rewrite list_elem_of_In, filter_In, <- list_elem_of_In.
    rewrite bool_decide_eq_true. unfold names. rewrite elem_of_children.
    split; [tauto|]. intros H. split; [by rewrite H|done].
Qed.

(** A loop whose steps keep [J], establish [R] for their element and
    keep it for the others. *)
Lemma forOf_runs {A : Type} (J : gmap path entry → Prop)
    (R : A → gmap path entry → Prop) (xs : list A) (body : A → M unit) :
  (∀ x w, x ∈ xs → J (files w) →
     ∃ w', body x w = (Ok tt, w') ∧ J (files w') ∧ R x (files w')
           ∧ ∀ y, R y (files w) → R y (files w')) →
  ∀ w, J (files w) →
    ∃ w', forOf xs body w = (Ok tt, w') ∧ J (files w')
          ∧ (∀ x, x ∈ xs → R x (files w'))
          ∧ ∀ y, R y (files w) → R y (files w').
Proof.
  intros Hbody.
  assert (∀ ys, (∀ y, y ∈ ys → y ∈ xs) →
    ∀ w, J (files w) →
      ∃ w', forOf ys body w = (Ok tt, w') ∧ J (files w')
            ∧ (∀ x, x ∈ ys → R x (files w'))
            ∧ ∀ y, R y (files w) → R y (files w')) as H.
  { induction ys as [|y ys IH]; intros Hys w HJ.
    - exists w. split; [done|]. split; [done|]. split; [|done].
      intros x Hx. by apply elem_of_nil in Hx.
    - destruct (Hbody y w) as (w1 & E1 & HJ1 & HR1 & Hkeep1);
        [apply Hys, list_elem_of_here|done|].
      destruct (IH (fun z Hz => Hys z (list_elem_of_further _ _ _ Hz)) w1 HJ1)
        as (w2 & E2 & HJ2 & HR2 & Hkeep2).
      exists w2. split; [|split; [done|split]].
      + cbn [forOf]. unfold bind. by rewrite E1.
      + intros x [->|Hx]%elem_of_cons; [by apply Hkeep2|by apply HR2].
      + intros z Hz. by apply Hkeep2, Hkeep1. }
  by apply H.
Qed.


Section Stages.

Variable f0 : gmap path entry.
Variable O : path.
Variable aiDir : path.
Hypothesis O_names : Forall validName O.
Hypothesis sources_apart : apart aiDir O.
Hypothesis sources_readable : sourcesReadable f0 aiDir.

Lemma apart_under r : apart (aiDir ++ r) O.
Proof.
  destruct sources_apart as [H1 H2]. split.
  - intros H. apply H1. etrans; [|exact H]. by apply prefix_app_r.
  - intros H.
    destruct (prefix_weak_total _ _ _ H (prefix_app_r aiDir aiDir r (reflexivity _)));
      auto.
Qed.

Lemma source_same f r : Good f0 O f → f !! (aiDir ++ r) = f0 !! (aiDir ++ r).
Proof. intros (_ & Hout & _). apply Hout, apart_under. Qed.

Lemma entryAt_source w r :
  r ≠ [] → Good f0 O (files w) → entryAt w (aiDir ++ r) = f0 !! (aiDir ++ r).
Proof.
  intros Hr Hgood. rewrite entryAt_nonempty by (by destruct aiDir, r).
  by apply source_same.
Qed.

(** One step of the skill loop. *)
Lemma convertSkill_runs n w :
  Good f0 O (files w) →
  f0 !! (aiDir ++ [str "skills"; n]) = Some Dir →
  ∃ w',
    convertSkillToOpenCode (pathJoin (aiDir ++ [str "skills"]) [n])
      (O ++ [str "skill"]) n w = (Ok tt, w')
    ∧ Good f0 O (files w')
    ∧ (∀ c, f0 !! (aiDir ++ [str "skills"; n; str "SKILL.md"]) = Some (File c) →
            files w' !! (O ++ [str "skill"; n; str "SKILL.md"])
            = Some (File (skillOpenCodeContent n c)))
    ∧ (∀ p e, p ≠ O ++ [str "skill"; n; str "SKILL.md"] →
              files w !! p = Some e → files w' !! p = Some e).
Proof.
  intros Hgood Hn.
  assert (validName n) as Hname.
  { pose proof Hgood as (Hwf & _). rewrite <- (source_same _ _ Hgood) in Hn.
    apply Hwf in Hn. apply Forall_app in Hn as [_ Hn].
    inversion Hn as [|? ? _ Hn']. by inversion Hn'. }
  assert (validName (str "SKILL.md") ∧ validName (str "skill")) as [Hsk Hs]
    by (split; literal_name).
  unfold convertSkillToOpenCode.
  rewrite (pathJoin_names (aiDir ++ [str "skills"]) [n]) by names.
  rewrite (pathJoin_names ((aiDir ++ [str "skills"]) ++ [n]) [str "SKILL.md"])
    by names.
  rewrite (pathJoin_names (O ++ [str "skill"]) [n]) by names.
  rewrite (pathJoin_names ((O ++ [str "skill"]) ++ [n]) [str "SKILL.md"])
    by names.
  rewrite <- !app_assoc. cbn [app].
  unfold bind at 1, existsSync.
  rewrite (entryAt_source w [str "skills"; n; str "SKILL.md"]) by done.
  destruct (f0 !! (aiDir ++ [str "skills"; n; str "SKILL.md"]))
    as [[c|]|] eqn:Esrc.
  - rewrite bool_decide_eq_true_2 by eauto. cbn [negb].
    unfold bind at 1, readFileSync.
    rewrite (entryAt_source w [str "skills"; n; str "SKILL.md"]) by done.
    rewrite Esrc.
    destruct (mkdir_write_good f0 O (O ++ [str "skill"; n]) (str "SKILL.md")
                (skillOpenCodeContent n c) w) as (w' & E & Hgood' & Hnew & Hkeep).
    + done.
    + do 5 right. by exists n.
    + rewrite <- app_assoc. right. left. by exists n.
    + rewrite <- app_assoc. apply Forall_app. split; [done|names].
    + rewrite <- app_assoc in E, Hnew, Hkeep. cbn [app] in E, Hnew, Hkeep.
      exists w'. split; [exact E|]. split; [done|]. split; [|done].
      by intros c' [= <-].
  - by destruct (proj1 (proj2 sources_readable) n Hn).
  - rewrite bool_decide_eq_false_2 by (by intros [? ?]). cbn [negb].
    exists w. split; [done|]. split; [done|]. split; [done|done].
Qed.

(** The skill loop. *)
Lemma convertSkills_runs skills w :
  Good f0 O (files w) →
  (∀ n, n ∈ skills → f0 !! (aiDir ++ [str "skills"; n]) = Some Dir) →
  ∃ w',
    convertSkills (aiDir ++ [str "skills"]) (O ++ [str "skill"]) skills w
    = (Ok tt, w')
    ∧ Good f0 O (files w')
    ∧ (∀ n c, n ∈ skills →
          f0 !! (aiDir ++ [str "skills"; n; str "SKILL.md"]) = Some (File c) →
          files w' !! (O ++ [str "skill"; n; str "SKILL.md"])
          = Some (File (skillOpenCodeContent n c)))
    ∧ (∀ p e, (∀ n, p ≠ O ++ [str "skill"; n; str "SKILL.md"]) →
              files w !! p = Some e → files w' !! p = Some e).
Proof.
  intros Hgood Hskills. unfold convertSkills.
  destruct (forOf_runs
    (fun f => Good f0 O f
              ∧ ∀ p e, (∀ n, p ≠ O ++ [str "skill"; n; str "SKILL.md"]) →
                       files w !! p = Some e → f !! p = Some e)
    (fun n f => ∀ c,
       f0 !! (aiDir ++ [str "skills"; n; str "SKILL.md"]) = Some (File c) →
       f !! (O ++ [str "skill"; n; str "SKILL.md"])
       = Some (File (skillOpenCodeContent n c)))
    skills
    (fun skill => convertSkillToOpenCode
                    (pathJoin (aiDir ++ [str "skills"]) [skill])
                    (O ++ [str "skill"]) skill)) with w
    as (w' & E & [Hgood' Hkeep'] & HR & _).
  - intros n w1 Hn [Hgood1 Hkeep1].
    destruct (convertSkill_runs n w1 Hgood1 (Hskills n Hn))
      as (w2 & E2 & Hgood2 & Hnew2 & Hkeep2).
    exists w2. split; [done|]. split; [split; [done|]|split; [done|]].
    + intros p e Hp He. apply Hkeep2; [apply Hp|]. by apply Hkeep1.
    + intros m Hm c Hc.
      destruct (decide (m = n)) as [->|Hmn]; [by apply Hnew2|].
      apply Hkeep2; [|by apply Hm].
      intros Heq. apply app_inv_head in Heq. congruence.
  - split; [done|]. by intros p e _.
  - exists w'. split; [done|]. split; [done|]. split; [|done].
    intros n c Hn. by apply HR.
Qed.


Lemma agentTarget_name a : validName a → validName (agentTarget a).
Proof.
  intros Hname. apply validName_suffix; [|done|simpl; lia].
  intros Hin%replaceFirst_erase_elem. by destruct Hname as (_ & _ & _ & ?).
Qed.

(** One step of the agent loop. *)
Lemma convertAgent_runs a w :
  Good f0 O (files w) →
  endsWith a (str ".md") = true →
  is_Some (f0 !! (aiDir ++ [str "agents"; a])) →
  ∃ w',
    convertAgentToOpenCode (pathJoin (aiDir ++ [str "agents"]) [a])
      (O ++ [str "agent"]) (replaceFirst a (str ".md") []) w = (Ok tt, w')
    ∧ Good f0 O (files w')
    ∧ agentConverted f0 aiDir O a (files w')
    ∧ (∀ p e, p ≠ O ++ [str "agent"; agentTarget a] →
              files w !! p = Some e → files w' !! p = Some e).
Proof.
  intros Hgood Hmd [e Ha].
  assert (validName a) as Hname.
  { pose proof Hgood as (Hwf & _). rewrite <- (source_same _ _ Hgood) in Ha.
    apply Hwf in Ha. apply Forall_app in Ha as [_ Ha].
    inversion Ha as [|? ? _ Ha']. by inversion Ha'. }
  pose proof (agentTarget_name a Hname) as Htarget.
  assert (validName (str "agent")) as Hag by literal_name.
  destruct e as [c|];
    [|by destruct (proj2 (proj2 (proj2 sources_readable)) a Hmd)].
  unfold convertAgentToOpenCode.
  rewrite (pathJoin_names (aiDir ++ [str "agents"]) [a]) by names.
  fold (agentTarget a).
  rewrite (pathJoin_names (O ++ [str "agent"]) [agentTarget a]) by names.
  rewrite <- !app_assoc. cbn [app].
  unfold bind at 1, readFileSync.
  rewrite (entryAt_source w [str "agents"; a]) by done. rewrite Ha.
  destruct (mkdir_write_good f0 O (O ++ [str "agent"]) (agentTarget a)
              (agentOpenCodeContent (replaceFirst a (str ".md") []) c) w)
    as (w' & E & Hgood' & Hnew & Hkeep).
  - done.
  - pick.
  - rewrite <- app_assoc. right. right. left. by eexists.
  - rewrite <- app_assoc. apply Forall_app. split; [done|names].
  - rewrite <- app_assoc in E, Hnew, Hkeep. cbn [app] in E, Hnew, Hkeep.
    exists w'. split; [exact E|]. split; [done|]. split; [|done].
    by exists a, c.
Qed.

(** The agent loop. *)
Lemma convertAgents_runs agents w :
  Good f0 O (files w) →
  (∀ a, a ∈ agents → endsWith a (str ".md") = true
                     ∧ is_Some (f0 !! (aiDir ++ [str "agents"; a]))) →
  ∃ w',
    convertAgents (aiDir ++ [str "agents"]) (O ++ [str "agent"]) agents w
    = (Ok tt, w')
    ∧ Good f0 O (files w')
    ∧ (∀ a, a ∈ agents → agentConverted f0 aiDir O a (files w'))
    ∧ (∀ p e, (∀ n, p ≠ O ++ [str "agent"; n]) →
              files w !! p = Some e → files w' !! p = Some e).
Proof.
  intros Hgood Hagents. unfold convertAgents.
  destruct (forOf_runs
    (fun f => Good f0 O f
              ∧ ∀ p e, (∀ n, p ≠ O ++ [str "agent"; n]) →
                       files w !! p = Some e → f !! p = Some e)
    (agentConverted f0 aiDir O) agents
    (fun agent => convertAgentToOpenCode
                    (pathJoin (aiDir ++ [str "agents"]) [agent])
                    (O ++ [str "agent"])
                    (replaceFirst agent (str ".md") []))) with w
    as (w' & E & [Hgood' Hkeep'] & HR & _).
  - intros a w1 Ha [Hgood1 Hkeep1].
    destruct (Hagents a Ha) as [Hmd Hsome].
    destruct (convertAgent_runs a w1 Hgood1 Hmd Hsome)
      as (w2 & E2 & Hgood2 & Hnew2 & Hkeep2).
    exists w2. split; [done|]. split; [split; [done|]|split; [done|]].
    + intros p e Hp He. apply Hkeep2; [apply Hp|]. by apply Hkeep1.
    + intros b (b' & c & Hsame & Hmd' & Hsrc & Hb).
      destruct (decide (agentTarget b = agentTarget a)) as [Heq|Hne].
      * destruct Hnew2 as (a' & c' & Hsame' & ? & ? & Hw).
        exists a', c'. rewrite Heq. by rewrite Hsame'.
      * exists b', c. split; [done|]. split; [done|]. split; [done|].
        apply Hkeep2; [|done]. intros Heq. apply app_inv_head in Heq.
        congruence.
  - split; [done|]. by intros p e _.
  - exists w'. split; [done|]. split; [done|]. split; [|done].
    intros a Ha. by apply HR.
Qed.

(** generateCommands when the skills directory is there. *)
Lemma generateCommands_runs w :
  Good f0 O (files w) →
  f0 !! (aiDir ++ [str "skills"]) = Some Dir →
  ∃ w',
    generateCommands (aiDir ++ [str "skills"]) (O ++ [str "command"]) w
    = (Ok tt, w')
    ∧ Good f0 O (files w')
    ∧ (∀ n c, f0 !! (aiDir ++ [str "skills"; n]) = Some Dir →
          f0 !! (aiDir ++ [str "skills"; n; str "SKILL.md"]) = Some (File c) →
          files w' !! (O ++ [str "command"; n ++ str ".md"])
          = Some (File (commandContent n (commandDescription n c))))
    ∧ (∀ p e, (∀ n, p ≠ O ++ [str "command"; n]) →
              files w !! p = Some e → files w' !! p = Some e).
Proof.
  intros Hgood HS.
  assert (validName (str "command") ∧ validName (str "SKILL.md")) as [Hcm Hsk]
    by (split; literal_name).
  unfold generateCommands, bind at 1, existsSync.
  rewrite (entryAt_source w [str "skills"]) by done. rewrite HS.
  rewrite bool_decide_eq_true_2 by eauto. cbn [negb].
  destruct (mkdir_good f0 O (O ++ [str "command"]) w)
    as (w1 & E1 & Hgood1 & Hdir1 & Hsub1 & _); [done|pick| |].
  { apply Forall_app. split; [done|names]. }
  unfold bind at 1. rewrite E1.
  destruct (readSubdirs_spec (aiDir ++ [str "skills"]) w1)
    as (skills & Eskills & Hskills).
  { by destruct Hgood1. }
  { rewrite (entryAt_source w1 [str "skills"]) by done. exact HS. }
  unfold bind at 1. rewrite Eskills.
  destruct (forOf_runs
    (fun f => Good f0 O f
              ∧ f !! (O ++ [str "command"]) = Some Dir
              ∧ ∀ p e, (∀ n, p ≠ O ++ [str "command"; n]) →
                       files w1 !! p = Some e → f !! p = Some e)
    (fun n f => ∀ c,
       f0 !! (aiDir ++ [str "skills"; n; str "SKILL.md"]) = Some (File c) →
       f !! (O ++ [str "command"; n ++ str ".md"])
       = Some (File (commandContent n (commandDescription n c))))
    skills
    (fun skill =>
       let skillFile :=
         pathJoin (aiDir ++ [str "skills"]) [skill; str "SKILL.md"] in
       do present <- existsSync skillFile;
       if negb present then ret tt
       else
         do content <- readFileSync skillFile;
         let description :=
           match smatch content quotePattern with
           | Some descMatch => group1 descMatch
           | None => str "Run " ++ skill ++ str " skill"
           end in
         writeFileSync (pathJoin (O ++ [str "command"]) [skill ++ str ".md"])
                       (commandContent skill description))) with w1
    as (w' & E & (Hgood' & _ & Hkeep') & HR & _).
  - intros n w2 Hn (Hgood2 & Hdir2 & Hkeep2). cbv zeta.
    apply Hskills in Hn. rewrite <- app_assoc in Hn. cbn [app] in Hn.
    rewrite (source_same _ _ Hgood1) in Hn.
    assert (validName n) as Hname.
    { pose proof Hgood2 as (Hwf & _).
      rewrite <- (source_same _ _ Hgood2) in Hn.
      apply Hwf in Hn. apply Forall_app in Hn as [_ Hn].
      inversion Hn as [|? ? _ Hn']. by inversion Hn'. }
    assert (validName (n ++ str ".md")) as Htarget.
    { apply validName_suffix; [|done|simpl; lia].
      by destruct Hname as (_ & _ & _ & ?). }
    rewrite (pathJoin_names (aiDir ++ [str "skills"]) [n; str "SKILL.md"])
      by names.
    rewrite (pathJoin_names (O ++ [str "command"]) [n ++ str ".md"]) by names.
    rewrite <- !app_assoc. cbn [app].
    unfold bind at 1, existsSync.
    rewrite (entryAt_source w2 [str "skills"; n; str "SKILL.md"]) by done.
    destruct (f0 !! (aiDir ++ [str "skills"; n; str "SKILL.md"]))
      as [[c|]|] eqn:Esrc.
    + rewrite bool_decide_eq_true_2 by eauto. cbn [negb].
      unfold bind at 1, readFileSync.
      rewrite (entryAt_source w2 [str "skills"; n; str "SKILL.md"]) by done.
      rewrite Esrc. fold (commandDescription n c).
      destruct (write_good f0 O (O ++ [str "command"; n ++ str ".md"])
                  (commandContent n (commandDescription n c)) w2)
        as [E3 Hgood3]; [done| | | |].
      { do 3 right. by eexists. }
      { apply Forall_app. split; [done|names]. }
      { change [str "command"; n ++ str ".md"]
          with ([str "command"] ++ [n ++ str ".md"]).
        rewrite app_assoc, dirname_snoc.
        by rewrite entryAt_nonempty by by destruct O. }
      eexists. split; [exact E3|]. cbn [files setFiles].
      split; [split; [done|split]|split].
      * rewrite lookup_insert_ne; [done|].
        intros Heq. apply (f_equal length) in Heq.
        rewrite !length_app in Heq. simpl in Heq. lia.
      * intros p e Hp He. rewrite lookup_insert_ne by (by apply not_eq_sym, Hp).
        by apply Hkeep2.
      * intros c' [= <-]. apply lookup_insert_eq.
      * intros m Hm c' Hc'. rewrite lookup_insert. case_decide as Heq.
        -- apply app_inv_head in Heq. injection Heq as Heq.
           apply app_inv_tail in Heq. subst m.
           rewrite Esrc in Hc'. by injection Hc' as <-.
        -- by apply Hm.
    + by destruct (proj1 (proj2 sources_readable) n Hn).
    + rewrite bool_decide_eq_false_2 by (by intros [? ?]). cbn [negb].
      exists w2. split; [done|]. split; [done|]. split; [done|done].
  - split; [done|]. split.
    + by rewrite <- entryAt_nonempty by by destruct O.
    + by intros p e _.
  - exists w'. split; [done|]. split; [done|]. split.
    + intros n c Hn. apply HR. apply Hskills.
      rewrite <- app_assoc. cbn [app].
      by rewrite (source_same _ _ Hgood1).
    + intros p e Hp He. apply Hkeep'; [done|]. by eapply lookup_weaken.
Qed.

(** The skill step of syncOpenCode, lines 318-335. *)
Lemma skills_stage w :
  Good f0 O (files w) →
  ∃ w',
    (if bool_decide (is_Some (f0 !! (aiDir ++ [str "skills"]))) then
       do skills <- readSubdirs (aiDir ++ [str "skills"]);
       convertSkills (aiDir ++ [str "skills"]) (O ++ [str "skill"]) skills ;;
       consoleLog (str "✅ Converted " ++ numToString (length skills)
                   ++ str " skills to .opencode/skill/")
     else ret tt) w = (Ok tt, w')
    ∧ Good f0 O (files w')
    ∧ (∀ n c, f0 !! (aiDir ++ [str "skills"]) = Some Dir →
          f0 !! (aiDir ++ [str "skills"; n]) = Some Dir →
          f0 !! (aiDir ++ [str "skills"; n; str "SKILL.md"]) = Some (File c) →
          files w' !! (O ++ [str "skill"; n; str "SKILL.md"])
          = Some (File (skillOpenCodeContent n c)))
    ∧ (∀ p e, (∀ n, p ≠ O ++ [str "skill"; n; str "SKILL.md"]) →
              files w !! p = Some e → files w' !! p = Some e).
Proof.
  intros Hgood.
  destruct (f0 !! (aiDir ++ [str "skills"])) as [[c|]|] eqn:ES.
  - by destruct (proj1 sources_readable c).
  - rewrite bool_decide_eq_true_2 by eauto.
    destruct (readSubdirs_spec (aiDir ++ [str "skills"]) w)
      as (skills & Eskills & Hskills).
    { by destruct Hgood. }
    { by rewrite (entryAt_source w [str "skills"]). }
    assert (∀ n, n ∈ skills ↔ f0 !! (aiDir ++ [str "skills"; n]) = Some Dir)
      as Hmem.
    { intros n. rewrite Hskills, <- app_assoc. cbn [app].
      by rewrite (source_same _ _ Hgood). }
    destruct (convertSkills_runs skills w Hgood (fun n Hn => proj1 (Hmem n) Hn))
      as (w1 & E1 & Hgood1 & Hnew1 & Hkeep1).
    eexists. split.
    { unfold bind at 1. rewrite Eskills. unfold bind at 1. rewrite E1.
      reflexivity. }
    cbn [files]. split; [done|]. split; [|done].
    intros n c _ Hn Hc. apply Hnew1; [by apply Hmem|done].
  - rewrite bool_decide_eq_false_2 by (by intros [? ?]).
    exists w. split; [done|]. split; [done|]. split; [done|done].
Qed.

(** The agent step of syncOpenCode, lines 337-353. *)
Lemma agents_stage w :
  Good f0 O (files w) →
  ∃ w',
    (if bool_decide (is_Some (f0 !! (aiDir ++ [str "agents"]))) then
       do names <- readdirSync (aiDir ++ [str "agents"]);
       let agents := List.filter (fun f => endsWith f (str ".md")) names in
       convertAgents (aiDir ++ [str "agents"]) (O ++ [str "agent"]) agents ;;
       consoleLog (str "✅ Converted " ++ numToString (length agents)
                   ++ str " agents to .opencode/agent/")
     else ret tt) w = (Ok tt, w')
    ∧ Good f0 O (files w')
    ∧ (∀ a, f0 !! (aiDir ++ [str "agents"]) = Some Dir →
            endsWith a (str ".md") = true →
            is_Some (f0 !! (aiDir ++ [str "agents"; a])) →
            agentConverted f0 aiDir O a (files w'))
    ∧ (∀ p e, (∀ n, p ≠ O ++ [str "agent"; n]) →
              files w !! p = Some e → files w' !! p = Some e).
Proof.
  intros Hgood.
  destruct (f0 !! (aiDir ++ [str "agents"])) as [[c|]|] eqn:EA.
  - by destruct (proj1 (proj2 (proj2 sources_readable)) c).
  - rewrite bool_decide_eq_true_2 by eauto.
    set (agents := List.filter (fun f => endsWith f (str ".md"))
                     (children (files w) (aiDir ++ [str "agents"]))).
    assert (∀ a, a ∈ agents ↔
                 endsWith a (str ".md") = true
                 ∧ is_Some (f0 !! (aiDir ++ [str "agents"; a]))) as Hmem.
    { intros a. unfold agents.
      rewrite list_elem_of_In, filter_In, <- list_elem_of_In.
      rewrite elem_of_children, <- app_assoc. cbn [app].
      rewrite (source_same _ _ Hgood). tauto. }
    destruct (convertAgents_runs agents w Hgood (fun a Ha => proj1 (Hmem a) Ha))
      as (w1 & E1 & Hgood1 & Hnew1 & Hkeep1).
    eexists. split.
    { unfold bind at 1, readdirSync.
      rewrite (entryAt_source w [str "agents"]) by done. rewrite EA.
      cbv zeta. fold agents. unfold bind at 1. rewrite E1. reflexivity. }
    cbn [files]. split; [done|]. split; [|done].
    intros a _ Hmd Ha. apply Hnew1. by apply Hmem.
  - rewrite bool_decide_eq_false_2 by (by intros [? ?]).
    exists w. split; [done|]. split; [done|]. split; [done|done].
Qed.

(** The command step of syncOpenCode, lines 355-357. *)
Lemma commands_stage w :
  Good f0 O (files w) →
  ∃ w',
    generateCommands (aiDir ++ [str "skills"]) (O ++ [str "command"]) w
    = (Ok tt, w')
    ∧ Good f0 O (files w')
    ∧ (∀ n c, f0 !! (aiDir ++ [str "skills"]) = Some Dir →
          f0 !! (aiDir ++ [str "skills"; n]) = Some Dir →
          f0 !! (aiDir ++ [str "skills"; n; str "SKILL.md"]) = Some (File c) →
          files w' !! (O ++ [str "command"; n ++ str ".md"])
          = Some (File (commandContent n (commandDescription n c))))
    ∧ (∀ p e, (∀ n, p ≠ O ++ [str "command"; n]) →
              files w !! p = Some e → files w' !! p = Some e).
Proof.
  intros Hgood.
  destruct (f0 !! (aiDir ++ [str "skills"])) as [[c|]|] eqn:ES.
  - by destruct (proj1 sources_readable c).
  - destruct (generateCommands_runs w Hgood ES)
      as (w1 & E1 & Hgood1 & Hnew1 & Hkeep1).
    exists w1. split; [done|]. split; [done|]. split; [|done].
    intros n c _. apply Hnew1.
  - exists w. split.
    { unfold generateCommands, bind, existsSync.
      rewrite (entryAt_source w [str "skills"]) by done. rewrite ES.
      by rewrite bool_decide_eq_false_2 by (by intros [? ?]). }
    split; [done|]. split; [done|done].
Qed.

(** The plugin step, lines 359-361. *)
Lemma plugin_stage w :
  Good f0 O (files w) →
  ∃ w',
    generatePluginTemplate O w = (Ok tt, w')
    ∧ Good f0 O (files w')
    ∧ files w' !! (O ++ [str "plugin"; str "ai-dev-hooks.ts"])
      = Some (File pluginContent)
    ∧ (∀ p e, p ≠ O ++ [str "plugin"; str "ai-dev-hooks.ts"] →
              files w !! p = Some e → files w' !! p = Some e).
Proof.
  intros Hgood. unfold generatePluginTemplate.
  rewrite (pathJoin_names O [str "plugin"]) by names.
  rewrite (pathJoin_names (O ++ [str "plugin"]) [str "ai-dev-hooks.ts"])
    by names.
  destruct (mkdir_write_good f0 O (O ++ [str "plugin"]) (str "ai-dev-hooks.ts")
              pluginContent w) as (w' & E & Hgood' & Hnew & Hkeep).
  - done.
  - pick.
  - rewrite <- app_assoc. by left.
  - rewrite <- app_assoc. apply Forall_app. split; [done|names].
  - rewrite <- app_assoc in Hnew, Hkeep. cbn [app] in Hnew, Hkeep.
    by exists w'.
Qed.

End Stages.


Lemma apart_sibling (P : path) (a b : jsstring) r :
  a ≠ b → apart (P ++ a :: r) (P ++ [b]).
Proof.
  intros Hab. split.
  - intros [k Hk]. rewrite <- app_assoc in Hk. apply app_inv_head in Hk.
    simpl in Hk. congruence.
  - intros [k Hk]. rewrite <- app_assoc in Hk. apply app_inv_head in Hk.
    simpl in Hk. congruence.
Qed.

Lemma mkdirFrom_prefixes base comps w w' k :
  mkdirFrom base comps w = (Ok tt, w') → k ≠ [] → k `prefix_of` comps →
  files w' !! (base ++ k) = Some Dir.
Proof.
  revert base w k. induction comps as [|n comps IH]; intros base w k E Hk Hpre.
  - apply prefix_nil_inv in Hpre. done.
  - destruct k as [|x k]; [done|].
    pose proof (prefix_cons_inv_1 _ _ _ _ Hpre) as ->.
    apply prefix_cons_inv_2 in Hpre.
    simpl in E. rewrite <- app_cons_assoc.
    assert (files w' !! (base ++ [n]) = Some Dir) as Hn.
    { destruct (files w !! (base ++ [n])) as [[|]|] eqn:En; [done| |].
      - eapply lookup_weaken; [exact En|]. by eapply mkdirFrom_result_grows.
      - eapply lookup_weaken; [|by eapply mkdirFrom_result_grows].
        apply lookup_insert_eq. }
    destruct k as [|y k]; [by rewrite app_nil_r|].
    destruct (files w !! (base ++ [n])) as [[|]|] eqn:En; [done| |];
      by eapply IH.
Qed.

Lemma writeFileSync_ok d n data w :
  entryAt w d = Some Dir →
  files w !! (d ++ [n]) ≠ Some Dir →
  writeFileSync (d ++ [n]) data w
  = (Ok tt, setFiles w (<[d ++ [n] := File data]> (files w))).
Proof.
  intros Hd Ht. unfold writeFileSync.
  destruct (d ++ [n]) as [|x t] eqn:E;
    [by apply app_eq_nil in E as [_ ?]|].
  rewrite <- E in *. rewrite dirname_snoc, Hd.
  destruct (files w !! (d ++ [n])) as [[|]|] eqn:E2; [done|by destruct Ht|done].
Qed.

Lemma config_runs openCodeDir projectDir w :
  entryAt w projectDir = Some Dir →
  files w !! (projectDir ++ [str "opencode.json"]) ≠ Some Dir →
  generateOpenCodeConfig openCodeDir projectDir w
  = (Ok tt,
     setFiles w (<[projectDir ++ [str "opencode.json"]
                   := File (joinLines openCodeConfigLines)]> (files w))).
Proof.
  intros HP Hcfg. unfold generateOpenCodeConfig.
  rewrite (pathJoin_names projectDir [str "opencode.json"]) by names.
  by apply writeFileSync_ok.
Qed.

Lemma agentsMd_runs projectDir name w :
  entryAt w projectDir = Some Dir →
  generateAgentsMd projectDir name w
  = (Ok tt,
     match files w !! (projectDir ++ [str "AGENTS.md"]) with
     | Some _ => w
     | None => setFiles w (<[projectDir ++ [str "AGENTS.md"]
                             := File (agentsMdContent name)]> (files w))
     end).
Proof.
  intros HP. unfold generateAgentsMd. cbv zeta.
  rewrite (pathJoin_names projectDir [str "AGENTS.md"]) by names.
  unfold bind, existsSync.
  rewrite (entryAt_nonempty w (projectDir ++ [str "AGENTS.md"]))
    by by destruct projectDir.
  destruct (files w !! (projectDir ++ [str "AGENTS.md"])) as [e|] eqn:E.
  - by rewrite bool_decide_eq_true_2 by eauto.
  - rewrite bool_decide_eq_false_2 by (by intros [? ?]). cbn [negb].
    apply writeFileSync_ok; [done|]. by rewrite E.
Qed.

Ltac log_step :=
  erewrite (bind_ok (consoleLog _)); [|reflexivity].

(** Paths that differ below a common directory. *)
Ltac differ :=
  let H := fresh in
  intros H; rewrite <- ?app_assoc in H; apply app_inv_head in H;
  cbn [app] in H;
  first [ discriminate H
        | injection H; intros;
          repeat match goal with
                 | E : str _ = str _ |- _ => vm_compute in E; discriminate E
                 end ].

(** X26.  syncOpenCode in a project where it can work: the paths are
    made of names, the skills and agents of the [.ai] it takes can be
    read and lie apart from [.opencode], no file stands where sync
    needs a directory and no directory where it writes a file.  Then
    sync returns; [opencode.json] and the plugin template hold the
    generated texts; [AGENTS.md] is what it was, or else the generated
    text; every skill folder with a [SKILL.md] has its converted skill
    and its command; every agent file has a conversion at its target;
    the layout is free again; and the entries apart from [.opencode],
    other than [opencode.json] and [AGENTS.md], are what they were. *)
Theorem sync_succeeds sourceAiDir projectDir aiDir w :
  Forall validName projectDir →
  wfFiles (files w) →
  aiDir = syncSource (files w) sourceAiDir projectDir →
  apart aiDir (projectDir ++ [str ".opencode"]) →
  sourcesReadable (files w) aiDir →
  layoutFree (files w) (projectDir ++ [str ".opencode"]) →
  files w !! (projectDir ++ [str "opencode.json"]) ≠ Some Dir →
  ∃ w',
    syncOpenCode sourceAiDir projectDir w = (Ok tt, w')
    ∧ files w' !! (projectDir ++ [str "opencode.json"])
      = Some (File (joinLines openCodeConfigLines))
    ∧ files w' !! (projectDir ++ [str ".opencode"; str "plugin";
                                  str "ai-dev-hooks.ts"])
      = Some (File pluginContent)
    ∧ files w' !! (projectDir ++ [str "AGENTS.md"])
      = Some (default (File (agentsMdContent (basename projectDir)))
                      (files w !! (projectDir ++ [str "AGENTS.md"])))
    ∧ (∀ n c,
         files w !! (aiDir ++ [str "skills"]) = Some Dir →
         files w !! (aiDir ++ [str "skills"; n]) = Some Dir →
         files w !! (aiDir ++ [str "skills"; n; str "SKILL.md"]) = Some (File c) →
         files w' !! (projectDir ++ [str ".opencode"; str "skill"; n;
                                     str "SKILL.md"])
         = Some (File (skillOpenCodeContent n c))
         ∧ files w' !! (projectDir ++ [str ".opencode"; str "command";
                                       n ++ str ".md"])
           = Some (File (commandContent n (commandDescription n c))))
    ∧ (∀ a,
         files w !! (aiDir ++ [str "agents"]) = Some Dir →
         endsWith a (str ".md") = true →
         is_Some (files w !! (aiDir ++ [str "agents"; a])) →
         agentConverted (files w) aiDir (projectDir ++ [str ".opencode"]) a
           (files w'))
    ∧ layoutFree (files w') (projectDir ++ [str ".opencode"])
    ∧ (∀ p, apart p (projectDir ++ [str ".opencode"]) →
            p ≠ projectDir ++ [str "opencode.json"] →
            p ≠ projectDir ++ [str "AGENTS.md"] →
            files w' !! p = files w !! p).
Proof.
  intros HP Hwf Hai Hapart Hread Hfree Hconfig.
  set (O := projectDir ++ [str ".opencode"]) in *.
  set (f0 := files w) in *.
  assert (Forall validName O) as HO.
  { apply Forall_app. split; [done|]. names. }
  assert (Good f0 O (files w)) as Hgood0 by (split; [done|split; [done|]]; done).
  unfold syncOpenCode.
  rewrite (pathJoin_names projectDir [str ".ai"]) by names.
  rewrite (pathJoin_names projectDir [str ".opencode"]) by names.
  fold O.
  erewrite (bind_ok (existsSync _)); [|reflexivity].
  rewrite (entryAt_nonempty w (projectDir ++ [str ".ai"]))
    by by destruct projectDir.
  fold f0. unfold syncSource in Hai. rewrite <- Hai.
  rewrite !(pathJoin_names aiDir [str "skills"]) by names.
  rewrite !(pathJoin_names aiDir [str "agents"]) by names.
  rewrite (pathJoin_names O [str "skill"]) by names.
  rewrite (pathJoin_names O [str "agent"]) by names.
  rewrite (pathJoin_names O [str "command"]) by names.
  log_step.
  (* 1. the directory *)
  match goal with |- ∃ _, bind _ _ ?wc = _ ∧ _ =>
    destruct (mkdir_good f0 O O wc) as (w1 & E1 & Hgood1 & Hdir1 & _);
      [exact Hgood0|by left|exact HO|]
  end.
  rewrite (bind_ok _ _ _ _ _ E1). log_step.
  assert (entryAt w1 projectDir = Some Dir) as HP1.
  { destruct (decide (projectDir = [])) as [EP|EP]; [by rewrite EP|].
    rewrite entryAt_nonempty by done.
    apply (mkdirFrom_prefixes [] O _ w1 projectDir E1); [done|].
    unfold O. by apply prefix_app_r. }
  (* 2. the skills *)
  erewrite (bind_ok (existsSync _)); [|reflexivity].
  rewrite (entryAt_source f0 O aiDir Hapart Hread _ [str "skills"]) by done.
  match goal with |- ∃ _, bind _ _ ?wc = _ ∧ _ =>
    destruct (skills_stage f0 O aiDir HO Hapart Hread wc)
      as (w2 & E2 & Hgood2 & Hskill2 & Hkeep2); [exact Hgood1|]
  end.
  rewrite (bind_ok _ _ _ _ _ E2). cbn [files] in Hkeep2.
  (* 3. the agents *)
  erewrite (bind_ok (existsSync _)); [|reflexivity].
  rewrite (entryAt_source f0 O aiDir Hapart Hread _ [str "agents"]) by done.
  destruct (agents_stage f0 O aiDir HO Hapart Hread w2 Hgood2)
    as (w3 & E3 & Hgood3 & Hagent3 & Hkeep3).
  rewrite (bind_ok _ _ _ _ _ E3).
  (* 4. the commands *)
  destruct (commands_stage f0 O aiDir HO Hapart Hread w3 Hgood3)
    as (w4 & E4 & Hgood4 & Hcommand4 & Hkeep4).
  rewrite (bind_ok _ _ _ _ _ E4). log_step.
  (* 5. the plugin *)
  match goal with |- ∃ _, bind _ _ ?wc = _ ∧ _ =>
    destruct (plugin_stage f0 O HO wc)
      as (w5 & E5 & Hgood5 & Hplugin5 & Hkeep5); [exact Hgood4|]
  end.
  rewrite (bind_ok _ _ _ _ _ E5). cbn [files] in Hkeep5. log_step.
  (* the project directory is still there *)
  assert (∀ p, ¬ O `prefix_of` p → ∀ e, files w1 !! p = Some e →
               files w5 !! p = Some e) as Hstay.
  { intros p Hp e He.
    assert (∀ r, p ≠ O ++ r) as Hr by (intros r ->; apply Hp; by eexists).
    apply Hkeep5; [apply Hr|]. apply Hkeep4; [intros; apply Hr|].
    apply Hkeep3; [intros; apply Hr|]. apply Hkeep2; [intros; apply Hr|done]. }
  assert (entryAt w5 projectDir = Some Dir) as HP5.
  { destruct (decide (projectDir = [])) as [EP|EP]; [by rewrite EP|].
    rewrite entryAt_nonempty in * by done. apply Hstay; [|done].
    unfold O. by apply prefix_too_long. }
  assert (apart (projectDir ++ [str "opencode.json"]) O) as Hcfg_apart.
  { apply apart_sibling. intros H. vm_compute in H. discriminate H. }
  assert (apart (projectDir ++ [str "AGENTS.md"]) O) as Hmd_apart.
  { apply apart_sibling. intros H. vm_compute in H. discriminate H. }
  (* 6. the configuration *)
  match goal with |- ∃ _, bind _ _ ?wc = _ ∧ _ =>
    rewrite (bind_ok _ _ _ _ _ (config_runs O projectDir wc HP5
      ltac:(cbn [files]; by rewrite (proj1 (proj2 Hgood5) _ Hcfg_apart))))
  end.
  log_step.
  (* 7. AGENTS.md *)
  set (cfg := projectDir ++ [str "opencode.json"]) in *.
  set (md := projectDir ++ [str "AGENTS.md"]) in *.
  assert (md ≠ cfg) as Hmdcfg by (unfold md, cfg; differ).
  match goal with |- ∃ _, bind _ _ ?wc = _ ∧ _ => set (w6 := wc) end.
  assert (files w6 = <[cfg := File (joinLines openCodeConfigLines)]> (files w5))
    as Hf6 by reflexivity.
  clearbody w6.
  assert (entryAt w6 projectDir = Some Dir) as HP6.
  { destruct (decide (projectDir = [])) as [EP|EP]; [by rewrite EP|].
    rewrite entryAt_nonempty in * by done. rewrite Hf6.
    rewrite lookup_insert_ne; [done|].
    unfold cfg. intros Heq. apply (f_equal length) in Heq.
    rewrite length_app in Heq. simpl in Heq. lia. }
  rewrite (bind_ok _ _ _ _ _ (agentsMd_runs projectDir (basename projectDir) w6 HP6)).
  fold md.
  match goal with |- ∃ _, bind _ _ ?wc = _ ∧ _ => set (w7 := wc) end.
  assert (files w7 !! cfg = Some (File (joinLines openCodeConfigLines))
          ∧ files w7 !! md
            = Some (default (File (agentsMdContent (basename projectDir)))
                            (f0 !! md))
          ∧ ∀ p, p ≠ cfg → p ≠ md → files w7 !! p = files w5 !! p)
    as (Hcfg7 & Hmd7 & Hother7).
  { assert (files w6 !! md = f0 !! md) as Hmd6.
    { rewrite Hf6, lookup_insert_ne by done.
      apply (proj1 (proj2 Hgood5)), Hmd_apart. }
    unfold w7. rewrite Hmd6.
    destruct (f0 !! md) as [e|] eqn:Emd; cbn [files setFiles default].
    - rewrite Hf6. split; [apply lookup_insert_eq|]. split.
      + by rewrite <- Hf6, Hmd6.
      + intros p Hp _. by rewrite lookup_insert_ne.
    - rewrite Hf6. split; [|split].
      + rewrite lookup_insert_ne by done. apply lookup_insert_eq.
      + apply lookup_insert_eq.
      + intros p Hp1 Hp2. by rewrite !lookup_insert_ne. }
  clearbody w7.
  do 9 log_step.
  eexists. split; [reflexivity|]. cbn [files].
  assert (∀ r, r ≠ [] → O ++ r ≠ cfg ∧ O ++ r ≠ md) as Hunder.
  { intros r Hr. split; intros Heq.
    - apply (proj2 Hcfg_apart). rewrite <- Heq. by apply prefix_app_r.
    - apply (proj2 Hmd_apart). rewrite <- Heq. by apply prefix_app_r. }
  split; [exact Hcfg7|]. split; [|split; [exact Hmd7|split; [|split; [|split]]]].
  - change (projectDir ++ [str ".opencode"; str "plugin"; str "ai-dev-hooks.ts"])
      with (projectDir ++ ([str ".opencode"]
                           ++ [str "plugin"; str "ai-dev-hooks.ts"])).
    rewrite app_assoc. fold O.
    rewrite Hother7 by (by apply Hunder). exact Hplugin5.
  - intros n c HS Hn Hc.
    change (projectDir ++ [str ".opencode"; str "skill"; n; str "SKILL.md"])
      with (projectDir ++ ([str ".opencode"]
                           ++ [str "skill"; n; str "SKILL.md"])).
    change (projectDir ++ [str ".opencode"; str "command"; n ++ str ".md"])
      with (projectDir ++ ([str ".opencode"]
                           ++ [str "command"; n ++ str ".md"])).
    rewrite !app_assoc. fold O.
    rewrite !Hother7 by (by apply Hunder). split.
    + apply Hkeep5; [differ|]. apply Hkeep4; [intros; differ|].
      apply Hkeep3; [intros; differ|]. by apply Hskill2.
    + apply Hkeep5; [differ|]. by apply Hcommand4.
  - intros a HA Hmd Ha.
    destruct (Hagent3 a HA Hmd Ha) as (a' & c & Hsame & Hmd' & Hsrc & Hfile).
    exists a', c. split; [done|]. split; [done|]. split; [done|].
    rewrite Hother7 by (by apply Hunder).
    apply Hkeep5; [differ|]. apply Hkeep4; [intros; differ|]. done.
  - destruct Hgood5 as (_ & _ & Hdirs5 & Hfiles5). split.
    + intros p c Hp. rewrite Hother7; [by apply Hdirs5| |].
      * intros ->. by apply (openCodeDirs_related O cfg cfg).
      * intros ->. by apply (openCodeDirs_related O md md).
    + intros p Hp. rewrite Hother7; [by apply Hfiles5| |].
      * intros ->. by apply (openCodeFiles_related O cfg).
      * intros ->. by apply (openCodeFiles_related O md).
  - intros p Hp Hp1 Hp2. rewrite Hother7 by done.
    by apply (proj1 (proj2 Hgood5)).
Qed.


(** Closing a lookup in a file system given entry by entry: [E] is
    the lookup, and [tac] refutes the case of each entry. *)
Ltac each_entry E tac :=
  let E0 := fresh "E0" in
  cbn [files] in E;
  repeat (rewrite lookup_insert_Some in E;
          destruct E as [[E0 E]|[_ E]];
          [first [discriminate E | tac E0]|]);
  rewrite lookup_empty in E; discriminate E.

Ltac by_computing H := vm_compute in H; discriminate H.

Ltac no_place Hp E0 :=
  subst; unfold openCodeDirs, openCodeFiles, prefix in Hp;
  decompose [or ex] Hp;
  match goal with H : _ = _ |- _ => vm_compute in H; discriminate H end.

Lemma sync_succeeds_witness :
  let w :=
    World (<[ [str "p"; str ".ai"; str "agents"; str "oracle.md"]
              := File (str "# Oracle") ]>
          (<[ [str "p"; str ".ai"; str "agents"] := Dir ]>
          (<[ [str "p"; str ".ai"; str "skills"; str "debug"; str "SKILL.md"]
              := File (str "> Find bugs") ]>
          (<[ [str "p"; str ".ai"; str "skills"; str "debug"] := Dir ]>
          (<[ [str "p"; str ".ai"; str "skills"] := Dir ]>
          (<[ [str "p"; str ".ai"] := Dir ]>
          (<[ [str "p"] := Dir ]> ∅))))))) [] in
  ∃ w',
    syncOpenCode [str "pkg"; str ".ai"] [str "p"] w = (Ok tt, w')
    ∧ files w' !! [str "p"; str "opencode.json"]
      = Some (File (joinLines openCodeConfigLines))
    ∧ files w' !! [str "p"; str ".opencode"; str "skill"; str "debug";
                   str "SKILL.md"]
      = Some (File (skillOpenCodeContent (str "debug") (str "> Find bugs")))
    ∧ files w' !! [str "p"; str ".opencode"; str "command"; str "debug.md"]
      = Some (File (commandContent (str "debug") (str "Find bugs"))).
Proof.
  intros w.
  destruct (sync_succeeds [str "pkg"; str ".ai"] [str "p"]
              [str "p"; str ".ai"] w)
    as (w' & E & Hcfg & _ & _ & Hskills & _).
  - names.
  - unfold w. cbn [files].
    repeat apply wfFiles_insert; try apply wfFiles_empty; names.
  - vm_compute. reflexivity.
  - split; intros [k Hk]; by_computing Hk.
  - split; [|split; [|split]].
    + intros c H. by_computing H.
    + intros n _ H. unfold w in H. each_entry H by_computing.
    + intros c H. by_computing H.
    + intros n _ H. unfold w in H. each_entry H by_computing.
  - split.
    + intros p c Hp H. unfold w in H. each_entry H ltac:(no_place Hp).
    + intros p Hp H. unfold w in H. each_entry H ltac:(no_place Hp).
  - intros H. by_computing H.
  - exists w'. split; [exact E|]. split; [exact Hcfg|].
    apply (Hskills (str "debug") (str "> Find bugs"));
      vm_compute; reflexivity.
Defined.

End SyncRuns.

(** * Where sync takes its skills from *)

Module SyncSource.
Import FsFacts CopyFacts SyncMore AddCopy SyncRuns.

Lemma syncOpenCode_source s1 s2 projectDir w :
  is_Some (files w !! (projectDir ++ [str ".ai"])) →
  syncOpenCode s1 projectDir w = syncOpenCode s2 projectDir w.
Proof.
  intros Hai.
  assert (existsSync (pathJoin projectDir [str ".ai"]) w = (Ok true, w)) as E.
  { rewrite (pathJoin_names projectDir [str ".ai"]) by names.
    unfold existsSync. rewrite entryAt_nonempty by by destruct projectDir.
    by rewrite bool_decide_eq_true_2. }
  unfold syncOpenCode. by rewrite !(bind_ok _ _ _ _ _ E).
Qed.

Lemma syncClaude_source s1 s2 projectDir w :
  is_Some (files w !! (projectDir ++ [str ".ai"])) →
  syncClaude s1 projectDir w = syncClaude s2 projectDir w.
Proof.
  intros Hai.
  assert (existsSync (pathJoin projectDir [str ".ai"]) w = (Ok true, w)) as E.
  { rewrite (pathJoin_names projectDir [str ".ai"]) by names.
    unfold existsSync. rewrite entryAt_nonempty by by destruct projectDir.
    by rewrite bool_decide_eq_true_2. }
  unfold syncClaude. by rewrite !(bind_ok _ _ _ _ _ E).
Qed.

(** X27.  In a project that has its own [.ai], the three sync commands
    never look at the packaged one: their outcome is the same
    whatever [getSourceAiDir()] is. *)
Theorem sync_prefers_project_corpus s1 s2 projectDir w :
  Forall validName projectDir →
  wfFiles (files w) →
  is_Some (files w !! (projectDir ++ [str ".ai"])) →
  syncOpenCode s1 projectDir w = syncOpenCode s2 projectDir w
  ∧ syncClaude s1 projectDir w = syncClaude s2 projectDir w
  ∧ syncAll s1 projectDir w = syncAll s2 projectDir w.
Proof.
  intros HP Hwf Hai.
  split; [by apply syncOpenCode_source|].
  split; [by apply syncClaude_source|].
  unfold syncAll, bind.
  rewrite (syncOpenCode_source s1 s2) by done.
  destruct (syncOpenCode s2 projectDir w) as [[[]|e] w1] eqn:E1; [|done].
  unfold consoleLog, emit. apply syncClaude_source. cbn [files].
  destruct Hai as [e He].
  destruct (safe_syncOpenCode s2 projectDir HP w Hwf) as (_ & Hk & _).
  rewrite E1 in Hk. exists e. apply Hk; [|done].
  intros [Hg|Hg].
  - apply app_inv_head in Hg. vm_compute in Hg. discriminate Hg.
  - assert (apart (projectDir ++ [str ".ai"]) (projectDir ++ [str ".opencode"]))
      as [_ Hap].
    { apply apart_sibling. intros H. vm_compute in H. discriminate H. }
    by apply Hap.
Qed.

Lemma sync_prefers_project_corpus_witness :
  let w :=
    World (<[ [str "p"; str ".ai"; str "skills"; str "debug"; str "SKILL.md"]
              := File (str "> Find bugs") ]>
          (<[ [str "p"; str ".ai"; str "skills"; str "debug"] := Dir ]>
          (<[ [str "p"; str ".ai"; str "skills"] := Dir ]>
          (<[ [str "p"; str ".ai"] := Dir ]>
          (<[ [str "p"] := Dir ]> ∅))))) [] in
  syncAll [str "pkg"; str ".ai"] [str "p"] w
  = syncAll [str "elsewhere"] [str "p"] w.
Proof.
  intros w.
  apply (sync_prefers_project_corpus [str "pkg"; str ".ai"] [str "elsewhere"]
           [str "p"] w).
  - names.
  - unfold w. cbn [files].
    repeat apply wfFiles_insert; try apply wfFiles_empty; names.
  - vm_compute. eauto.
Defined.

End SyncSource.

(** * Facts about the init command *)

Module InitFacts.
Import FsFacts DetectorFacts AddFacts.

Lemma detectStack_total parseJson dir w :
  ∃ r, detectStack parseJson dir w = (Ok r, w).
Proof.
  rewrite detectStack_spec. cbv zeta beta.
  repeat match goal with
         | |- context [declares ?a ?b ?p ?k1 ?k2 ?n] =>
             destruct (declares a b p k1 k2 n)
         end; cbn [orb]; eauto using scanExtensions_total.
Qed.

Lemma returns_ret {A} (a : A) : returns (ret a).
Proof. intros w. by exists a, w. Qed.

Lemma returns_emit e : returns (emit e).
Proof. intros w. by eexists _, _. Qed.

Lemma returns_bind {A B} (m : M A) (k : A → M B) :
  returns m → (∀ a, returns (k a)) → returns (bind m k).
Proof.
  intros Hm Hk w. destruct (Hm w) as (a & w1 & E1).
  destruct (Hk a w1) as (b & w2 & E2).
  exists b, w2. unfold bind. by rewrite E1.
Qed.

Lemma returns_forOf {A} (xs : list A) body :
  (∀ x, returns (body x)) → returns (forOf xs body).
Proof.
  intros Hb. induction xs as [|x xs IH]; [apply returns_ret|].
  simpl. apply returns_bind; [apply Hb | by intros _].
Qed.

Lemma returns_detectStack parseJson dir : returns (detectStack parseJson dir).
Proof. intros w. destruct (detectStack_total parseJson dir w) as [r E]. eauto. Qed.

Ltac returns_step :=
  first [ apply returns_ret | apply returns_emit
        | apply returns_detectStack
        | apply returns_forOf; intros ?
        | apply returns_bind; [|intros ?] ].

Section WithEnvironment.

Variable sourceDir : path.
Variable cwd : path.
Variables bold gray cyan yellow green red : jsstring → jsstring.

(** X21.  With a stack flag that names no stack, init reports it and
    returns: nothing is detected, copied or bridged, whatever the
    copy and bridge functions are. *)
Theorem init_rejects_unknown_stack parseJson copyAiDirectory createBridges
    options name w :
  optStackName options = Some name →
  name ≠ [] →
  isValidStack name = false →
  init sourceDir cwd bold gray cyan yellow green red parseJson
       copyAiDirectory createBridges options w
  = (Ok tt,
     World (files w)
       (console w ++
        [ Log (bold (nl ++ str "🚀 Initializing ai-dev-system" ++ nl));
          Log (gray (str "  Target: " ++ pathText (default cwd (optDir options))));
          Log (gray (str "  Source: " ++ pathText sourceDir ++ nl));
          SpinStart (str "Detecting technology stack...");
          SpinFail (str "Invalid stack: " ++ name);
          Log (yellow (str "  Available stacks: react-typescript, php-laravel, node-express")) ])).
Proof.
  intros Hflag Hne Hinvalid.
  unfold init, chooseStack, bind, consoleLog, emit. rewrite Hflag.
  rewrite bool_decide_eq_false_2 by done. rewrite Hinvalid.
  cbn [files console]. by rewrite <- !app_assoc.
Qed.

(** X22.  A valid stack flag bypasses the detection: the run does not
    depend on how manifests are parsed. *)
Theorem init_with_stack_flag_skips_detection parse1 parse2
    copyAiDirectory createBridges options name w :
  optStackName options = Some name →
  isValidStack name = true →
  init sourceDir cwd bold gray cyan yellow green red parse1
       copyAiDirectory createBridges options w
  = init sourceDir cwd bold gray cyan yellow green red parse2
       copyAiDirectory createBridges options w.
Proof.
  intros Hflag Hvalid.
  assert (name ≠ []) as Hne by (by intros ->).
  unfold init, chooseStack. rewrite Hflag.
  by rewrite bool_decide_eq_false_2 by done.
Qed.

(** X23.  With [--no-bridge] the bridges are not created: the run does not
    depend on the bridge function. *)
Theorem init_without_bridges parseJson copyAiDirectory bridges1 bridges2
    options w :
  optBridge options = Some false →
  init sourceDir cwd bold gray cyan yellow green red parseJson
       copyAiDirectory bridges1 options w
  = init sourceDir cwd bold gray cyan yellow green red parseJson
       copyAiDirectory bridges2 options w.
Proof.
  intros Hb. unfold init, bridgeStep. by rewrite Hb.
Qed.

(** X24.  init has no failure of its own: when copyAiDirectory and
    createBridges return, init returns, whatever the options and the
    files are. *)
Theorem init_never_throws parseJson copyAiDirectory createBridges options :
  (∀ s t o, returns (copyAiDirectory s t o)) →
  (∀ t a, returns (createBridges t a)) →
  ∀ w, ∃ w',
    init sourceDir cwd bold gray cyan yellow green red parseJson
         copyAiDirectory createBridges options w
    = (Ok tt, w').
Proof.
  intros Hcopy Hbridges w.
  assert (returns (init sourceDir cwd bold gray cyan yellow green red parseJson
                        copyAiDirectory createBridges options)) as H.
  { unfold init, chooseStack, copyStep, bridgeStep, summary, reportItems,
      consoleLog.
    repeat first
      [ returns_step
      | apply Hcopy | apply Hbridges
      | match goal with
        | |- returns (match ?x with _ => _ end) => destruct x
        | |- returns (if ?b then _ else _) => destruct b
        end ]. }
  destruct (H w) as ([] & w' & E). eauto.
Qed.

End WithEnvironment.

Lemma splitOn_part sep acc x rest :
  forallb (fun c => negb (c =? sep)) x = true →
  splitOn sep acc (x ++ sep :: rest) = (rev acc ++ x) :: splitOn sep [] rest.
Proof.
  revert acc. induction x as [|c x IH]; intros acc Hx.
  - simpl. rewrite N.eqb_refl. by rewrite app_nil_r.
  - simpl in Hx. apply andb_true_iff in Hx as [Hc Hx].
    apply negb_true_iff in Hc. simpl. rewrite Hc, IH by done.
    simpl. by rewrite <- app_assoc.
Qed.

Lemma splitOn_last sep acc x :
  forallb (fun c => negb (c =? sep)) x = true →
  splitOn sep acc x = [rev acc ++ x].
Proof.
  revert acc. induction x as [|c x IH]; intros acc Hx.
  - simpl. by rewrite app_nil_r.
  - simpl in Hx. apply andb_true_iff in Hx as [Hc Hx].
    apply negb_true_iff in Hc. simpl. rewrite Hc, IH by done.
    simpl. by rewrite <- app_assoc.
Qed.

(** [join] and then [split] gives the parts back when none holds the
    separator. *)
Lemma splitOn_joinWith sep (xs : list jsstring) :
  xs ≠ [] →
  Forall (fun x => forallb (fun c => negb (c =? sep)) x = true) xs →
  splitOn sep [] (joinWith [sep] xs) = xs.
Proof.
  intros Hne Hxs. destruct xs as [|x xs]; [done|]. clear Hne.
  revert x Hxs. induction xs as [|y xs IH]; intros x Hxs.
  - simpl. rewrite app_nil_r. apply splitOn_last. by inversion Hxs.
  - inversion Hxs as [|? ? Hx Hrest]. subst.
    change (joinWith [sep] (x :: y :: xs))
      with (x ++ sep :: joinWith [sep] (y :: xs)).
    rewrite splitOn_part by done. simpl rev. rewrite app_nil_l.
    f_equal. by apply IH.
Qed.

Lemma trimStart_spaces a s :
  forallb isSpace a = true → trimStart (a ++ s) = trimStart s.
Proof.
  induction a as [|c a IH]; [done|]. simpl.
  intros [Hc Ha]%andb_true_iff. rewrite Hc. by apply IH.
Qed.

Lemma trimStart_length s : (length (trimStart s) ≤ length s)%nat.
Proof.
  induction s as [|c s IH]; [done|]. simpl.
  destruct (isSpace c); simpl; lia.
Qed.

Lemma trimStart_fixed_app n b :
  n ≠ [] → trimStart n = n → trimStart (n ++ b) = n ++ b.
Proof.
  destruct n as [|c n]; [done|]. intros _. simpl.
  destruct (isSpace c); [|done].
  intros H. pose proof (trimStart_length n) as Hl. rewrite H in Hl.
  simpl in Hl. lia.
Qed.

Lemma trimStart_all_spaces a : forallb isSpace a = true → trimStart a = [].
Proof.
  intros H. rewrite <- (app_nil_r a). by rewrite trimStart_spaces.
Qed.

Lemma forallb_rev {A} (f : A → bool) l :
  forallb f l = true → forallb f (rev l) = true.
Proof.
  rewrite !forallb_forall. intros H x Hx. apply H. by apply in_rev.
Qed.

(** [trim] takes the padding off. *)
Lemma trim_part p : wellPadded p → trim (partText p) = partName p.
Proof.
  intros (Ha & Hb & _ & Hn & Hr). unfold trim, partText.
  rewrite trimStart_spaces by done.
  destruct (partName p) as [|c n] eqn:E.
  - simpl. rewrite (trimStart_all_spaces _ Hb). done.
  - rewrite <- E in *. rewrite trimStart_fixed_app by (done || by rewrite E).
    rewrite rev_app_distr, trimStart_spaces by by apply forallb_rev.
    rewrite Hr. apply rev_involutive.
Qed.

Lemma partText_no_comma p :
  wellPadded p → forallb (fun c => negb (c =? 44)) (partText p) = true.
Proof.
  intros (Ha & Hb & Hn & _). unfold partText.
  assert (∀ a, forallb isSpace a = true →
               forallb (fun c => negb (c =? 44)) a = true) as Hsp.
  { intros a. rewrite !forallb_forall. intros H c Hc.
    specialize (H c Hc). destruct (N.eqb_spec c 44) as [->|]; [|done].
    vm_compute in H. discriminate H. }
  rewrite !forallb_app, Hn, !Hsp by done. done.
Qed.

(** X25.  For an [--ai] value made of names separated by commas, each with
    white space around it, init passes to createBridges the names
    for which [t in AI_BRIDGES] holds, in their order, and ['all']
    when there is none. *)
Theorem ai_flag_selects_listed_tools parts :
  parts ≠ [] →
  Forall wellPadded parts →
  aiFlag parts ≠ [] →
  aiFlag parts ≠ str "all" →
  selectTools (Some (aiFlag parts))
  = match List.filter inAiBridges (map partName parts) with
    | [] => None
    | tools => Some tools
    end.
Proof.
  intros Hne Hparts Hempty Hall. unfold selectTools.
  rewrite !bool_decide_eq_false_2 by done. cbn [negb andb]. cbv zeta.
  unfold aiFlag. rewrite splitOn_joinWith.
  - rewrite map_map.
    assert (map (fun x => trim (partText x)) parts = map partName parts) as ->.
    { apply map_ext_Forall. eapply Forall_impl; [exact Hparts|].
      intros p Hp. by apply trim_part. }
    by destruct (List.filter inAiBridges (map partName parts)).
  - by destruct parts.
  - apply Forall_map. eapply Forall_impl; [exact Hparts|].
    intros p Hp. by apply partText_no_comma.
Qed.

Lemma ai_flag_selects_listed_tools_witness :
  selectTools (Some (str " claude,vim ,constructor"))
  = Some [str "claude"; str "constructor"].
Proof.
  pose proof (ai_flag_selects_listed_tools
                [ FlagPart (str " ") (str "claude") [];
                  FlagPart [] (str "vim") (str " ");
                  FlagPart [] (str "constructor") [] ]) as H.
  assert (∀ p, (forallb isSpace (leadingSpace p)
                && forallb isSpace (trailingSpace p)
                && forallb (fun c => negb (c =? 44)) (partName p)
                && bool_decide (trimStart (partName p) = partName p)
                && bool_decide (trimStart (rev (partName p)) = rev (partName p)))
               = true → wellPadded p) as Hw.
  { intros p. rewrite !andb_true_iff, !bool_decide_eq_true. unfold wellPadded.
    tauto. }
  apply H.
  - discriminate.
  - repeat (apply Forall_cons_2; [apply Hw; vm_compute; reflexivity|]).
    apply Forall_nil_2.
  - intros E. vm_compute in E. discriminate E.
  - intros E. vm_compute in E. discriminate E.
Defined.

Lemma init_rejects_unknown_stack_witness :
  let options := InitOpts (Some (str "rust")) None None None in
  let w := World ∅ [] in
  ∃ w',
    init [str "pkg"; str ".ai"] [str "p"] id id id id id id exampleParser
         (fun _ _ _ => throw ENOENT) (fun _ _ => throw ENOENT)
         options w
    = (Ok tt, w')
    ∧ files w' = files w.
Proof.
  intros options w. eexists. split.
  - apply (init_rejects_unknown_stack [str "pkg"; str ".ai"] [str "p"]
             id id id id id id exampleParser
             (fun _ _ _ => throw ENOENT) (fun _ _ => throw ENOENT)
             options (str "rust") w).
    + reflexivity.
    + discriminate.
    + vm_compute. reflexivity.
  - reflexivity.
Defined.

Lemma init_with_stack_flag_skips_detection_witness :
  let options := InitOpts (Some (str "php-laravel")) None None None in
  init [str "pkg"; str ".ai"] [str "p"] id id id id id id exampleParser
       (fun _ _ _ => throw ENOENT) (fun _ _ => throw ENOENT)
       options (World ∅ [])
  = init [str "pkg"; str ".ai"] [str "p"] id id id id id id (fun _ => None)
       (fun _ _ _ => throw ENOENT) (fun _ _ => throw ENOENT)
       options (World ∅ []).
Proof.
  intros options.
  apply (init_with_stack_flag_skips_detection [str "pkg"; str ".ai"] [str "p"]
           id id id id id id exampleParser (fun _ => None)
           (fun _ _ _ => throw ENOENT) (fun _ _ => throw ENOENT)
           options (str "php-laravel") (World ∅ [])).
  - reflexivity.
  - vm_compute. reflexivity.
Defined.

Lemma init_without_bridges_witness :
  let options := InitOpts None None None (Some false) in
  init [str "pkg"; str ".ai"] [str "p"] id id id id id id exampleParser
       (fun _ _ _ => ret (Outcome true [] [] [])) (fun _ _ => throw ENOENT) options (World ∅ [])
  = init [str "pkg"; str ".ai"] [str "p"] id id id id id id exampleParser
       (fun _ _ _ => ret (Outcome true [] [] []))
       (fun _ _ => ret (Outcome true [] [] [])) options (World ∅ []).
Proof.
  intros options.
  apply (init_without_bridges [str "pkg"; str ".ai"] [str "p"]
           id id id id id id exampleParser
           (fun _ _ _ => ret (Outcome true [] [] []))
           (fun _ _ => throw ENOENT) (fun _ _ => ret (Outcome true [] [] []))
           options (World ∅ [])).
  reflexivity.
Defined.

Lemma init_never_throws_witness :
  ∃ w',
    init [str "pkg"; str ".ai"] [str "p"] id id id id id id exampleParser
         (fun _ _ _ => ret (Outcome true [str ".ai/"] [] []))
         (fun _ _ => ret (Outcome true [] [str ".claude/"] []))
         (InitOpts None (Some (str "claude")) None None) (World ∅ [])
    = (Ok tt, w').
Proof.
  apply (init_never_throws [str "pkg"; str ".ai"] [str "p"]
           id id id id id id exampleParser
           (fun _ _ _ => ret (Outcome true [str ".ai/"] [] []))
           (fun _ _ => ret (Outcome true [] [str ".claude/"] []))
           (InitOpts None (Some (str "claude")) None None)).
  - intros s t o w. eexists _, _. reflexivity.
  - intros t a w. eexists _, _. reflexivity.
Defined.

End InitFacts.
